(** * Podcast Studio: model routing, retry policy and the production pipeline

    A shallow embedding of
      - [src/services/geminiService.ts]: GeminiService.withRetry and
        generateSpeech;
      - [src/unnamed/part_000], the module imported as
        [services/modelRouter]: ModelRouter.selectModel;
      - [src/unnamed/part_002], the module imported as [constants]: VOICES
        and MODEL_REGISTRY;
      - [src/types.ts]: the enumerations and record types;
      - [src/unnamed/part_003], the component [App]: the effect that derives
        the segments from the script, voice resolution and
        handlePodcastProduction (line numbers below refer to this file);
    followed by the properties established about them.

    Conventions.  JavaScript strings are [string], read as the sequence of
    their UTF-16 code units: the character with code [n] is the code unit
    [n].  A [string] is thus a JS string whose code units are all below 256
    (ASCII and the Latin-1 supplement); on these [String.length] is
    [s.length], [String.substring 0 n] is [s.slice(0, n)], and the string
    functions of module [JS] below are those of the engine.  A JS string
    that holds a code unit from 256 on (among them the separators U+2028
    and U+2029 and the surrogates) is no value of this development, and no
    property below speaks of one.  Integral numbers that the
    code only counts with (retry budget, delays in ms, list lengths) are [nat]
    or [Z]; every other JS number (costs, durations, percentages) is an IEEE
    binary64 [float], so that rounding behaves as in the engine.  A JS object
    that is shared and mutated lives in an explicit heap and is handled by
    reference.  Code that can throw returns a [Completion]; asynchronous code
    additionally threads the state it runs against. *)

From Stdlib Require Import String Ascii List ZArith Bool Lia.
From Stdlib Require Import PrimFloat FloatOps Uint63 DecimalString.
From stdpp Require Import base option list gmap strings.

Set Warnings "-inexact-float".
Local Open Scope string_scope.
Local Open Scope Z_scope.
Local Open Scope list_scope.

(* ===================================================================== *)
(** * Part I. Definitions                                                 *)
(* ===================================================================== *)

(** ** JavaScript primitives used by the sources *)

Module JS.

(** [s.includes(sub)]. *)
Fixpoint includes (s sub : string) : bool :=
  String.prefix sub s
  || match s with
     | EmptyString => false
     | String _ rest => includes rest sub
     end.

(** [c.toLowerCase()] on one code unit below 256: the letters A to Z
    and the capital letters of the Latin-1 supplement (U+00C0 to U+00DE
    without the multiplication sign U+00D7) move up by 32; every other
    code unit is its own lower case. *)
Definition lowerAscii (c : ascii) : ascii :=
  let n := nat_of_ascii c in
  if ((Nat.leb 65 n && Nat.leb n 90)
      || (Nat.leb 192 n && Nat.leb n 222 && negb (Nat.eqb n 215)))%bool
  then ascii_of_nat (n + 32) else c.

(** [s.toLowerCase()] *)
Fixpoint toLowerCase (s : string) : string :=
  match s with
  | EmptyString => EmptyString
  | String c rest => String (lowerAscii c) (toLowerCase rest)
  end.

(** Truthiness of an optional string: [!!s]. *)
Definition truthyString (s : option string) : bool :=
  match s with
  | Some (String _ _) => true
  | _ => false
  end.

(** Truthiness of an optional boolean. *)
Definition truthyBool (b : option bool) : bool :=
  match b with
  | Some true => true
  | _ => false
  end.

(** White space and line terminators, as [trim] removes them: of the
    code units below 256 these are TAB, LF, VT, FF, CR, the space and the
    no-break space U+00A0. *)
Definition isSpace (c : ascii) : bool :=
  let n := nat_of_ascii c in
  (Nat.eqb n 32 || (Nat.leb 9 n && Nat.leb n 13) || Nat.eqb n 160)%bool.

Fixpoint trimStart (s : string) : string :=
  match s with
  | EmptyString => EmptyString
  | String c rest => if isSpace c then trimStart rest else s
  end.

Fixpoint trimEnd (s : string) : string :=
  match s with
  | EmptyString => EmptyString
  | String c rest =>
      match trimEnd rest with
      | EmptyString => if isSpace c then EmptyString else String c EmptyString
      | rest' => String c rest'
      end
  end.

(** [s.trim()] *)
Definition trim (s : string) : string := trimEnd (trimStart s).

Definition newline : ascii := ascii_of_nat 10.
Definition carriageReturn : ascii := ascii_of_nat 13.

(** [s.split('\n')] *)
Fixpoint splitLines (s : string) : list string :=
  match s with
  | EmptyString => [EmptyString]
  | String c rest =>
      if Ascii.eqb c newline then EmptyString :: splitLines rest
      else match splitLines rest with
           | line :: lines => String c line :: lines
           | [] => [String c EmptyString]
           end
  end.

(** Whether [c] occurs in [s]. *)
Fixpoint hasChar (c : ascii) (s : string) : bool :=
  match s with
  | EmptyString => false
  | String c' rest => (Ascii.eqb c c' || hasChar c rest)%bool
  end.

(** Decimal rendering of an integral number inside a template literal. *)
Definition showNat (n : nat) : string := NilEmpty.string_of_uint (Nat.to_uint n).
Definition showZ (z : Z) : string := NilEmpty.string_of_int (Z.to_int z).

(** What [JSON.stringify(v)] does for a value [v]: it yields text, yields
    [undefined] (functions, symbols, a [toJSON] returning nothing), or throws
    (cyclic structures, BigInt fields). *)
Inductive Stringified : Type :=
  | JsonText (s : string)
  | JsonUndefined
  | JsonThrows.

(** A thrown value, as far as the sources observe one: its [message]
    property, which is a string or is missing, and the outcome of
    [JSON.stringify].  Thrown values are objects; a rejection with [null]
    or [undefined] is outside this model, and so is a thrown object whose
    [message] is there without being a string (a number, say), on which
    the test of [GeminiService.withRetry] itself throws a [TypeError]. *)
Record Thrown : Type := mkThrown {
  message : option string;
  stringify : Stringified
}.

(** [new Error(msg)]: [message] is not enumerable, so the object
    serializes to the empty object literal. *)
Definition Error (msg : string) : Thrown :=
  {| message := Some msg; stringify := JsonText "{}" |}.

(** The two [TypeError]s the engine itself can raise inside [withRetry]. *)
Definition TypeError_circular : Thrown :=
  Error "Converting circular structure to JSON".
Definition TypeError_undefined_includes : Thrown :=
  Error "Cannot read properties of undefined (reading 'includes')".

(** [${e.message}] inside a template literal. *)
Definition showMessage (e : Thrown) : string :=
  match message e with
  | Some m => m
  | None => "undefined"
  end.

(** Completion of a piece of code that may throw. *)
Inductive Completion (A : Type) : Type :=
  | Normal (v : A)
  | Throw (e : Thrown).
Arguments Normal {A} v.
Arguments Throw {A} e.

(** [Math.round(x)]: the integer nearest to [x], ties towards +infinity.
    The float is decoded to its exact dyadic value [m * 2^e], rounded in
    [Z], and encoded again. *)
Definition Math_round (x : float) : float :=
  match Prim2SF x with
  | SpecFloat.S754_finite sign m e =>
      if (0 <=? e)%Z then x
      else
        let num := if sign then (- Z.pos m)%Z else Z.pos m in
        let r := ((2 * num + 2 ^ (- e)) / 2 ^ (1 - e))%Z in
        if (r <? 0)%Z then PrimFloat.opp (PrimFloat.of_uint63 (Uint63.of_Z (- r)))
        else if (r =? 0)%Z then (if sign then PrimFloat.opp 0%float else 0%float)
        else PrimFloat.of_uint63 (Uint63.of_Z r)
  | _ => x
  end.

(** A count used as a JS number. *)
Definition num (n : nat) : float := PrimFloat.of_uint63 (Uint63.of_Z (Z.of_nat n)).

End JS.

Export JS(Completion, Normal, Throw, Thrown, Stringified, JsonText, JsonUndefined, JsonThrows).

(** ** The environment asynchronous code runs against *)

(** [env] is whatever the outside world is made of (network, speech engine,
    decoder); [timers] lists, oldest first, the delays passed to
    [setTimeout] through [sleep]. *)
Record World (Env : Type) : Type := mkWorld {
  env : Env;
  timers : list Z
}.
Arguments mkWorld {Env} env timers.
Arguments env {Env} w.
Arguments timers {Env} w.

(** An [async] function of no argument: [() => Promise<T>]. *)
Definition Async (Env T : Type) : Type := World Env -> Completion T * World Env.

(** [const sleep = (ms) => new Promise(resolve => setTimeout(resolve, ms))] *)
Definition sleep {Env} (ms : Z) (w : World Env) : World Env :=
  {| env := env w; timers := timers w ++ [ms] |}.

(** ** services/geminiService.ts *)

Module GeminiService.

(** Line 22-23 of [withRetry]:
      const errorStr = JSON.stringify(error);
      const isRateLimit = error?.message?.includes('429')
                       || errorStr.includes('429')
                       || errorStr.includes('RESOURCE_EXHAUSTED');
    The computation itself can throw: [JSON.stringify] may, and so does
    [errorStr.includes] when [errorStr] is [undefined] and the first
    disjunct did not already decide. *)
Definition isRateLimit (error : Thrown) : Completion bool :=
  let messageHas429 :=
    match JS.message error with
    | Some m => JS.includes m "429"
    | None => false
    end in
  match JS.stringify error with
  | JsonThrows => Throw JS.TypeError_circular
  | JsonText errorStr =>
      Normal (messageHas429
              || JS.includes errorStr "429"
              || JS.includes errorStr "RESOURCE_EXHAUSTED")
  | JsonUndefined =>
      if messageHas429 then Normal true
      else Throw JS.TypeError_undefined_includes
  end.

(** [private async withRetry<T>(fn, retries = 3, delay = 2000)].  The
    recursion of the source is on [retries - 1], guarded by [retries > 0]. *)
Fixpoint withRetry {Env T} (fn : Async Env T) (retries : nat) (delay : Z)
    (w : World Env) : Completion T * World Env :=
  match fn w with
  | (Normal v, w1) => (Normal v, w1)
  | (Throw error, w1) =>
      match isRateLimit error with
      | Throw typeError => (Throw typeError, w1)
      | Normal rateLimited =>
          match retries with
          | S retries' =>
              if rateLimited
              then withRetry fn retries' (delay * 2) (sleep delay w1)
              else (Throw error, w1)
          | O => (Throw error, w1)
          end
      end
  end.

Definition default_retries : nat := 3.
Definition default_delay : Z := 2000.

(** The SDK call behind [generateSpeech]: given text and voice name it
    answers with the inline audio payload
    [response.candidates?.[0]?.content?.parts?.[0]?.inlineData?.data],
    when there is one, or throws. *)
Definition TtsEndpoint (Env : Type) : Type :=
  string -> string -> Env -> Completion (option string) * Env.

(** [async generateSpeech(text, voiceName)]. *)
Definition generateSpeech {Env} (generateContent : TtsEndpoint Env)
    (text voiceName : string) : Async Env string :=
  withRetry
    (fun w =>
       match generateContent text voiceName (env w) with
       | (Throw e, env1) => (Throw e, {| env := env1; timers := timers w |})
       | (Normal data, env1) =>
           let w1 := {| env := env1; timers := timers w |} in
           if JS.truthyString data
           then (Normal (default "" data), w1)
           else (Throw (JS.Error "Synthesis produced no audio payload."), w1)
       end)
    default_retries default_delay.

End GeminiService.

(** ** types.ts *)

Inductive UserTier : Type := FREE | PRO | ENTERPRISE.
Inductive TTSEngine : Type := BROWSER | GEMINI.
Inductive ExportFormat : Type := WAV | MP3 | OGG.

Module Provider.
Inductive t : Type := gemini | pollinations | openai | mistral.
Definition eqb (a b : t) : bool :=
  match a, b with
  | gemini, gemini | pollinations, pollinations
  | openai, openai | mistral, mistral => true
  | _, _ => false
  end.
End Provider.

Inductive Capability : Type := cap_text | cap_image | cap_audio | cap_video.
Inductive RequiresAuth : Type := auth_user | auth_app | auth_none.

Module ModelConfig.
Record t : Type := mk {
  id : string;
  provider : Provider.t;
  name : string;
  capabilities : list Capability;
  costPerMtok : option float;
  costPerRequest : option float;
  rateLimit : Z;
  isActive : bool;
  requiresAuth : RequiresAuth
}.
End ModelConfig.

Module UserApiKeys.
Record t : Type := mk {
  pollinationsKey : option string;
  openaiKey : option string;
  mistralKey : option string
}.
End UserApiKeys.

Module VoiceProfile.
Inductive Gender : Type := Male | Female | Neutral.
Record t : Type := mk {
  id : string;
  name : string;
  voiceName : string;
  gender : Gender;
  description : string;
  engine : TTSEngine;
  sampleText : option string
}.
End VoiceProfile.

Definition TTSEngine_eqb (a b : TTSEngine) : bool :=
  match a, b with
  | BROWSER, BROWSER | GEMINI, GEMINI => true
  | _, _ => false
  end.

(** ** constants.ts *)

Module Constants.

Definition VOICES : list VoiceProfile.t :=
  [ VoiceProfile.mk "pro-1" "Alex" "Kore" VoiceProfile.Male "Authoritative" GEMINI
      (Some "Welcome to the future of podcasting.");
    VoiceProfile.mk "pro-2" "Jordan" "Puck" VoiceProfile.Female "Bright" GEMINI
      (Some "It's a beautiful day to explore new ideas.");
    VoiceProfile.mk "pro-3" "Sam" "Charon" VoiceProfile.Male "Intellectual" GEMINI
      (Some "Deep dives into the mysteries of the universe.");
    VoiceProfile.mk "free-1" "Andrew" "en-US-AndrewNeural" VoiceProfile.Male "Edge Male" BROWSER
      (Some "Streaming from the edge of technology.");
    VoiceProfile.mk "free-2" "Emma" "en-US-EmmaNeural" VoiceProfile.Female "Edge Female" BROWSER
      (Some "Let's talk about the world today.");
    VoiceProfile.mk "free-3" "Sonia" "en-GB-SoniaNeural" VoiceProfile.Female "British" BROWSER
      (Some "Fancy a bit of intelligent conversation?") ].

Definition registryEntries : list (string * ModelConfig.t) :=
  [ ("gemini-3-pro-preview",
     ModelConfig.mk "gemini-3-pro-preview" Provider.gemini "Gemini 3 Pro (Reasoning)"
       [cap_text; cap_audio] (Some 3.5%float) None 100 true auth_user);
    ("gemini-3-flash-preview",
     ModelConfig.mk "gemini-3-flash-preview" Provider.gemini "Gemini 3 Flash (Fast)"
       [cap_text; cap_audio] (Some 0.075%float) None 1000 true auth_user);
    ("pollinations-script-paid",
     ModelConfig.mk "pollinations-script-paid" Provider.pollinations "Pollinations (Paid - GPT-4o)"
       [cap_text] None (Some 0.002%float) 500 true auth_user);
    ("pollinations-script-free",
     ModelConfig.mk "pollinations-script-free" Provider.pollinations "Pollinations (Free)"
       [cap_text] None (Some 0%float) 30 true auth_none);
    ("pollinations-image-flux",
     ModelConfig.mk "pollinations-image-flux" Provider.pollinations "Flux Pro (High Quality)"
       [cap_image] None (Some 0.03%float) 100 true auth_user);
    ("pollinations-image-free",
     ModelConfig.mk "pollinations-image-free" Provider.pollinations "Pollinations Free (Turbo)"
       [cap_image] None (Some 0%float) 50 true auth_none);
    ("gemini-native-audio",
     ModelConfig.mk "gemini-native-audio" Provider.gemini "Gemini Native Audio (Premium)"
       [cap_audio] None (Some 0.00001%float) 200 true auth_user);
    ("edge-neural-voices",
     ModelConfig.mk "edge-neural-voices" Provider.openai "Microsoft Edge Neural (Free)"
       [cap_audio] None (Some 0%float) 1000 true auth_none) ].

(** [MODEL_REGISTRY: Record<string, ModelConfig>]; indexing with a key
    that is not there yields [undefined], here [None]. *)
Definition MODEL_REGISTRY : gmap string ModelConfig.t := list_to_map registryEntries.

End Constants.

(** ** services/modelRouter.ts *)

Module ModelRouter.

(** The [task] argument.  TypeScript restricts [type] and [quality] to
    string-literal unions; at run time they are strings, and the function
    has a branch for a [type] outside the union. *)
Record Task : Type := mkTask {
  type : string;
  quality : string;
  requiresReasoning : option bool
}.

Record RoutingDecision : Type := mkDecision {
  modelId : string;
  model : option ModelConfig.t;
  reason : string;
  estimatedCost : float
}.

Definition decide_on (modelId reason : string) (estimatedCost : float) : RoutingDecision :=
  {| modelId := modelId;
     model := Constants.MODEL_REGISTRY !! modelId;
     reason := reason;
     estimatedCost := estimatedCost |}.

(** [static selectModel(task, userKeys): RoutingDecision] *)
Definition selectModel (task : Task) (userKeys : UserApiKeys.t) : Completion RoutingDecision :=
  let hasPollinationsKey := JS.truthyString (UserApiKeys.pollinationsKey userKeys) in
  if (type task =? "script_generation")%string then
    if ((quality task =? "premium")%string || JS.truthyBool (requiresReasoning task))%bool then
      Normal (decide_on "gemini-3-pro-preview"
                "Advanced reasoning required or premium quality selected (Gemini 3 Pro)"
                0.005%float)
    else if ((quality task =? "balanced")%string && hasPollinationsKey)%bool then
      Normal (decide_on "pollinations-script-paid"
                "Utilizing Pollinations GPT-4o for balanced production"
                0.002%float)
    else
      Normal (decide_on "pollinations-script-free"
                "Standard fast script generation (Free tier)"
                0%float)
  else if (type task =? "image_generation")%string then
    if ((quality task =? "premium")%string && hasPollinationsKey)%bool then
      Normal (decide_on "pollinations-image-flux"
                "High-fidelity visuals via Flux Pro"
                0.03%float)
    else
      Normal (decide_on "pollinations-image-free"
                "Free image generation using Turbo model"
                0%float)
  else if (type task =? "audio_synthesis")%string then
    if (quality task =? "premium")%string then
      Normal (decide_on "gemini-native-audio"
                "Premium multi-speaker synthesis (Gemini 2.5 Native)"
                0.00001%float)
    else
      Normal (decide_on "edge-neural-voices"
                "Efficient Edge neural voices for standard production"
                0%float)
  else
    Throw (JS.Error ("Unsupported task: " +:+ type task)).

End ModelRouter.

(** ** App.tsx: data *)

Module PodcastSegment.
Inductive Status : Type := pending | generating | completed | error.
Record t : Type := mk {
  id : string;
  speaker : string;
  text : string;
  audioUrl : option string;
  status : Status;
  duration : option float;
  startTime : option float
}.
(** [seg.startTime = start; seg.duration = dur] *)
Definition timed (seg : t) (start dur : float) : t :=
  mk (id seg) (speaker seg) (text seg) (audioUrl seg) (status seg) (Some dur) (Some start).
End PodcastSegment.

(** The fields of [AppState] the production pipeline reads (art style,
    script type, trial and usage bookkeeping belong to the screens). *)
Module AppState.
Record t : Type := mk {
  tier : UserTier;
  quality : string;
  exportFormat : ExportFormat;
  apiKeys : UserApiKeys.t;
  isGenerating : bool;
  introText : string;
  outroText : string;
  speakerVoiceMap : gmap string string
}.
Definition set_isGenerating (b : bool) (st : t) : t :=
  mk (tier st) (quality st) (exportFormat st) (apiKeys st) b
     (introText st) (outroText st) (speakerVoiceMap st).
Definition set_tier (tr : UserTier) (st : t) : t :=
  mk tr (quality st) (exportFormat st) (apiKeys st) (isGenerating st)
     (introText st) (outroText st) (speakerVoiceMap st).
Definition set_exportFormat (f : ExportFormat) (st : t) : t :=
  mk (tier st) (quality st) f (apiKeys st) (isGenerating st)
     (introText st) (outroText st) (speakerVoiceMap st).
End AppState.

Module LogEntry.
Inductive Level : Type := info | warn | error.
Record t : Type := mk {
  timestamp : Z;
  level : Level;
  message : string
}.
End LogEntry.

(** The value held by the [progress] hook. *)
Module Progress.
Record t : Type := mk {
  percent : float;
  status : string;
  stage : string
}.
End Progress.

(** ** services/audioEngine (imported by App.tsx, not part of the sources
    at hand) and the browser objects the pipeline calls.  They are taken
    as an interface: asynchronous operations act on the environment and
    may throw, the encoders and the subtitle writer are functions. *)
Class AudioEngine : Type := {
  Env : Type;
  AudioContext : Type;
  AudioBuffer : Type;
  Blob : Type;
  (** [buffer.duration] *)
  buffer_duration : AudioBuffer -> float;
  ensureAudioContext : AudioContext -> Env -> Completion unit * Env;
  generateBrowserSpeech : string -> string -> AudioContext -> Env -> Completion AudioBuffer * Env;
  decodeGeminiAudio : string -> AudioContext -> Env -> Completion AudioBuffer * Env;
  createWatermarkBuffer : AudioContext -> Env -> Completion AudioBuffer * Env;
  concatenateAudioBuffers : list AudioBuffer -> AudioContext -> AudioBuffer;
  audioBufferToWav : AudioBuffer -> Blob;
  audioBufferToMp3 : AudioBuffer -> Blob;
  generateSRT : list PodcastSegment.t -> string;
  (** [ai.models.generateContent] of the speech endpoint *)
  generateContent : GeminiService.TtsEndpoint Env;
  (** [Date.now()] and [crypto.randomUUID()] *)
  Date_now : Env -> Z;
  crypto_randomUUID : Env -> string * Env
}.

(** ** App.tsx: voice resolution

    Lines 213-218 of [synthesizeSegment] and lines 339-344 of
    [handlePodcastProduction] are the same five statements:
      const isGeminiEngine = ttsDecision.model.provider === 'gemini';
      const currentEngineVoices = VOICES.filter(v => v.engine === family);
      const mappedVoiceId = state.speakerVoiceMap[seg.speaker];
      let voice = VOICES.find(v => v.id === mappedVoiceId && v.engine === family);
      if (!voice) voice = currentEngineVoices.find(v =>
          v.name.toLowerCase().includes(seg.speaker.toLowerCase()))
        || currentEngineVoices[0];
    where [family] is [isGeminiEngine ? TTSEngine.GEMINI : TTSEngine.BROWSER].
    A speaker that names an inherited property of the map object yields a
    non-string, which equals no voice id, like an absent mapping. *)
Module Voices.

Definition isGeminiEngine (provider : Provider.t) : bool :=
  Provider.eqb provider Provider.gemini.

Definition family (isGeminiEngine : bool) : TTSEngine :=
  if isGeminiEngine then GEMINI else BROWSER.

Definition inFamily (isGeminiEngine : bool) (v : VoiceProfile.t) : bool :=
  TTSEngine_eqb (VoiceProfile.engine v) (family isGeminiEngine).

Definition hasId (mappedVoiceId : option string) (v : VoiceProfile.t) : bool :=
  match mappedVoiceId with
  | Some voiceId => String.eqb (VoiceProfile.id v) voiceId
  | None => false
  end.

Definition nameContains (speaker : string) (v : VoiceProfile.t) : bool :=
  JS.includes (JS.toLowerCase (VoiceProfile.name v)) (JS.toLowerCase speaker).

Definition resolveVoice (VOICES : list VoiceProfile.t) (provider : Provider.t)
    (speakerVoiceMap : gmap string string) (speaker : string) : option VoiceProfile.t :=
  let isGeminiEngine := isGeminiEngine provider in
  let currentEngineVoices := List.filter (inFamily isGeminiEngine) VOICES in
  let mappedVoiceId := speakerVoiceMap !! speaker in
  let voice :=
    List.find (fun v => hasId mappedVoiceId v && inFamily isGeminiEngine v) VOICES in
  match voice with
  | Some v => Some v
  | None =>
      match List.find (nameContains speaker) currentEngineVoices with
      | Some v => Some v
      | None => head currentEngineVoices
      end
  end.

(** Containment without regard to case, in the words of the
    specification and with no reference to [toLowerCase]: two characters
    are the same letter when they are equal, or when one of them is a
    capital letter (A to Z, or a capital of the Latin-1 supplement) and
    the other is the small letter 32 code units above it; a label occurs
    in a name when some stretch of the name matches it letter by
    letter. *)
Definition isCapital (c : ascii) : bool :=
  let n := nat_of_ascii c in
  ((Nat.leb 65 n && Nat.leb n 90)
   || (Nat.leb 192 n && Nat.leb n 214) || (Nat.leb 216 n && Nat.leb n 222))%bool.

Definition smallOf (capital small : ascii) : bool :=
  (isCapital capital && Nat.eqb (nat_of_ascii small) (nat_of_ascii capital + 32))%bool.

Definition sameLetter (a b : ascii) : bool :=
  (Ascii.eqb a b || smallOf a b || smallOf b a)%bool.

Fixpoint startsWithIgnoringCase (label name : string) : bool :=
  match label, name with
  | EmptyString, _ => true
  | String a label', String b name' =>
      (sameLetter a b && startsWithIgnoringCase label' name')%bool
  | String _ _, EmptyString => false
  end.

Fixpoint containsIgnoringCase (name label : string) : bool :=
  (startsWithIgnoringCase label name
   || match name with
      | EmptyString => false
      | String _ rest => containsIgnoringCase rest label
      end)%bool.

(** [p] holds of every character. *)
Definition allAscii (p : ascii -> bool) : bool :=
  forallb p (map ascii_of_nat (seq 0 256)).

(** The resolution order in the words of the specification: restrict to the
    family of the routing decision; take the mapped voice if it is in the
    restricted list; else the first restricted voice whose name contains
    the speaker, case-insensitively; else the first restricted voice. *)
Definition restricted (VOICES : list VoiceProfile.t) (provider : Provider.t)
    : list VoiceProfile.t :=
  List.filter
    (fun v => TTSEngine_eqb (VoiceProfile.engine v)
                (match provider with Provider.gemini => GEMINI | _ => BROWSER end))
    VOICES.

Definition resolveVoice_spec (VOICES : list VoiceProfile.t) (provider : Provider.t)
    (speakerVoiceMap : gmap string string) (speaker : string) : option VoiceProfile.t :=
  let candidates := restricted VOICES provider in
  let mapped :=
    match speakerVoiceMap !! speaker with
    | Some voiceId => List.find (fun v => String.eqb (VoiceProfile.id v) voiceId) candidates
    | None => None
    end in
  match mapped with
  | Some v => Some v
  | None =>
      match List.find (fun v => containsIgnoringCase (VoiceProfile.name v) speaker)
              candidates with
      | Some v => Some v
      | None => head candidates
      end
  end.

End Voices.

(** ** App.tsx: the component and its production run *)

Module App.

(** Segment objects are shared between the [segments] hook, the list a
    production run walks and the subtitle writer, and the run assigns to
    their fields; they live in a heap and are passed by reference. *)
Abbreviation Ref := nat (only parsing).
Abbreviation Heap := (list PodcastSegment.t) (only parsing).

Section Component.
Context {AE : AudioEngine}.

(** [URL.createObjectURL(blob)]: an object URL stands for the blob it was
    created from; the subtitle blob is the text it wraps. *)
Inductive ObjectURL : Type :=
  | AudioURL (blob : Blob)
  | TextURL (content : string).

Record ProductionHistory : Type := mkHistory {
  h_id : string;
  h_topic : string;
  h_timestamp : Z;
  h_script : string;
  h_audioUrl : option ObjectURL;
  h_coverArtUrl : option string;
  h_srtContent : option string;
  h_modelUsed : option string;
  h_tokensUsed : option nat
}.


(** The hooks of the component that the pipeline reads or sets (playback
    and preview state are left to the player). *)
Record Hooks : Type := mkHooks {
  state : AppState.t;
  script : string;
  topic : string;
  segments : list Ref;
  fullAudioUrl : option ObjectURL;
  srtUrl : option ObjectURL;
  coverArtUrl : option string;
  progress : Progress.t;
  logs : list LogEntry.t;
  history : list ProductionHistory;
  audioContextRef : option AudioContext
}.

(** Everything a handler runs against.  [reports] is the sequence of
    values passed to [setProgress], oldest first (the hook itself keeps
    only the last one). *)
Record Machine : Type := mkMachine {
  world : World Env;
  heap : Heap;
  hooks : Hooks;
  reports : list Progress.t
}.

Definition M (A : Type) : Type := Machine -> Completion A * Machine.

Definition ret {A} (v : A) : M A := fun m => (Normal v, m).
Definition throw {A} (e : Thrown) : M A := fun m => (Throw e, m).
Definition bind {A B} (c : M A) (k : A -> M B) : M B :=
  fun m =>
    match c m with
    | (Normal v, m1) => k v m1
    | (Throw e, m1) => (Throw e, m1)
    end.

(** [try { body } catch (err) { handler } finally { finalizer }] *)
Definition tryCatchFinally {A} (body : M A) (handler : Thrown -> M A) (finalizer : M unit) : M A :=
  fun m =>
    let '(completion, m2) :=
      match body m with
      | (Normal v, m1) => (Normal v, m1)
      | (Throw err, m1) => handler err m1
      end in
    match finalizer m2 with
    | (Normal _, m3) => (completion, m3)
    | (Throw e, m3) => (Throw e, m3)
    end.

End Component.
End App.

Declare Scope machine_scope.
Delimit Scope machine_scope with M.
Notation "x <- c ;; k" := (App.bind c (fun x => k))
  (at level 100, c at next level, right associativity) : machine_scope.
Notation "c ;;; k" := (App.bind c (fun _ => k))
  (at level 100, right associativity) : machine_scope.

Module Studio.
Import App.
Section Component.
Context {AE : AudioEngine}.
Local Open Scope machine_scope.

(** *** Access to the machine *)

Definition withHooks (f : Hooks -> Hooks) : M unit :=
  fun m => (Normal tt,
            {| world := world m; heap := heap m; hooks := f (hooks m); reports := reports m |}).

(** An awaited operation of the audio engine or the browser. *)
Definition await {A} (op : Env -> Completion A * Env) : M A :=
  fun m =>
    let '(completion, env1) := op (env (world m)) in
    (completion,
     {| world := {| env := env1; timers := timers (world m) |};
        heap := heap m; hooks := hooks m; reports := reports m |}).

(** An awaited call of the Gemini service. *)
Definition awaitService {A} (op : Async Env A) : M A :=
  fun m =>
    let '(completion, w1) := op (world m) in
    (completion, {| world := w1; heap := heap m; hooks := hooks m; reports := reports m |}).

Definition setState (f : AppState.t -> AppState.t) : M unit :=
  withHooks (fun h =>
    mkHooks (f (state h)) (script h) (topic h) (segments h) (fullAudioUrl h) (srtUrl h)
            (coverArtUrl h) (progress h) (logs h) (history h) (audioContextRef h)).

Definition setSegments (refs : list Ref) : M unit :=
  withHooks (fun h =>
    mkHooks (state h) (script h) (topic h) refs (fullAudioUrl h) (srtUrl h)
            (coverArtUrl h) (progress h) (logs h) (history h) (audioContextRef h)).

Definition setFullAudioUrl (url : option ObjectURL) : M unit :=
  withHooks (fun h =>
    mkHooks (state h) (script h) (topic h) (segments h) url (srtUrl h)
            (coverArtUrl h) (progress h) (logs h) (history h) (audioContextRef h)).

Definition setSrtUrl (url : option ObjectURL) : M unit :=
  withHooks (fun h =>
    mkHooks (state h) (script h) (topic h) (segments h) (fullAudioUrl h) url
            (coverArtUrl h) (progress h) (logs h) (history h) (audioContextRef h)).

Definition setLogs (f : list LogEntry.t -> list LogEntry.t) : M unit :=
  withHooks (fun h =>
    mkHooks (state h) (script h) (topic h) (segments h) (fullAudioUrl h) (srtUrl h)
            (coverArtUrl h) (progress h) (f (logs h)) (history h) (audioContextRef h)).

Definition setHistory (f : list ProductionHistory -> list ProductionHistory) : M unit :=
  withHooks (fun h =>
    mkHooks (state h) (script h) (topic h) (segments h) (fullAudioUrl h) (srtUrl h)
            (coverArtUrl h) (progress h) (logs h) (f (history h)) (audioContextRef h)).

Definition setProgress (p : Progress.t) : M unit :=
  fun m =>
    let h := hooks m in
    (Normal tt,
     {| world := world m; heap := heap m;
        hooks := mkHooks (state h) (script h) (topic h) (segments h) (fullAudioUrl h)
                   (srtUrl h) (coverArtUrl h) p (logs h) (history h) (audioContextRef h);
        reports := reports m ++ [p] |}).

(** [addLog(level, message)]:
    [setLogs(prev => [{ timestamp: Date.now(), level, message }, ...prev].slice(0, 100))] *)
Definition addLog (level : LogEntry.Level) (message : string) : M unit :=
  fun m =>
    setLogs (fun prev =>
      take 100 (LogEntry.mk (Date_now (env (world m))) level message :: prev)) m.

(** A fresh object literal. *)
Definition alloc (seg : PodcastSegment.t) : M Ref :=
  fun m =>
    (Normal (length (heap m)),
     {| world := world m; heap := heap m ++ [seg]; hooks := hooks m; reports := reports m |}).

(** Reading through an element of a segment array; an element that is not
    an object makes the property access throw. *)
Definition deref (ref : Ref) : M PodcastSegment.t :=
  fun m =>
    match heap m !! ref with
    | Some seg => (Normal seg, m)
    | None => (Throw (JS.Error "Cannot read properties of undefined (reading 'speaker')"), m)
    end.

(** Assignment to fields of the object behind [ref]. *)
Definition assign (ref : Ref) (f : PodcastSegment.t -> PodcastSegment.t) : M unit :=
  fun m =>
    (Normal tt,
     {| world := world m;
        heap := match heap m !! ref with
                | Some seg => <[ref := f seg]> (heap m)
                | None => heap m
                end;
        hooks := hooks m; reports := reports m |}).

(** *** The effect that derives [segments] from [script] (lines 141-157) *)

(** [l.match(re)] for the pattern of line 145, which reads: start of
    input, one or more characters other than a colon (group 1), a colon,
    any characters other than line terminators (group 2), end of input.
    Group 1 is the text before the first colon, which must not be empty;
    group 2 is the remainder, which must be free of line terminators:
    the dot refuses LF, CR, U+2028 and U+2029, of which LF and CR are
    code units below 256. *)
Fixpoint splitAtColon (l : string) : option (string * string) :=
  match l with
  | EmptyString => None
  | String c rest =>
      if Ascii.eqb c ":"%char then Some (EmptyString, rest)
      else match splitAtColon rest with
           | Some (before, after) => Some (String c before, after)
           | None => None
           end
  end.

Definition matchLine (l : string) : option (string * string) :=
  match splitAtColon l with
  | Some (EmptyString, _) => None
  | Some (before, after) =>
      if (JS.hasChar JS.newline after || JS.hasChar JS.carriageReturn after)%bool
      then None else Some (before, after)
  | None => None
  end.

Definition parseLine (l : string) : string * string :=
  match matchLine l with
  | Some (before, after) => (JS.trim before, JS.trim after)
  | None => ("Narrator", JS.trim l)
  end.

(** [segments.find(s => s.text === text && s.speaker === speaker)] *)
Definition findExisting (h : Heap) (refs : list Ref) (speaker text : string) : option Ref :=
  List.find
    (fun ref =>
       match h !! ref with
       | Some seg => (String.eqb (PodcastSegment.text seg) text
                      && String.eqb (PodcastSegment.speaker seg) speaker)%bool
       | None => false
       end)
    refs.

(** [lines.map((l, i) => ... existing || { id, speaker, text, status: 'pending' })];
    [existing] is looked up in the [segments] of the render, [old]. *)
Fixpoint mapLines (old : list Ref) (i : nat) (lines : list string) : M (list Ref) :=
  match lines with
  | [] => ret []
  | l :: rest =>
      let '(speaker, text) := parseLine l in
      ref <- (fun m =>
                match findExisting (heap m) old speaker text with
                | Some existing => ret existing m
                | None =>
                    alloc (PodcastSegment.mk
                             ("seg-" +:+ JS.showNat i +:+ "-" +:+ JS.showZ (Date_now (env (world m))))
                             speaker text None PodcastSegment.pending None None) m
                end) ;;
      refs <- mapLines old (S i) rest ;;
      ret (ref :: refs)
  end.

Definition syncSegments : M unit :=
  fun m =>
    if AppState.isGenerating (state (hooks m)) then (Normal tt, m)
    else
      let lines :=
        List.filter (fun l => negb (Nat.eqb (String.length (JS.trim l)) 0))
          (JS.splitLines (script (hooks m))) in
      (parsed <- mapLines (segments (hooks m)) 0 lines ;; setSegments parsed) m.

(** [setScript(text)] followed by the effect it triggers.  The effect
    has the dependency list [[script]]: React compares the new value of
    the hook with the old one and runs the effect again only when the
    script has changed; setting the script to the value it has leaves
    the component as it is. *)
Definition editScript (text : string) : M unit :=
  fun m =>
    if (text =? script (hooks m))%string then ret tt m
    else
      (withHooks (fun h =>
         mkHooks (state h) text (topic h) (segments h) (fullAudioUrl h) (srtUrl h)
                 (coverArtUrl h) (progress h) (logs h) (history h) (audioContextRef h)) ;;;
       syncSegments) m.

(** *** handlePodcastProduction (lines 304-399) *)

(** The two locals the loop updates: [audioBuffers] and [currentTotalTime]. *)
Record Acc : Type := mkAcc {
  audioBuffers : list AudioBuffer;
  currentTotalTime : float
}.

(** Lines 346-352: the buffer of one segment. *)
Definition synthesize (voice : VoiceProfile.t) (text : string) (ctx : AudioContext)
    : M AudioBuffer :=
  match VoiceProfile.engine voice with
  | BROWSER => await (generateBrowserSpeech text (VoiceProfile.voiceName voice) ctx)
  | GEMINI =>
      base64 <- awaitService
                  (GeminiService.generateSpeech generateContent text
                     (VoiceProfile.voiceName voice)) ;;
      await (decodeGeminiAudio base64 ctx)
  end.

(** [Math.round((i / allSegments.length) * 90)] *)
Definition synthesisProgress (i total : nat) : float :=
  JS.Math_round (PrimFloat.mul (PrimFloat.div (JS.num i) (JS.num total)) 90%float).

(** The body of the [for] loop at index [i] (lines 330-357); of the
    [state] the handler closed over it reads [speakerVoiceMap]. *)
Definition iteration (speakerVoiceMap : gmap string string) (provider : Provider.t)
    (ctx : AudioContext) (total i : nat) (ref : Ref) (acc : Acc) : M Acc :=
  seg <- deref ref ;;
  setProgress
    (Progress.mk (synthesisProgress i total)
       ("Synthesizing: " +:+ PodcastSegment.speaker seg)
       ("Mastering Phase [" +:+ JS.showNat (i + 1) +:+ "/" +:+ JS.showNat total +:+ "]")) ;;;
  voice <- match Voices.resolveVoice Constants.VOICES provider
                   speakerVoiceMap (PodcastSegment.speaker seg) with
           | Some v => ret v
           | None => throw (JS.Error "Cannot read properties of undefined (reading 'engine')")
           end ;;
  buffer <- synthesize voice (PodcastSegment.text seg) ctx ;;
  assign ref (fun s => PodcastSegment.timed s (currentTotalTime acc) (buffer_duration buffer)) ;;;
  ret {| audioBuffers := audioBuffers acc ++ [buffer];
         currentTotalTime := PrimFloat.add (currentTotalTime acc) (buffer_duration buffer) |}.

(** [for (let i = ...; i < allSegments.length; i++)], from index [i] on. *)
Fixpoint loop (speakerVoiceMap : gmap string string) (provider : Provider.t)
    (ctx : AudioContext) (total i : nat) (refs : list Ref) (acc : Acc) : M Acc :=
  match refs with
  | [] => ret acc
  | ref :: rest =>
      acc' <- iteration speakerVoiceMap provider ctx total i ref acc ;;
      loop speakerVoiceMap provider ctx total (S i) rest acc'
  end.

(** Lines 362-365. *)
Definition appendWatermark (tier : UserTier) (ctx : AudioContext)
    (buffers : list AudioBuffer) : M (list AudioBuffer) :=
  match tier with
  | FREE =>
      watermark <- await (createWatermarkBuffer ctx) ;;
      ret (buffers ++ [watermark])
  | _ => ret buffers
  end.

(** Lines 368-370. *)
Definition encode (format : ExportFormat) (fullBuffer : AudioBuffer) : Blob :=
  match format with
  | MP3 | OGG => audioBufferToMp3 fullBuffer
  | WAV => audioBufferToWav fullBuffer
  end.

(** The objects an array of references stands for. *)
Definition objects (h : Heap) (refs : list Ref) : list PodcastSegment.t :=
  omap (fun ref => h !! ref) refs.

(** The [try] block, in the three phases it runs through; [h] holds the
    values the handler closed over. *)

(** Lines 323-327: [allSegments]. *)
Definition introduce (h : Hooks) : M (list Ref) :=
  let st := state h in
  intro <- alloc (PodcastSegment.mk "intro" "System" (AppState.introText st)
                    None PodcastSegment.pending None None) ;;
  outro <- alloc (PodcastSegment.mk "outro" "System" (AppState.outroText st)
                    None PodcastSegment.pending None None) ;;
  ret (intro :: segments h ++ [outro]).

Definition emptyAcc : Acc := {| audioBuffers := []; currentTotalTime := 0%float |}.

(** Lines 323-358: the segment list and the synthesis loop over it. *)
Definition synthesizeAll (h : Hooks) (model : ModelConfig.t) (ctx : AudioContext)
    : M (list Ref * Acc) :=
  allSegments <- introduce h ;;
  acc <- loop (AppState.speakerVoiceMap (state h)) (ModelConfig.provider model) ctx
           (length allSegments) 0 allSegments emptyAcc ;;
  ret (allSegments, acc).

(** Lines 367-392: assembly, encoding, subtitles and publication. *)
Definition deliver (h : Hooks) (model : ModelConfig.t) (ctx : AudioContext)
    (allSegments : list Ref) (buffers : list AudioBuffer) : M unit :=
  let fullBuffer := concatenateAudioBuffers buffers ctx in
  let finalBlob := encode (AppState.exportFormat (state h)) fullBuffer in
  srtContent <- (fun m => ret (generateSRT (objects (heap m) allSegments)) m) ;;
  let url := AudioURL finalBlob in
  setFullAudioUrl (Some url) ;;;
  setSrtUrl (Some (TextURL srtContent)) ;;;
  setProgress (Progress.mk 100%float "Broadcast Ready!" "Complete") ;;;
  addLog LogEntry.info "Master tape generated successfully." ;;;
  uuid <- await (fun e => let '(u, e1) := crypto_randomUUID e in (Normal u, e1)) ;;
  now <- (fun m => ret (Date_now (env (world m))) m) ;;
  setHistory (fun prev =>
    take 20
      ({| h_id := uuid;
          h_topic := if String.eqb (topic h) "" then "Untitled Episode" else topic h;
          h_timestamp := now;
          h_script := script h;
          h_audioUrl := Some url;
          h_coverArtUrl := match coverArtUrl h with
                           | Some (String c rest) => Some (String c rest)
                           | _ => None
                           end;
          h_srtContent := Some srtContent;
          h_modelUsed := Some (ModelConfig.name model);
          h_tokensUsed := Some (Nat.div (String.length (script h) + 3) 4) |} :: prev)).

Definition produce (h : Hooks) (model : ModelConfig.t) (ctx : AudioContext) : M unit :=
  run <- synthesizeAll h model ctx ;;
  setProgress (Progress.mk 95%float "Mastering Final Mix..." "Post-Production") ;;;
  buffers <- appendWatermark (AppState.tier (state h)) ctx (audioBuffers (snd run)) ;;
  deliver h model ctx (fst run) buffers.

(** The [catch] block. *)
Definition pipelineError : Progress.t := Progress.mk 0%float "Pipeline Error" "Failure".

Definition productionFailed (err : Thrown) : M unit :=
  addLog LogEntry.error ("Production failed: " +:+ JS.showMessage err) ;;;
  setProgress pipelineError.

(** Lines 309-316, up to the [try]: yields the model of the routing
    decision taken for the whole run. *)
Definition preamble (st : AppState.t) (ctx : AudioContext) : M ModelConfig.t :=
  await (ensureAudioContext ctx) ;;;
  setState (AppState.set_isGenerating true) ;;;
  setFullAudioUrl None ;;;
  setSrtUrl None ;;;
  ttsDecision <- (fun m =>
                    (ModelRouter.selectModel
                       (ModelRouter.mkTask "audio_synthesis" (AppState.quality st) None)
                       (AppState.apiKeys st), m)) ;;
  model <- match ModelRouter.model ttsDecision with
           | Some mc => ret mc
           | None => throw (JS.Error "Cannot read properties of undefined (reading 'name')")
           end ;;
  addLog LogEntry.info
    ("Production pipeline online: " +:+ ModelConfig.name model +:+ ".") ;;;
  ret model.

(** The run proper, once the guards of lines 305-307 have passed. *)
Definition run (h : Hooks) (ctx : AudioContext) : M unit :=
  model <- preamble (state h) ctx ;;
  tryCatchFinally
    (produce h model ctx)
    productionFailed
    (setState (AppState.set_isGenerating false)).

(** [const handlePodcastProduction = async () => { ... }].  The two
    [setTimeout] resets of the progress bar and [stopCurrentPlayback]
    concern the player and the display only and are left out. *)
Definition handlePodcastProduction : M unit :=
  fun m =>
    let h := hooks m in
    if (AppState.isGenerating (state h) || Nat.eqb (length (segments h)) 0)%bool
    then ret tt m
    else
      match audioContextRef h with
      | None => ret tt m
      | Some ctx => run h ctx m
      end.

End Component.
End Studio.

(** ** Vocabulary for stating the properties *)

Module RetrySpec.

(** The retryable class as the specification words it: the message or the
    serialized form contains a rate-limit marker, the markers being the
    HTTP status 429 and the resource-exhaustion code. *)
Definition containsMarker (s : string) : bool :=
  JS.includes s "429" || JS.includes s "RESOURCE_EXHAUSTED".

Definition hasRateLimitMarker (e : Thrown) : bool :=
  match JS.message e with
  | Some m => containsMarker m
  | None => false
  end
  || match JS.stringify e with
     | JsonText errorStr => containsMarker errorStr
     | _ => false
     end.

(** The three classes into which line 22-23 sorts a failure, read off
    its message and its serialization.  Rate-limited: the serialization
    is text, and the message holds 429 or the text holds a marker; or
    there is no serialization and the message holds 429.  Terminal: the
    serialization is text and neither is the case.  Untestable: the
    serialization throws, or there is none while the message holds no
    429, and the test throws the [TypeError] named. *)
Definition messageHas429 (e : Thrown) : bool :=
  match JS.message e with
  | Some m => JS.includes m "429"
  | None => false
  end.

Definition rateLimited (e : Thrown) : Prop :=
  (exists errorStr, JS.stringify e = JsonText errorStr
                    /\ (messageHas429 e || containsMarker errorStr)%bool = true)
  \/ (JS.stringify e = JsonUndefined /\ messageHas429 e = true).

Definition terminal (e : Thrown) : Prop :=
  exists errorStr, JS.stringify e = JsonText errorStr
                   /\ (messageHas429 e || containsMarker errorStr)%bool = false.

Definition untestable (e typeError : Thrown) : Prop :=
  (JS.stringify e = JsonThrows /\ typeError = JS.TypeError_circular)
  \/ (JS.stringify e = JsonUndefined /\ messageHas429 e = false
      /\ typeError = JS.TypeError_undefined_includes).

(** The delays of [n] consecutive retries that start at [delay]. *)
Fixpoint backoff (delay : Z) (n : nat) : list Z :=
  match n with
  | O => []
  | S n' => delay :: backoff (delay * 2) n'
  end.

(** A provider call whose successive outcomes are scripted: the
    environment is the queue of outcomes still to come, each invocation
    consumes one.  Once the script is over the call keeps failing with
    [exhausted]. *)
Definition exhausted : Thrown := JS.Error "script exhausted".

Definition scripted {T} : Async (list (Completion T)) T :=
  fun w =>
    match env w with
    | [] => (Throw exhausted, w)
    | outcome :: rest => (outcome, {| env := rest; timers := timers w |})
    end.

(** Sample failures. *)
Definition quota429 : Thrown :=
  {| JS.message := Some "got status: 429 Too Many Requests";
     JS.stringify := JsonText "{}" |}.
Definition dq : string := String (ascii_of_nat 34) EmptyString.
Definition quotaStatusObject : Thrown :=
  {| JS.message := None;
     JS.stringify :=
       JsonText ("{" +:+ dq +:+ "status" +:+ dq +:+ ":"
                 +:+ dq +:+ "RESOURCE_EXHAUSTED" +:+ dq +:+ "}") |}.
Definition quotaMessageOnly : Thrown :=
  JS.Error "8 RESOURCE_EXHAUSTED: quota exceeded".
Definition badRequest : Thrown := JS.Error "400 Bad Request".

End RetrySpec.

Module RouterSpec.

Definition noKeys : UserApiKeys.t := UserApiKeys.mk None None None.
Definition paidKeys : UserApiKeys.t := UserApiKeys.mk (Some "sk-live-1") None None.
Definition emptyKey : UserApiKeys.t := UserApiKeys.mk (Some "") (Some "sk-openai") None.

Definition scriptTask (quality : string) (requiresReasoning : option bool) : ModelRouter.Task :=
  ModelRouter.mkTask "script_generation" quality requiresReasoning.

(** The three task kinds of the router. *)
Definition definedKind (type : string) : Prop :=
  type = "script_generation" \/ type = "image_generation" \/ type = "audio_synthesis".

End RouterSpec.

(** ** A bench engine and sample sessions

    An instance of the engine interface on which the handlers can be run:
    a buffer is the list of the texts spoken in it and lasts one second per
    character; the encoders tag the buffer with their container; browser
    speech fails once its budget of calls is used up; the speech endpoint
    follows a script of outcomes and then echoes the text as payload. *)

Module Bench.

Record BenchEnv : Type := mkEnv {
  speechBudget : option nat;
  ttsScript : list (Completion (option string));
  clock : Z;
  nextId : nat
}.

Definition benchDuration (buffer : list string) : float :=
  JS.num (list_sum (map String.length buffer)).

Definition benchSpeech (text voiceName : string) (ctx : unit) (e : BenchEnv)
    : Completion (list string) * BenchEnv :=
  match speechBudget e with
  | Some O => (Throw (JS.Error "synthesis-failed"), e)
  | Some (S n) => (Normal [text], mkEnv (Some n) (ttsScript e) (clock e) (nextId e))
  | None => (Normal [text], e)
  end.

Definition benchTts (text voiceName : string) (e : BenchEnv)
    : Completion (option string) * BenchEnv :=
  match ttsScript e with
  | [] => (Normal (Some text), e)
  | outcome :: rest => (outcome, mkEnv (speechBudget e) rest (clock e) (nextId e))
  end.

Definition benchSRT (segs : list PodcastSegment.t) : string :=
  String.concat "|" (map PodcastSegment.id segs).

#[global] Instance engine : AudioEngine := {|
  Env := BenchEnv;
  AudioContext := unit;
  AudioBuffer := list string;
  Blob := string * list string;
  buffer_duration := benchDuration;
  ensureAudioContext := fun _ e => (Normal tt, e);
  generateBrowserSpeech := benchSpeech;
  decodeGeminiAudio := fun base64 _ e => (Normal [base64], e);
  createWatermarkBuffer := fun _ e => (Normal ["(watermark)"], e);
  concatenateAudioBuffers := fun buffers _ => concat buffers;
  audioBufferToWav := fun b => ("wav", b);
  audioBufferToMp3 := fun b => ("mp3", b);
  generateSRT := benchSRT;
  generateContent := benchTts;
  Date_now := clock;
  crypto_randomUUID := fun e =>
    ("uuid-" +:+ JS.showNat (nextId e),
     mkEnv (speechBudget e) (ttsScript e) (clock e) (S (nextId e)))
|}.

(** The initial [AppState] of the component (lines 22-35), at a given
    tier, quality and export format. *)
Definition appState (tier : UserTier) (quality : string) (format : ExportFormat) : AppState.t :=
  AppState.mk tier quality format (UserApiKeys.mk None None None) false
    "Welcome to Podcast Studio AI." "Stay curious, and thanks for listening!"
    (<["Host" := "pro-1"]> (<["Guest" := "pro-2"]> ∅)).

Definition reliable : BenchEnv := mkEnv None [] 1700000000000 0.

(** The component right after mounting, before the first effect ran. *)
Definition mounted (st : AppState.t) (e : BenchEnv) : App.Machine :=
  App.mkMachine (mkWorld e []) []
    (App.mkHooks st "" "" [] None None None (Progress.mk 0%float "" "") [] [] (Some tt))
    [].

(** Runs a handler for its effect on the machine. *)
Definition after (handler : App.M unit) (m : App.Machine) : App.Machine := snd (handler m).

Definition nl : string := String JS.newline EmptyString.

(** The default script of [constants.ts]. *)
Definition DEFAULT_SCRIPT : string :=
  "Host: Welcome to AI Horizons. I'm Alex." +:+ nl +:+
  "Guest: And I'm Jordan. Today we explore the edge of technology." +:+ nl +:+
  "Host: Let's get started.".

(** A session with the default script, ready for production. *)
Definition defaultSession (st : AppState.t) (e : BenchEnv) : App.Machine :=
  after (Studio.editScript DEFAULT_SCRIPT) (mounted st e).

(** A session in which the same line occurs twice: the script is typed,
    then a fourth line is added. *)
Definition echoScript : string :=
  "Host: Yes." +:+ nl +:+ "Guest: No." +:+ nl +:+ "Host: Yes.".

Definition echoSession (st : AppState.t) (e : BenchEnv) : App.Machine :=
  after (Studio.editScript (echoScript +:+ nl +:+ "Guest: Bye."))
    (after (Studio.editScript echoScript) (mounted st e)).

(** The default session produced on a paid tier, and the session with the
    repeated line produced to WAV. *)
Definition defaultReady : App.Machine :=
  defaultSession (appState PRO "balanced" MP3) reliable.
Definition defaultRun : App.Machine := after Studio.handlePodcastProduction defaultReady.

Definition echoReady : App.Machine := echoSession (appState PRO "balanced" WAV) reliable.
Definition echoRun : App.Machine := after Studio.handlePodcastProduction echoReady.

(** The machine of a session once the preamble of a run is through. *)
Definition started (m : App.Machine) : App.Machine :=
  snd (Studio.preamble (App.state (App.hooks m)) tt m).

Definition edgeNeural : ModelConfig.t :=
  ModelConfig.mk "edge-neural-voices" Provider.openai "Microsoft Edge Neural (Free)"
    [cap_audio] None (Some 0%float) 1000 true auth_none.

End Bench.

(** ** Vocabulary for the pipeline properties *)

Module PipelineSpec.
Import App.
Section Component.
Context {AE : AudioEngine}.

(** Every hook but [progress]. *)
Definition besidesProgress (h : Hooks) :=
  (state h, script h, topic h, segments h, fullAudioUrl h, srtUrl h,
   coverArtUrl h, logs h, history h, audioContextRef h).

(** A computation is [stable] for a relation between the machine before
    and the machine after when every execution of it, whether it returns
    or throws, is in the relation. *)
Definition stable {A} (R : Machine -> Machine -> Prop) (c : M A) : Prop :=
  forall m, R m (snd (c m)).

(** Leaves every hook but [progress] as it was. *)
Definition keepsHooks (m m' : Machine) : Prop :=
  besidesProgress (hooks m') = besidesProgress (hooks m).

(** Touches nothing but the outside world. *)
Definition onlyWorld (m m' : Machine) : Prop :=
  heap m' = heap m /\ hooks m' = hooks m /\ reports m' = reports m.

(** Running [c] after the change [g] of the machine is running [c] and
    changing the machine afterwards: [c] neither reads nor writes what
    [g] changes. *)
Definition commutes {A} (g : Machine -> Machine) (c : M A) : Prop :=
  forall m, c (g m) = (fst (c m), g (snd (c m))).

(** The report of loop iteration [i] for the segment of [speaker]. *)
Definition iterationReport (i total : nat) (speaker : string) : Progress.t :=
  Progress.mk (Studio.synthesisProgress i total)
    ("Synthesizing: " +:+ speaker)
    ("Mastering Phase [" +:+ JS.showNat (i + 1) +:+ "/" +:+ JS.showNat total +:+ "]").

(** The two reports that follow the loop. *)
Definition finalMix : Progress.t :=
  Progress.mk 95%float "Mastering Final Mix..." "Post-Production".
Definition broadcastReady : Progress.t := Progress.mk 100%float "Broadcast Ready!" "Complete".

(** The entry [addLog] puts in front of the log. *)
Definition logged (level : LogEntry.Level) (message : string) (m : Machine) : LogEntry.t :=
  LogEntry.mk (Date_now (env (world m))) level message.

(** The sum of the first [k] durations, added up in list order from 0 as
    the loop does. *)
Definition elapsed (buffers : list AudioBuffer) (k : nat) : float :=
  fold_left PrimFloat.add (map buffer_duration (take k buffers)) 0%float.

(** The fraction [completedSegments / totalSegments] of the
    specification. *)
Definition fractionDone (completed total : nat) : float :=
  PrimFloat.div (JS.num completed) (JS.num total).

(** The machine with another export format, another tier. *)
Definition reformat (format : ExportFormat) (m : Machine) : Machine :=
  let h := hooks m in
  {| world := world m; heap := heap m;
     hooks := mkHooks (AppState.set_exportFormat format (state h)) (script h) (topic h)
                (segments h) (fullAudioUrl h) (srtUrl h) (coverArtUrl h) (progress h)
                (logs h) (history h) (audioContextRef h);
     reports := reports m |}.

Definition retier (tier : UserTier) (h : Hooks) : Hooks :=
  mkHooks (AppState.set_tier tier (state h)) (script h) (topic h)
    (segments h) (fullAudioUrl h) (srtUrl h) (coverArtUrl h) (progress h)
    (logs h) (history h) (audioContextRef h).

End Component.
End PipelineSpec.

(** ** Vocabulary for the further properties of Part III *)

Module BackoffSpec.

(** The time slept over a sequence of delays. *)
Definition totalDelay (delays : list Z) : Z := fold_right Z.add 0 delays.

(** An endpoint that answers once with the given payload. *)
Definition answering (data : option string) : list (Completion (option string)) :=
  [Normal data].

(** A failure whose serialization is [undefined] (a thrown function, or
    an object whose [toJSON] returns nothing) and one that cannot be
    serialized at all (a cyclic object). *)
Definition unserializable : Thrown :=
  {| JS.message := Some "socket hang up"; JS.stringify := JsonUndefined |}.
Definition cyclic : Thrown :=
  {| JS.message := Some "429 Too Many Requests"; JS.stringify := JsonThrows |}.

End BackoffSpec.

Module SyncSpec.

(** The lines of a script the effect keeps:
    [script.split('\n').filter(l => l.trim().length > 0)]. *)
Definition nonblankLines (script : string) : list string :=
  List.filter (fun l => negb (Nat.eqb (String.length (JS.trim l)) 0))
    (JS.splitLines script).

(** What a segment says and who says it. *)
Definition spoken (seg : PodcastSegment.t) : string * string :=
  (PodcastSegment.speaker seg, PodcastSegment.text seg).

(** The object behind [ref] is a segment for the line [l]. *)
Definition parsedAs (h : list PodcastSegment.t) (l : string) (ref : nat) : Prop :=
  exists seg, h !! ref = Some seg /\ spoken seg = Studio.parseLine l.

(** The segment of [refs] the effect reuses for the line [l], if any. *)
Definition reused (h : list PodcastSegment.t) (refs : list nat) (l : string) : option nat :=
  Studio.findExisting h refs (fst (Studio.parseLine l)) (snd (Studio.parseLine l)).

Definition cr : string := String JS.carriageReturn EmptyString.

(** The no-break space U+00A0. *)
Definition nbsp : string := String (ascii_of_nat 160) EmptyString.

(** [setScript(text)] alone: the machine between the edit and the effect. *)
Definition typed (text : string) (m : App.Machine) : App.Machine :=
  let h := App.hooks m in
  {| App.world := App.world m; App.heap := App.heap m;
     App.hooks := App.mkHooks (App.state h) text (App.topic h) (App.segments h)
                    (App.fullAudioUrl h) (App.srtUrl h) (App.coverArtUrl h)
                    (App.progress h) (App.logs h) (App.history h) (App.audioContextRef h);
     App.reports := App.reports m |}.

(** The bench session in which "Host: Yes." was typed twice, at the moment
    a fourth line has been added and the effect is about to run. *)
Definition echoEdited : App.Machine :=
  typed (Bench.echoScript +:+ Bench.nl +:+ "Guest: Bye.")
    (Bench.after (Studio.editScript Bench.echoScript)
       (Bench.mounted (Bench.appState PRO "balanced" WAV) Bench.reliable)).

End SyncSpec.

Module RunSpec.
Import App.
Section Component.
Context {AE : AudioEngine}.

(** The log holds at most 100 entries and the history at most 20, if
    they did before. *)
Definition capped (m m' : Machine) : Prop :=
  ((length (logs (hooks m)) <= 100)%nat -> (length (logs (hooks m')) <= 100)%nat)
  /\ ((length (history (hooks m)) <= 20)%nat -> (length (history (hooks m')) <= 20)%nat).

(** The segments of the hook are objects of the heap. *)
Definition segmentsAlive (m : Machine) : Prop :=
  Forall (fun ref => ref < length (heap m))%nat (segments (hooks m)).

(** An engine state from which the browser side of the engine works:
    the audio context resumes, speech is synthesized, the watermark is
    rendered, and the state reached is again such a state. *)
Definition browserWorks (Good : Env -> Prop) : Prop :=
  (forall ctx e, Good e ->
     exists e', ensureAudioContext ctx e = (Normal tt, e') /\ Good e')
  /\ (forall text voiceName ctx e, Good e ->
        exists buffer e', generateBrowserSpeech text voiceName ctx e = (Normal buffer, e')
                          /\ Good e')
  /\ (forall ctx e, Good e ->
        exists buffer e', createWatermarkBuffer ctx e = (Normal buffer, e') /\ Good e').

End Component.

(** On the bench: the speech budget is unlimited. *)
Definition benchGood (e : Bench.BenchEnv) : Prop := Bench.speechBudget e = None.

End RunSpec.

(** ** App.tsx: synthesis of a single segment (lines 203-237) *)

Module Single.
Import App.
Section Component.
Context {AE : AudioEngine}.
Local Open Scope machine_scope.

(** [URL.createObjectURL(blob)] as the segment cards use it: the browser
    hands out a URL string for the blob. *)
Variable createObjectURL : Blob -> Env -> string * Env.

(** [{ ...s, status }] *)
Definition with_status (status : PodcastSegment.Status) (s : PodcastSegment.t)
    : PodcastSegment.t :=
  PodcastSegment.mk (PodcastSegment.id s) (PodcastSegment.speaker s) (PodcastSegment.text s)
    (PodcastSegment.audioUrl s) status (PodcastSegment.duration s)
    (PodcastSegment.startTime s).

(** [{ ...s, status: 'completed', audioUrl, duration }] *)
Definition finished (audioUrl : string) (duration : float) (s : PodcastSegment.t)
    : PodcastSegment.t :=
  PodcastSegment.mk (PodcastSegment.id s) (PodcastSegment.speaker s) (PodcastSegment.text s)
    (Some audioUrl) PodcastSegment.completed (Some duration) (PodcastSegment.startTime s).

(** [prev.map(s => s.id === id ? { ...s, fields } : s)]: an element with
    the id is replaced by a fresh object, the others are passed on as
    they are. *)
Fixpoint mapMatching (id : string) (update : PodcastSegment.t -> PodcastSegment.t)
    (prev : list Ref) : M (list Ref) :=
  match prev with
  | [] => ret []
  | ref :: rest =>
      s <- Studio.deref ref ;;
      ref' <- (if String.eqb (PodcastSegment.id s) id then Studio.alloc (update s)
               else ret ref) ;;
      rest' <- mapMatching id update rest ;;
      ret (ref' :: rest')
  end.

(** [setSegments(prev => prev.map(...))] *)
Definition updateSegment (id : string) (update : PodcastSegment.t -> PodcastSegment.t)
    : M unit :=
  prev <- (fun m => ret (segments (hooks m)) m) ;;
  next <- mapMatching id update prev ;;
  Studio.setSegments next.

(** The [try] block (lines 212-232). *)
Definition attempt (st : AppState.t) (seg : PodcastSegment.t) (ctx : AudioContext) : M unit :=
  ttsDecision <- (fun m =>
                    (ModelRouter.selectModel
                       (ModelRouter.mkTask "audio_synthesis" (AppState.quality st) None)
                       (AppState.apiKeys st), m)) ;;
  model <- match ModelRouter.model ttsDecision with
           | Some mc => ret mc
           | None => throw (JS.Error "Cannot read properties of undefined (reading 'provider')")
           end ;;
  voice <- match Voices.resolveVoice Constants.VOICES (ModelConfig.provider model)
                   (AppState.speakerVoiceMap st) (PodcastSegment.speaker seg) with
           | Some v => ret v
           | None => throw (JS.Error "Cannot read properties of undefined (reading 'engine')")
           end ;;
  buffer <- Studio.synthesize voice (PodcastSegment.text seg) ctx ;;
  let wavBlob := audioBufferToWav buffer in
  audioUrl <- Studio.await (fun e => let '(url, e1) := createObjectURL wavBlob e in
                                     (Normal url, e1)) ;;
  updateSegment (PodcastSegment.id seg) (finished audioUrl (buffer_duration buffer)) ;;;
  Studio.addLog LogEntry.info
    ("Segment synthesis complete for " +:+ PodcastSegment.speaker seg +:+ ".").

(** The [catch] block (lines 233-236). *)
Definition synthesisFailed (seg : PodcastSegment.t) (err : Thrown) : M unit :=
  Studio.addLog LogEntry.error ("Segment synthesis failed: " +:+ JS.showMessage err) ;;;
  updateSegment (PodcastSegment.id seg) (with_status PodcastSegment.error).

(** [const synthesizeSegment = async (seg: PodcastSegment) => { ... }] *)
Definition synthesizeSegment (seg : PodcastSegment.t) : M unit :=
  fun m =>
    let st := state (hooks m) in
    match audioContextRef (hooks m) with
    | None => ret tt m
    | Some ctx =>
        if AppState.isGenerating st then ret tt m
        else
          (Studio.await (ensureAudioContext ctx) ;;;
           updateSegment (PodcastSegment.id seg) (with_status PodcastSegment.generating) ;;;
           Studio.addLog LogEntry.info
             ("Synthesizing segment for " +:+ PodcastSegment.speaker seg +:+ "...") ;;;
           tryCatchFinally (attempt st seg ctx) (synthesisFailed seg) (ret tt)) m
    end.

End Component.
End Single.

Module SingleSpec.
Import App.
Section Component.
Context {AE : AudioEngine}.

(** What the update of [Single.mapMatching] makes of one object. *)
Definition rewritten (id : string) (update : PodcastSegment.t -> PodcastSegment.t)
    (s : PodcastSegment.t) : PodcastSegment.t :=
  if String.eqb (PodcastSegment.id s) id then update s else s.

(** The machine with more objects on its heap. *)
Definition grow (m : Machine) (extra : list PodcastSegment.t) : Machine :=
  {| world := world m; heap := heap m ++ extra; hooks := hooks m; reports := reports m |}.

(** The machine once the audio context has resumed and left the engine
    in the state [e1]. *)
Definition resumed (e1 : Env) (m : Machine) : Machine :=
  {| world := {| env := e1; timers := timers (world m) |};
     heap := heap m; hooks := hooks m; reports := reports m |}.

(** The hooks a segment card leaves alone: all but [segments] and [logs]. *)
Definition besidesCards (h : Hooks) :=
  (state h, script h, topic h, fullAudioUrl h, srtUrl h, coverArtUrl h, progress h,
   history h, audioContextRef h).

(** One pass of [Single.mapMatching] from the references [refs] on the
    heap [h] to the references [refs'] on the heap [h']: objects are added
    to the heap and none is changed; a position whose object carries the
    id refers to a new object, the update of the old one, and every other
    position keeps its reference; two positions that share a reference
    afterwards share an old object. *)
Definition pass (id : string) (update : PodcastSegment.t -> PodcastSegment.t)
    (h : Heap) (refs : list Ref) (h' : Heap) (refs' : list Ref) : Prop :=
  (exists extra, h' = h ++ extra)
  /\ length refs' = length refs
  /\ (forall k ref, refs !! k = Some ref ->
         exists s ref', h !! ref = Some s
                        /\ refs' !! k = Some ref'
                        /\ if String.eqb (PodcastSegment.id s) id
                           then h' !! ref' = Some (update s)
                                /\ (length h <= ref')%nat
                           else ref' = ref)
  /\ (forall k k' a, k <> k' -> refs' !! k = Some a -> refs' !! k' = Some a ->
                     (a < length h)%nat).

(** A step that leaves the heap, the segment list, the reports and the
    hooks of [besidesCards] as they are. *)
Definition untouched (m m' : Machine) : Prop :=
  heap m' = heap m /\ segments (hooks m') = segments (hooks m)
  /\ besidesCards (hooks m') = besidesCards (hooks m) /\ reports m' = reports m.

(** A step that is a pass over the segment list and leaves the reports
    and the hooks of [besidesCards] as they are. *)
Definition rewrites (id : string) (update : PodcastSegment.t -> PodcastSegment.t)
    (m m' : Machine) : Prop :=
  pass id update (heap m) (segments (hooks m)) (heap m') (segments (hooks m'))
  /\ besidesCards (hooks m') = besidesCards (hooks m) /\ reports m' = reports m.

End Component.
End SingleSpec.

(** On the bench: object URLs are numbered, and the card of the first
    line of the default script is the one that is clicked. *)
Module SingleBench.

Definition createObjectURL (blob : string * list string) (e : Bench.BenchEnv)
    : string * Bench.BenchEnv :=
  ("blob:" +:+ JS.showNat (Bench.nextId e),
   Bench.mkEnv (Bench.speechBudget e) (Bench.ttsScript e) (Bench.clock e)
     (S (Bench.nextId e))).

Definition hostCard : PodcastSegment.t :=
  PodcastSegment.mk "seg-0-1700000000000" "Host" "Welcome to AI Horizons. I'm Alex."
    None PodcastSegment.pending None None.

End SingleBench.

(** ** URL encoding *)

(** The two encoders work on the UTF-8 encoding of a string: a code unit
    below 128 is one byte, a code unit from 128 to 255 the two bytes
    [0xC0 + n / 64] and [0x80 + n mod 64].  The strings of this
    development hold no surrogate, so that [encodeURIComponent] never
    throws on them. *)
Module URI.

Definition dquote : string := String (ascii_of_nat 34) EmptyString.

Definition between (lo hi : nat) (c : ascii) : bool :=
  (Nat.leb lo (nat_of_ascii c) && Nat.leb (nat_of_ascii c) hi)%bool.

Definition isAlphanumeric (c : ascii) : bool :=
  (between 48 57 c || between 65 90 c || between 97 122 c)%bool.

(** One hexadecimal digit, upper case. *)
Definition hexDigit (n : nat) : ascii :=
  if Nat.ltb n 10 then ascii_of_nat (48 + n) else ascii_of_nat (55 + n).

(** The percent escape of one byte. *)
Definition escapeByte (n : nat) : string :=
  String "%"%char
    (String (hexDigit (Nat.div n 16)) (String (hexDigit (Nat.modulo n 16)) EmptyString)).

(** The percent escapes of the UTF-8 encoding of one code unit. *)
Definition escape (c : ascii) : string :=
  let n := nat_of_ascii c in
  if Nat.ltb n 128 then escapeByte n
  else escapeByte (192 + Nat.div n 64) +:+ escapeByte (128 + Nat.modulo n 64).

(** The characters [encodeURIComponent] leaves alone: letters, digits and
    the marks of its unreserved set. *)
Definition unreserved (c : ascii) : bool :=
  (isAlphanumeric c || JS.hasChar c "-_.!~*'()")%bool.

Fixpoint encodeURIComponent (s : string) : string :=
  match s with
  | EmptyString => EmptyString
  | String c rest =>
      (if unreserved c then String c EmptyString else escape c) +:+ encodeURIComponent rest
  end.

(** The serializer of [URLSearchParams]: letters, digits and the marks
    of its own set are kept, a space becomes a plus sign, every other
    code unit is escaped. *)
Definition formByte (c : ascii) : string :=
  if (isAlphanumeric c || JS.hasChar c "*-._")%bool then String c EmptyString
  else if Ascii.eqb c " "%char then "+"
  else escape c.

Fixpoint formEncode (s : string) : string :=
  match s with
  | EmptyString => EmptyString
  | String c rest => formByte c +:+ formEncode rest
  end.

(** A character that [encodeURIComponent] can put out: an unreserved
    character, or the percent sign of an escape. *)
Definition pathSafe (c : ascii) : bool := (unreserved c || Ascii.eqb c "%"%char)%bool.

(** [forall c in s, p c] as a boolean. *)
Fixpoint all (p : ascii -> bool) (s : string) : bool :=
  match s with
  | EmptyString => true
  | String c rest => (p c && all p rest)%bool
  end.

End URI.

(** ** services/geminiService.ts: script drafting (lines 6-10, 35-61) *)

Module GeminiScripts.

(** [GeminiGenerationOptions]; the thinking budget is an integer. *)
Record GeminiGenerationOptions : Type := mkOptions {
  model : option string;
  useDeepThink : option bool;
  thinkingBudget : option Z
}.

(** The request passed to [ai.models.generateContent]: the model, the
    prompt and the thinking budget of [thinkingConfig] when there is one
    (temperature, topP and topK are the same in every request). *)
Record ScriptRequest : Type := mkRequest {
  r_model : string;
  r_contents : string;
  r_thinkingBudget : option Z
}.

(** The SDK call: it answers with [response.text], when there is one, or
    throws. *)
Definition ScriptEndpoint (Env : Type) : Type :=
  ScriptRequest -> Env -> Completion (option string) * Env.

Definition indent : string := "        ".
Definition nl : string := String JS.newline EmptyString.

(** The template literal of lines 43-49. *)
Definition scriptPrompt (topic : string) : string :=
  "Create a professional 2-person podcast script about: " +:+ URI.dquote +:+ topic
    +:+ URI.dquote +:+ ". " +:+ nl
  +:+ indent +:+ "The script should feature a Host and a Guest. " +:+ nl
  +:+ indent +:+ "Format as follows:" +:+ nl
  +:+ indent +:+ "Host: [dialogue]" +:+ nl
  +:+ indent +:+ "Guest: [dialogue]" +:+ nl
  +:+ indent +:+ nl
  +:+ indent +:+ "Ensure the tone is natural, intellectual, and approximately 1500-2000 words for a deep dive.".

Definition fallbackScript : string :=
  "Host: I encountered an issue generating the script context.".

(** [options.thinkingBudget || 15000] *)
Definition budgetOrDefault (budget : option Z) : Z :=
  match budget with
  | Some b => if (b =? 0)%Z then 15000 else b
  | None => 15000
  end.

Definition request (topic : string) (options : GeminiGenerationOptions) : ScriptRequest :=
  {| r_model := if JS.truthyString (model options) then default "" (model options)
                else "gemini-3-flash-preview";
     r_contents := scriptPrompt topic;
     r_thinkingBudget := if JS.truthyBool (useDeepThink options)
                         then Some (budgetOrDefault (thinkingBudget options))
                         else None |}.

(** [async generateScriptFromTopic(topic, options = {})] *)
Definition generateScriptFromTopic {Env} (generateContent : ScriptEndpoint Env)
    (topic : string) (options : GeminiGenerationOptions) : Async Env string :=
  GeminiService.withRetry
    (fun w =>
       match generateContent (request topic options) (env w) with
       | (Throw e, env1) => (Throw e, {| env := env1; timers := timers w |})
       | (Normal text, env1) =>
           (Normal (if JS.truthyString text then default "" text else fallbackScript),
            {| env := env1; timers := timers w |})
       end)
    GeminiService.default_retries GeminiService.default_delay.

End GeminiScripts.

(** ** The services behind script drafting *)

(** A response of [fetch]: [ok], [status], and what reading the body with
    [response.text()] gives. *)
Module Response.
Record t : Type := mk {
  ok : bool;
  status : Z;
  text : Completion string
}.
End Response.

Inductive ArtStyle : Type := MINIMALIST | CYBERPUNK | CINEMATIC | RETRO | VIBRANT.

(** An entry of the production metadata (orchestrator.ts, lines 67-74). *)
Module Metadata.
Record t : Type := mk {
  timestamp : Z;
  model : string;
  modelName : string;
  provider : Provider.t;
  cost : float;
  tokensUsed : nat
}.
End Metadata.

(** What the drafting code asks of the browser and the network: the
    Gemini SDK, [fetch], the seed [Math.floor(Math.random() * 100000)],
    [localStorage], [Date.now] and JSON.  A parsed JSON value is an
    array of values or something else. *)
Class Backend (Env : Type) : Type := {
  Json : Type;
  generateText : GeminiScripts.ScriptEndpoint Env;
  fetch : string -> list (string * string) -> Env -> Completion Response.t * Env;
  randomSeed : Env -> Z * Env;
  localStorage_getItem : string -> Env -> Completion (option string);
  localStorage_setItem : string -> string -> Env -> Completion unit * Env;
  JSON_parse : string -> Completion Json;
  asArray : Json -> option (list Json);
  JSON_stringify : list Json -> Completion string;
  metadataJson : Metadata.t -> Json;
  now : Env -> Z
}.

(** ** services/pollinationsService.ts *)

Module PollinationsService.
Section Service.
Context {Env : Type} {BE : Backend Env}.

Definition scriptPrompt (topic type : string) : string :=
  if (type =? "exchange")%string
  then "Create a natural 2-person podcast exchange about " +:+ URI.dquote +:+ topic
         +:+ URI.dquote +:+ ". Use 'Host:' and 'Guest:' markers. Make it conversational."
  else "Create a natural solo podcast presentation about " +:+ URI.dquote +:+ topic
         +:+ URI.dquote +:+ ". Use 'Host:' marker.".

(** [new URLSearchParams({ model, seed, json: 'false' }).toString()] *)
Definition scriptParams (model : string) (seed : Z) : string :=
  "model=" +:+ URI.formEncode model +:+ "&seed=" +:+ URI.formEncode (JS.showZ seed)
    +:+ "&json=" +:+ URI.formEncode "false".

Definition scriptUrl (topic model type : string) (seed : Z) : string :=
  "https://text.pollinations.ai/" +:+ URI.encodeURIComponent (scriptPrompt topic type)
    +:+ "?" +:+ scriptParams model seed.

(** Lines 17-21: the headers of the request. *)
Definition scriptHeaders (apiKey : option string) : list (string * string) :=
  match apiKey with
  | Some key =>
      if (JS.truthyString apiKey && negb (JS.trim key =? "")%string)%bool
      then [("Authorization", "Bearer " +:+ key)]
      else []
  | None => []
  end.

(** [async generateScript(topic, model, type, apiKey?)] *)
Definition generateScript (topic model type : string) (apiKey : option string)
    : Async Env string :=
  fun w =>
    let '(seed, e1) := randomSeed (env w) in
    let url := scriptUrl topic model type seed in
    let headers := scriptHeaders apiKey in
    match fetch url headers e1 with
    | (Throw e, e2) => (Throw e, {| env := e2; timers := timers w |})
    | (Normal response, e2) =>
        let w2 := {| env := e2; timers := timers w |} in
        if Response.ok response then (Response.text response, w2)
        else
          match Response.text response with
          | Throw e => (Throw e, w2)
          | Normal errorText =>
              (Throw (JS.Error ("Pollinations API failed: "
                                +:+ JS.showZ (Response.status response)
                                +:+ " " +:+ errorText)), w2)
          end
    end.

(** The [switch] of lines 37-54; a style that is missing falls to the
    default of the parameter. *)
Definition stylePrompt (style : option ArtStyle) : string :=
  match style with
  | Some CYBERPUNK =>
      "cyberpunk aesthetic, neon lights, futuristic digital art, sharp detail"
  | Some CINEMATIC =>
      "cinematic photography, dramatic lighting, high contrast, movie poster style"
  | Some RETRO =>
      "retro 80s synthwave style, vintage textures, analog grain, classic logo"
  | Some VIBRANT =>
      "abstract vibrant colors, organic shapes, modern graphic design, pop art"
  | Some MINIMALIST | None =>
      "professional minimalist podcast cover art, clean typography, whitespace, elegant design"
  end.

(** The URL for a given seed. *)
Definition coverArtUrl (topic model : string) (style : option ArtStyle) (seed : Z) : string :=
  let cleanTopic := URI.encodeURIComponent (String.substring 0 100 topic) in
  let prompt := "Professional podcast cover art for " +:+ cleanTopic +:+ ", "
                  +:+ stylePrompt style in
  "https://image.pollinations.ai/prompt/" +:+ URI.encodeURIComponent prompt
    +:+ "?model=" +:+ model +:+ "&seed=" +:+ JS.showZ seed
    +:+ "&width=1024&height=1024&nologo=true".

(** [getCoverArtUrl(topic, model, style = ArtStyle.MINIMALIST)] *)
Definition getCoverArtUrl (topic model : string) (style : option ArtStyle) (e : Env)
    : string * Env :=
  let '(seed, e1) := randomSeed e in
  (coverArtUrl topic model style seed, e1).

End Service.
End PollinationsService.

(** ** services/orchestrator.ts *)

Module ApiOrchestrator.
Section Service.
Context {Env : Type} {BE : Backend Env}.

Record OrchestrationResult : Type := mkResult {
  script : string;
  modelUsed : string;
  costEstimate : float;
  tokensUsed : nat
}.

(** [array.slice(-n)] *)
Definition lastN {A} (n : nat) (l : list A) : list A := drop (length l - n) l.

(** [private static recordProductionMetadata(decision, tokens)]: every
    failure inside is caught and only reported on the console. *)
Definition recordProductionMetadata (decision : ModelRouter.RoutingDecision) (tokens : nat)
    (e : Env) : Env :=
  match localStorage_getItem "studio-master-history" e with
  | Throw _ => e
  | Normal stored =>
      let historyStr := if JS.truthyString stored then default "" stored else "[]" in
      match JSON_parse historyStr with
      | Throw _ => e
      | Normal parsed =>
          match asArray parsed, ModelRouter.model decision with
          | Some history, Some mc =>
              let entry := {| Metadata.timestamp := now e;
                              Metadata.model := ModelRouter.modelId decision;
                              Metadata.modelName := ModelConfig.name mc;
                              Metadata.provider := ModelConfig.provider mc;
                              Metadata.cost := ModelRouter.estimatedCost decision;
                              Metadata.tokensUsed := tokens |} in
              match JSON_stringify (lastN 200 (history ++ [metadataJson entry])) with
              | Throw _ => e
              | Normal text => snd (localStorage_setItem "studio-master-history" text e)
              end
          | _, _ => e
          end
      end
  end.

Definition undefinedModel (property : string) : Thrown :=
  JS.Error ("Cannot read properties of undefined (reading '" +:+ property +:+ "')").

(** The [try] block of lines 30-45. *)
Definition draft (topic : string) (state : AppState.t) (scriptType : string)
    (decision : ModelRouter.RoutingDecision) : Async Env string :=
  match ModelRouter.model decision with
  | None => fun w => (Throw (undefinedModel "provider"), w)
  | Some mc =>
      if Provider.eqb (ModelConfig.provider mc) Provider.gemini
      then GeminiScripts.generateScriptFromTopic generateText topic
             {| GeminiScripts.model := Some (ModelRouter.modelId decision);
                GeminiScripts.useDeepThink := Some (AppState.quality state =? "premium")%string;
                GeminiScripts.thinkingBudget := Some 15000 |}
      else
        let modelAlias :=
          if (ModelRouter.modelId decision =? "pollinations-script-paid")%string
          then "openai" else "mistral" in
        PollinationsService.generateScript topic modelAlias scriptType
          (UserApiKeys.pollinationsKey (AppState.apiKeys state))
  end.

(** [static async generateScript(topic, state)]; [scriptType] stands for
    [state.scriptType], a field the pipeline does not read and the
    record [AppState.t] does not carry. *)
Definition generateScript (topic : string) (state : AppState.t) (scriptType : string)
    : Async Env OrchestrationResult :=
  fun w =>
    match ModelRouter.selectModel
            (ModelRouter.mkTask "script_generation" (AppState.quality state)
               (Some (Nat.ltb 60 (String.length topic))))
            (AppState.apiKeys state) with
    | Throw e => (Throw e, w)
    | Normal decision =>
        match draft topic state scriptType decision w with
        | (Throw e, w1) =>
            match ModelRouter.model decision with
            | None => (Throw (undefinedModel "name"), w1)
            | Some mc =>
                (Throw (JS.Error ("Orchestration failed via " +:+ ModelConfig.name mc
                                  +:+ ": " +:+ JS.showMessage e)), w1)
            end
        | (Normal scriptText, w1) =>
            let tokensUsed := Nat.div (String.length topic + String.length scriptText + 3) 4 in
            let w2 := {| env := recordProductionMetadata decision tokensUsed (env w1);
                         timers := timers w1 |} in
            match ModelRouter.model decision with
            | None => (Throw (undefinedModel "name"), w2)
            | Some mc =>
                (Normal {| script := scriptText;
                           modelUsed := ModelConfig.name mc;
                           costEstimate := ModelRouter.estimatedCost decision;
                           tokensUsed := tokensUsed |}, w2)
            end
        end
    end.

End Service.
End ApiOrchestrator.

(** ** Vocabulary for the drafting services *)

Module Wire.

(** A call that leaves the browser: a request to the Gemini SDK or a
    [fetch]. *)
Inductive Call : Type :=
  | Generate (request : GeminiScripts.ScriptRequest)
  | Fetch (url : string) (headers : list (string * string)).

(** A backend that behaves as [BE] does and keeps, beside the state of
    [BE], the list of the calls made so far, oldest first. *)
Definition recording {Env} (BE : Backend Env) : Backend (Env * list Call) :=
  {| Json := @Json Env BE;
     generateText := fun request st =>
       let '(completion, e1) := @generateText Env BE request (fst st) in
       (completion, (e1, snd st ++ [Generate request]));
     fetch := fun url headers st =>
       let '(completion, e1) := @fetch Env BE url headers (fst st) in
       (completion, (e1, snd st ++ [Fetch url headers]));
     randomSeed := fun st =>
       let '(seed, e1) := @randomSeed Env BE (fst st) in (seed, (e1, snd st));
     localStorage_getItem := fun key st => @localStorage_getItem Env BE key (fst st);
     localStorage_setItem := fun key value st =>
       let '(completion, e1) := @localStorage_setItem Env BE key value (fst st) in
       (completion, (e1, snd st));
     JSON_parse := @JSON_parse Env BE;
     asArray := @asArray Env BE;
     JSON_stringify := @JSON_stringify Env BE;
     metadataJson := @metadataJson Env BE;
     now := fun st => @now Env BE (fst st) |}.

(** The calls made so far. *)
Definition calls {Env} (w : World (Env * list Call)) : list Call := snd (env w).

(** The request [generateScript] of the orchestrator sends to Gemini. *)
Definition reasoningRequest (topic quality : string) : GeminiScripts.ScriptRequest :=
  {| GeminiScripts.r_model := "gemini-3-pro-preview";
     GeminiScripts.r_contents := GeminiScripts.scriptPrompt topic;
     GeminiScripts.r_thinkingBudget :=
       if (quality =? "premium")%string then Some 15000 else None |}.

(** A key that is there but blank: not empty, and nothing but white
    space. *)
Definition blankKey (key : string) : Prop := key <> "" /\ JS.trim key = "".

(** The names of the three models scripts are routed to. *)
Definition scriptModels : list string :=
  ["Gemini 3 Pro (Reasoning)"; "Pollinations (Paid - GPT-4o)"; "Pollinations (Free)"].

(** The two conditions the routing of a script turns on: the topic is
    longer than 60 characters or the quality is premium; the quality is
    balanced and there is a Pollinations key. *)
Definition viaGemini (topic quality : string) : bool :=
  ((quality =? "premium")%string || Nat.ltb 60 (String.length topic))%bool.

Definition paidRoute (quality : string) (key : option string) : bool :=
  ((quality =? "balanced")%string && JS.truthyString key)%bool.

Definition routedName (topic quality : string) (key : option string) : string :=
  if viaGemini topic quality then "Gemini 3 Pro (Reasoning)"
  else if paidRoute quality key then "Pollinations (Paid - GPT-4o)"
  else "Pollinations (Free)".

Definition routedCost (topic quality : string) (key : option string) : float :=
  if viaGemini topic quality then 0.005%float
  else if paidRoute quality key then 0.002%float
  else 0%float.

Definition routedModelId (topic quality : string) (key : option string) : string :=
  if viaGemini topic quality then "gemini-3-pro-preview"
  else if paidRoute quality key then "pollinations-script-paid"
  else "pollinations-script-free".

End Wire.

(** On the bench: the network follows a script of responses and then
    answers with a one-line script; stored metadata is a list of model
    ids, one per line. *)
Module DraftBench.

Record DraftEnv : Type := mkEnv {
  replies : list (Completion Response.t);
  answers : list (Completion (option string));
  seed : Z;
  stored : option string;
  clock : Z
}.

#[global] Instance backend : Backend DraftEnv := {|
  Json := list string;
  generateText := fun _ e =>
    match answers e with
    | [] => (Normal (Some "Host: Hello from Gemini."), e)
    | answer :: rest => (answer, mkEnv (replies e) rest (seed e) (stored e) (clock e))
    end;
  fetch := fun _ _ e =>
    match replies e with
    | [] => (Normal (Response.mk true 200 (Normal "Host: Hello from Pollinations.")), e)
    | reply :: rest => (reply, mkEnv rest (answers e) (seed e) (stored e) (clock e))
    end;
  randomSeed := fun e =>
    (seed e, mkEnv (replies e) (answers e) ((seed e + 1) mod 100000) (stored e) (clock e));
  localStorage_getItem := fun _ e => Normal (stored e);
  localStorage_setItem := fun _ value e =>
    (Normal tt, mkEnv (replies e) (answers e) (seed e) (Some value) (clock e));
  JSON_parse := fun text => Normal (if (text =? "[]")%string then [] else JS.splitLines text);
  asArray := fun l => Some (map (fun line => [line]) l);
  JSON_stringify := fun l => Normal (String.concat GeminiScripts.nl (map (String.concat "") l));
  metadataJson := fun entry => [Metadata.model entry];
  now := clock
|}.

Definition fresh : DraftEnv := mkEnv [] [] 4242 None 1700000000000.

(** A topic of 31 code units, each the letter e with acute accent
    (U+00E9). *)
Definition accented : string :=
  String.concat "" (repeat (String (ascii_of_nat 233) EmptyString) 31).

(** A browser whose metadata log holds 200 values already. *)
Definition full : DraftEnv :=
  mkEnv [] [] 4242 (Some (String.concat Bench.nl (repeat "old" 200))) 1700000000000.

Definition state (quality : string) (key : option string) : AppState.t :=
  AppState.mk FREE quality MP3 (UserApiKeys.mk key None None) false
    "Welcome to Podcast Studio AI." "Stay curious, and thanks for listening!" ∅.

End DraftBench.

(** ** App.tsx: keys, cover art and script drafting (lines 256-302) *)

Module Desk.
Import App.
Section Component.
Context {AE : AudioEngine} {BE : Backend Env}.
Local Open Scope machine_scope.

(** [{ ...prev.apiKeys, [provider]: key }]; a property other than the
    three of [UserApiKeys] is read by no code and is not kept. *)
Definition withKey (provider key : string) (keys : UserApiKeys.t) : UserApiKeys.t :=
  if (provider =? "pollinationsKey")%string
  then UserApiKeys.mk (Some key) (UserApiKeys.openaiKey keys) (UserApiKeys.mistralKey keys)
  else if (provider =? "openaiKey")%string
  then UserApiKeys.mk (UserApiKeys.pollinationsKey keys) (Some key) (UserApiKeys.mistralKey keys)
  else if (provider =? "mistralKey")%string
  then UserApiKeys.mk (UserApiKeys.pollinationsKey keys) (UserApiKeys.openaiKey keys) (Some key)
  else keys.

Definition set_apiKeys (keys : UserApiKeys.t) (st : AppState.t) : AppState.t :=
  AppState.mk (AppState.tier st) (AppState.quality st) (AppState.exportFormat st) keys
    (AppState.isGenerating st) (AppState.introText st) (AppState.outroText st)
    (AppState.speakerVoiceMap st).

(** [const handleApiKeySave = (provider: string, key: string) => { ... }] *)
Definition handleApiKeySave (provider key : string) : M unit :=
  Studio.setState (fun prev => set_apiKeys (withKey provider key (AppState.apiKeys prev)) prev) ;;;
  Studio.addLog LogEntry.info ("Security credentials for " +:+ provider +:+ " updated.").

Definition setCoverArtUrl (url : option string) : M unit :=
  Studio.withHooks (fun h =>
    mkHooks (state h) (script h) (topic h) (segments h) (fullAudioUrl h) (srtUrl h)
            url (progress h) (logs h) (history h) (audioContextRef h)).

(** Lines 270-271 and 286-287: the routing decision for the image and
    the cover art URL made from it; [artStyle] stands for
    [state.artStyle]. *)
Definition coverArt (h : Hooks) (artStyle : option ArtStyle) : M string :=
  imgDecision <- (fun m =>
                    (ModelRouter.selectModel
                       (ModelRouter.mkTask "image_generation" (AppState.quality (state h)) None)
                       (AppState.apiKeys (state h)), m)) ;;
  Studio.await (fun e =>
    let '(url, e1) :=
      PollinationsService.getCoverArtUrl (topic h)
        (if JS.includes (ModelRouter.modelId imgDecision) "flux" then "flux" else "turbo")
        artStyle e in
    (Normal url, e1)).

(** [const handleRegenerateArt = useCallback(async () => { ... })] *)
Definition handleRegenerateArt (artStyle : option ArtStyle) : M unit :=
  fun m =>
    let h := hooks m in
    if (topic h =? "")%string then ret tt m
    else
      (Studio.addLog LogEntry.info "Refreshing episode visuals..." ;;;
       artUrl <- coverArt h artStyle ;;
       setCoverArtUrl (Some artUrl)) m.

(** The component with the hook [isAgentThinking] beside the hooks of
    the pipeline. *)
Record Drafting : Type := mkDrafting {
  machine : Machine;
  isAgentThinking : bool
}.

(** [await new Promise(resolve => setTimeout(resolve, ms))] *)
Definition pause (ms : Z) : M unit :=
  fun m => (Normal tt, {| world := sleep ms (world m); heap := heap m; hooks := hooks m;
                          reports := reports m |}).

(** The [try] block of [handleScriptGeneration] (lines 282-295);
    [scriptType] stands for [state.scriptType].  [setScript] triggers
    the effect that derives the segments. *)
Definition drafted (h : Hooks) (artStyle : option ArtStyle) (scriptType : string) : M unit :=
  result <- Studio.awaitService
              (ApiOrchestrator.generateScript (topic h) (state h) scriptType) ;;
  Studio.editScript (ApiOrchestrator.script result) ;;;
  Studio.setProgress
    (Progress.mk 60%float "Conceptualizing Visuals..." "Stage 2/2: Art Direction") ;;;
  artUrl <- coverArt h artStyle ;;
  pause 800 ;;;
  setCoverArtUrl (Some artUrl) ;;;
  Studio.setProgress (Progress.mk 100%float "Creative Engine Ready" "Production Unlocked") ;;;
  Studio.addLog LogEntry.info "Drafting concluded. Visuals deployed.".

(** The [catch] block. *)
Definition engineStalled : Progress.t := Progress.mk 0%float "Engine Stalled" "Error".

Definition draftingFailed (err : Thrown) : M unit :=
  Studio.addLog LogEntry.error ("Script drafting failed: " +:+ JS.showMessage err) ;;;
  Studio.setProgress engineStalled.

(** [const handleScriptGeneration = async () => { ... }]; the delayed
    reset of the progress bar concerns the display only and is left
    out. *)
Definition handleScriptGeneration (artStyle : option ArtStyle) (scriptType : string)
    (d : Drafting) : Completion unit * Drafting :=
  let h := hooks (machine d) in
  if ((topic h =? "")%string || isAgentThinking d)%bool then (Normal tt, d)
  else
    let '(completion, m') :=
      (Studio.setProgress
         (Progress.mk 10%float "Brainstorming Narrative..." "Stage 1/2: Script Drafting") ;;;
       Studio.addLog LogEntry.info ("Engaging neural engine for: " +:+ topic h) ;;;
       tryCatchFinally (drafted h artStyle scriptType) draftingFailed (ret tt))
        (machine d) in
    (completion, {| machine := m'; isAgentThinking := false |}).

End Component.
End Desk.

Module DeskSpec.
Import App.
Section Component.
Context {AE : AudioEngine}.

(** The model tag of the cover art: "flux" at premium quality with a
    Pollinations key, "turbo" otherwise. *)
Definition artTag (st : AppState.t) : string :=
  if ((AppState.quality st =? "premium")%string
      && JS.truthyString (UserApiKeys.pollinationsKey (AppState.apiKeys st)))%bool
  then "flux" else "turbo".

(** The hooks a draft leaves alone. *)
Definition besidesDraft (h : Hooks) :=
  (state h, topic h, fullAudioUrl h, srtUrl h, history h, audioContextRef h).

End Component.
End DeskSpec.

(** On the bench: the network answers every [fetch] with [reply], Gemini
    with a one-line script; seeds are counted up. *)
Module DeskBench.

Definition backend (reply : Completion Response.t) : Backend Bench.BenchEnv := {|
  Json := list string;
  generateText := fun _ e => (Normal (Some "Host: Hello from Gemini."), e);
  fetch := fun _ _ e => (reply, e);
  randomSeed := fun e =>
    (Z.of_nat (Bench.nextId e),
     Bench.mkEnv (Bench.speechBudget e) (Bench.ttsScript e) (Bench.clock e)
       (S (Bench.nextId e)));
  localStorage_getItem := fun _ _ => Normal None;
  localStorage_setItem := fun _ _ e => (Normal tt, e);
  JSON_parse := fun _ => Normal [];
  asArray := fun _ => Some [];
  JSON_stringify := fun _ => Normal "[]";
  metadataJson := fun entry => [Metadata.model entry];
  now := Bench.clock
|}.

Definition twoLines : Completion Response.t :=
  Normal (Response.mk true 200
            (Normal ("Host: Welcome back." +:+ Bench.nl +:+ "Guest: Glad to be here."))).

Definition unavailable : Completion Response.t :=
  Normal (Response.mk false 503 (Normal "Service Unavailable")).

(** The default session with a topic, art and drafting idle. *)
Definition titled (topic : string) (m : App.Machine) : App.Machine :=
  let h := App.hooks m in
  {| App.world := App.world m; App.heap := App.heap m;
     App.hooks := App.mkHooks (App.state h) (App.script h) topic (App.segments h)
                    (App.fullAudioUrl h) (App.srtUrl h) (App.coverArtUrl h)
                    (App.progress h) (App.logs h) (App.history h) (App.audioContextRef h);
     App.reports := App.reports m |}.

Definition desk : Desk.Drafting :=
  Desk.mkDrafting (titled "Tides" Bench.defaultReady) false.

End DeskBench.

(** ** App.tsx: importing a script file (lines 244-254) *)

Module Text.

(** [s.endsWith(suffix)] *)
Fixpoint endsWith (s suffix : string) : bool :=
  (String.eqb s suffix
   || match s with
      | EmptyString => false
      | String _ rest => endsWith rest suffix
      end)%bool.

(** [s.slice(n)] *)
Fixpoint skip (n : nat) (s : string) : string :=
  match n, s with
  | O, _ => s
  | S n', String _ rest => skip n' rest
  | S _, EmptyString => EmptyString
  end.

(** [s.replace(pattern, replacement)] for a string pattern: the first
    occurrence is replaced. *)
Fixpoint replace (pattern replacement s : string) : string :=
  if String.prefix pattern s then replacement +:+ skip (String.length pattern) s
  else match s with
       | EmptyString => EmptyString
       | String c rest => String c (replace pattern replacement rest)
       end.

End Text.

Module Importer.
Import App.
Section Component.
Context {AE : AudioEngine}.
Local Open Scope machine_scope.

(** A dropped [File]: its name, its media type, and what reading it
    with [file.text()] gives. *)
Record File : Type := mkFile {
  name : string;
  type : string;
  text : Completion string
}.

Definition setTopic (value : string) : M unit :=
  Studio.withHooks (fun h =>
    mkHooks (state h) (script h) value (segments h) (fullAudioUrl h) (srtUrl h)
            (coverArtUrl h) (progress h) (logs h) (history h) (audioContextRef h)).

Definition accepted (file : File) : bool :=
  ((type file =? "text/plain")%string || Text.endsWith (name file) ".txt")%bool.

(** [const handleDrop = async (e: React.DragEvent) => { ... }];
    [file] is [e.dataTransfer.files[0]].  [setScript] triggers the
    effect that derives the segments. *)
Definition handleDrop (file : option File) : M unit :=
  match file with
  | Some f =>
      if accepted f then
        content <- (fun m => (text f, m)) ;;
        Studio.editScript content ;;;
        setTopic (Text.replace ".txt" "" (name f)) ;;;
        Studio.addLog LogEntry.info ("Imported script from file: " +:+ name f)
      else ret tt
  | None => ret tt
  end.

End Component.
End Importer.

(** ** Vocabulary: what a production leaves of the segments *)

Module StampSpec.
Import App.
Section Component.
Context {AE : AudioEngine}.

(** Two segment objects that agree on everything but the two time
    stamps. *)
Definition sameCard (a b : PodcastSegment.t) : Prop :=
  PodcastSegment.id b = PodcastSegment.id a
  /\ PodcastSegment.speaker b = PodcastSegment.speaker a
  /\ PodcastSegment.text b = PodcastSegment.text a
  /\ PodcastSegment.status b = PodcastSegment.status a
  /\ PodcastSegment.audioUrl b = PodcastSegment.audioUrl a.

(** The step keeps the segment list, the script, the topic and the cover
    art, and every object of the heap up to its time stamps. *)
Definition stampsOnly (m m' : Machine) : Prop :=
  (segments (hooks m'), script (hooks m'), topic (hooks m'), coverArtUrl (hooks m'))
  = (segments (hooks m), script (hooks m), topic (hooks m), coverArtUrl (hooks m))
  /\ forall ref seg, heap m !! ref = Some seg ->
       exists seg', heap m' !! ref = Some seg' /\ sameCard seg seg'.

End Component.
End StampSpec.

(** ** App.tsx: previewing a voice (lines 163-201) *)

Module Preview.
Import App.
Section Component.
Context {AE : AudioEngine}.
Local Open Scope machine_scope.

(** [stopCurrentPlayback] as far as the browser goes: the current source
    is stopped, a failure of which is swallowed, and the audio element
    is paused. *)
Variable stopPlayback : Env -> Env.

(** Lines 191-196: a buffer source is created for the buffer, connected
    to the destination and started. *)
Variable startSource : AudioBuffer -> AudioContext -> Env -> Completion unit * Env.

(** The component with the hook [activePreviewId] beside the hooks of
    the pipeline. *)
Record Booth : Type := mkBooth {
  machine : Machine;
  activePreviewId : option string
}.

(** [voice.sampleText || fallback] *)
Definition sample (voice : VoiceProfile.t) (fallback : string) : string :=
  if JS.truthyString (VoiceProfile.sampleText voice)
  then default "" (VoiceProfile.sampleText voice)
  else fallback.

(** The [try] block (lines 183-196). *)
Definition audition (voice : VoiceProfile.t) (ctx : AudioContext) : M unit :=
  Studio.await (ensureAudioContext ctx) ;;;
  buffer <- match VoiceProfile.engine voice with
            | BROWSER =>
                Studio.await
                  (generateBrowserSpeech (sample voice "This is a voice sample.")
                     (VoiceProfile.voiceName voice) ctx)
            | GEMINI =>
                base64 <- Studio.awaitService
                            (GeminiService.generateSpeech generateContent
                               (sample voice "Hello, I am a Gemini native voice.")
                               (VoiceProfile.voiceName voice)) ;;
                Studio.await (decodeGeminiAudio base64 ctx)
            end ;;
  Studio.await (startSource buffer ctx).

(** The machine at the entry of the [try] block: playback is stopped
    and the preview is logged. *)
Definition opened (voice : VoiceProfile.t) (m : Machine) : Machine :=
  snd (Studio.addLog LogEntry.info ("Previewing voice: " +:+ VoiceProfile.name voice)
         {| world := {| env := stopPlayback (env (world m)); timers := timers (world m) |};
            heap := heap m; hooks := hooks m; reports := reports m |}).

(** [const playVoiceSample = async (voice: VoiceProfile) => { ... }];
    the [onended] callback of the source, which clears the preview when
    the sample has played, is left out. *)
Definition playVoiceSample (voice : VoiceProfile.t) (b : Booth) : Completion unit * Booth :=
  let m := machine b in
  match audioContextRef (hooks m) with
  | None => (Normal tt, b)
  | Some ctx =>
      let m0 := {| world := {| env := stopPlayback (env (world m));
                               timers := timers (world m) |};
                   heap := heap m; hooks := hooks m; reports := reports m |} in
      let m1 := snd (Studio.addLog LogEntry.info
                       ("Previewing voice: " +:+ VoiceProfile.name voice) m0) in
      match audition voice ctx m1 with
      | (Normal _, m2) =>
          (Normal tt, {| machine := m2; activePreviewId := Some (VoiceProfile.id voice) |})
      | (Throw e, m2) =>
          let m3 := snd (Studio.addLog LogEntry.error
                           ("Voice preview failed: " +:+ JS.showMessage e) m2) in
          (Normal tt, {| machine := m3; activePreviewId := None |})
      end
  end.

End Component.
End Preview.

(* ===================================================================== *)
(** * Part II. Properties                                                 *)
(* ===================================================================== *)

(** ** RetryPolicy ([GeminiService.withRetry]) *)

Section WithRetry.
Context {Env T : Type}.
Implicit Types (fn : Async Env T) (w : World Env) (error : Thrown).

Lemma withRetry_fulfilled fn retries delay w v w1 :
  fn w = (Normal v, w1) ->
  GeminiService.withRetry fn retries delay w = (Normal v, w1).
Proof. intros Hfn. destruct retries; simpl; rewrite Hfn; reflexivity. Qed.

Lemma withRetry_retry fn retries delay w error w1 :
  fn w = (Throw error, w1) ->
  GeminiService.isRateLimit error = Normal true ->
  GeminiService.withRetry fn (S retries) delay w
  = GeminiService.withRetry fn retries (delay * 2) (sleep delay w1).
Proof. intros Hfn Hrl. cbn [GeminiService.withRetry]. rewrite Hfn, Hrl. reflexivity. Qed.

Lemma withRetry_terminal fn retries delay w error w1 :
  fn w = (Throw error, w1) ->
  GeminiService.isRateLimit error = Normal false ->
  GeminiService.withRetry fn retries delay w = (Throw error, w1).
Proof. intros Hfn Hrl. destruct retries; simpl; rewrite Hfn, Hrl; reflexivity. Qed.

Lemma withRetry_out_of_budget fn delay w error w1 :
  fn w = (Throw error, w1) ->
  GeminiService.isRateLimit error = Normal true ->
  GeminiService.withRetry fn 0 delay w = (Throw error, w1).
Proof. intros Hfn Hrl. simpl. rewrite Hfn, Hrl. reflexivity. Qed.

Lemma withRetry_test_throws fn retries delay w error w1 typeError :
  fn w = (Throw error, w1) ->
  GeminiService.isRateLimit error = Throw typeError ->
  GeminiService.withRetry fn retries delay w = (Throw typeError, w1).
Proof. intros Hfn Hrl. destruct retries; simpl; rewrite Hfn, Hrl; reflexivity. Qed.

End WithRetry.

(** A script that opens with [length errors] rate-limited failures makes
    [withRetry] sleep once per failure, doubling each time, as long as the
    budget lasts. *)
Lemma withRetry_scripted_prefix {T} (errors : list Thrown) :
  forall (rest : list (Completion T)) (retries : nat) (delay : Z) (log : list Z),
    Forall (fun e => GeminiService.isRateLimit e = Normal true) errors ->
    (length errors <= retries)%nat ->
    GeminiService.withRetry RetrySpec.scripted retries delay
      (mkWorld (map Throw errors ++ rest) log)
    = GeminiService.withRetry RetrySpec.scripted (retries - length errors)
        (delay * 2 ^ Z.of_nat (length errors))
        (mkWorld rest (log ++ RetrySpec.backoff delay (length errors))).
Proof.
  induction errors as [|e errors IH]; intros rest retries delay log Hall Hlen.
  - simpl. rewrite Nat.sub_0_r, Z.mul_1_r, app_nil_r. reflexivity.
  - inversion Hall as [|? ? He Hall']; subst.
    destruct retries as [|retries]; [simpl in Hlen; lia|].
    rewrite (withRetry_retry _ _ _ _ e (mkWorld (map Throw errors ++ rest) log));
      [|reflexivity|assumption].
    unfold sleep; cbn [env timers].
    rewrite IH by (try assumption; simpl in Hlen; lia).
    cbn [length RetrySpec.backoff Nat.sub].
    rewrite <- app_assoc. cbn [app].
    replace (delay * 2 * 2 ^ Z.of_nat (length errors))
      with (delay * 2 ^ Z.of_nat (S (length errors))); [reflexivity|].
    rewrite Nat2Z.inj_succ, Z.pow_succ_r by lia. ring.
Qed.

(** C1 as stated fails on the code: a failure that carries the
    resource-exhaustion marker in its message only (an [Error] instance,
    which serializes to the empty object) is not retried although retries
    remain.  Stated as the negation of "a marked failure with retries left
    is followed by a sleep of the current delay and a retry at twice the
    delay". *)
Lemma C1_marker_in_message_only_is_not_retried :
  RetrySpec.hasRateLimitMarker RetrySpec.quotaMessageOnly = true
  /\ GeminiService.withRetry RetrySpec.scripted
       GeminiService.default_retries GeminiService.default_delay
       (mkWorld [Throw RetrySpec.quotaMessageOnly; Normal 7%nat] [])
     = (Throw RetrySpec.quotaMessageOnly, mkWorld [Normal 7%nat] [])
  /\ ~ (forall (fn : Async (list (Completion nat)) nat) retries delay w error w1,
          fn w = (Throw error, w1) ->
          RetrySpec.hasRateLimitMarker error = true ->
          GeminiService.withRetry fn (S retries) delay w
          = GeminiService.withRetry fn retries (delay * 2) (sleep delay w1)).
Proof.
  split; [reflexivity|]. split; [reflexivity|].
  intros H.
  specialize (H RetrySpec.scripted 2%nat 2000
                (mkWorld [Throw RetrySpec.quotaMessageOnly; Normal 7%nat] [])
                RetrySpec.quotaMessageOnly (mkWorld [Normal 7%nat] [])
                eq_refl eq_refl).
  vm_compute in H. discriminate H.
Qed.

Lemma isRateLimit_classes (e : Thrown) :
  (RetrySpec.rateLimited e -> GeminiService.isRateLimit e = Normal true)
  /\ (RetrySpec.terminal e -> GeminiService.isRateLimit e = Normal false)
  /\ (forall typeError, RetrySpec.untestable e typeError ->
                        GeminiService.isRateLimit e = Throw typeError).
Proof.
  unfold RetrySpec.rateLimited, RetrySpec.terminal, RetrySpec.untestable,
    RetrySpec.messageHas429, RetrySpec.containsMarker, GeminiService.isRateLimit.
  split; [|split].
  - intros [(errorStr & -> & H)|[-> ->]]; [|reflexivity].
    rewrite <- orb_assoc. rewrite H. reflexivity.
  - intros (errorStr & -> & H). rewrite <- orb_assoc. rewrite H. reflexivity.
  - intros typeError [[-> ->]|(-> & -> & ->)]; reflexivity.
Qed.

(** C1, amended: the retry policy with the rate-limit test the code
    performs.  A failure is a thrown object whose message is a string or
    missing.  The test of line 22-23 sorts every failure into one of
    three classes ([RetrySpec.rateLimited], [terminal], [untestable]).
    (1) A rate-limited failure while retries remain is followed by a
        sleep of the current delay and a retry with one retry less and
        twice the delay.
    (2) A terminal failure is propagated at once, as it is, whatever the
        budget; no delay is added.
    (3) A rate-limited failure when no retry remains is propagated as it
        is.
    (4) An untestable failure makes [withRetry] reject at once with the
        [TypeError] of the test, whatever the budget; no delay is added.
    (5) Every failure is in one of the three classes.
    (6) When every attempt of the budget fails rate-limited, the delays
        are the doubling sequence and the last failure is propagated
        unchanged.
    (7) With the defaults (3 retries, 2000 ms), two rate-limited failures
        followed by a success give exactly the delays 2000 and 4000 and
        return the success value.
    (8) An [Error] whose message holds no 429 is terminal, whatever else
        its message says. *)
Theorem C1_withRetry_policy :
  (forall Env T (fn : Async Env T) retries delay w error w1,
      fn w = (Throw error, w1) ->
      RetrySpec.rateLimited error ->
      GeminiService.withRetry fn (S retries) delay w
      = GeminiService.withRetry fn retries (delay * 2) (sleep delay w1))
  /\ (forall Env T (fn : Async Env T) retries delay w error w1,
      fn w = (Throw error, w1) ->
      RetrySpec.terminal error ->
      GeminiService.withRetry fn retries delay w = (Throw error, w1))
  /\ (forall Env T (fn : Async Env T) delay w error w1,
      fn w = (Throw error, w1) ->
      RetrySpec.rateLimited error ->
      GeminiService.withRetry fn 0 delay w = (Throw error, w1))
  /\ (forall Env T (fn : Async Env T) retries delay w error w1 typeError,
      fn w = (Throw error, w1) ->
      RetrySpec.untestable error typeError ->
      GeminiService.withRetry fn retries delay w = (Throw typeError, w1))
  /\ (forall error,
      RetrySpec.rateLimited error \/ RetrySpec.terminal error
      \/ exists typeError, RetrySpec.untestable error typeError)
  /\ (forall T (errors : list Thrown) (last : Thrown) (rest : list (Completion T)) delay log,
      Forall RetrySpec.rateLimited (errors ++ [last]) ->
      GeminiService.withRetry RetrySpec.scripted (length errors) delay
        (mkWorld (map Throw (errors ++ [last]) ++ rest) log)
      = (Throw last, mkWorld rest (log ++ RetrySpec.backoff delay (length errors))))
  /\ (forall T (e1 e2 : Thrown) (v : T) (rest : list (Completion T)) log,
      RetrySpec.rateLimited e1 ->
      RetrySpec.rateLimited e2 ->
      GeminiService.withRetry RetrySpec.scripted
        GeminiService.default_retries GeminiService.default_delay
        (mkWorld (Throw e1 :: Throw e2 :: Normal v :: rest) log)
      = (Normal v, mkWorld rest (log ++ [2000; 4000])))
  /\ (forall msg, JS.includes msg "429" = false -> RetrySpec.terminal (JS.Error msg)).
Proof.
  split; [|split; [|split; [|split; [|split; [|split; [|split]]]]]].
  - intros Env T fn retries delay w error w1 Hfn Hrl.
    eapply withRetry_retry; [exact Hfn|]. apply isRateLimit_classes. exact Hrl.
  - intros Env T fn retries delay w error w1 Hfn Hrl.
    eapply withRetry_terminal; [exact Hfn|]. apply isRateLimit_classes. exact Hrl.
  - intros Env T fn delay w error w1 Hfn Hrl.
    eapply withRetry_out_of_budget; [exact Hfn|]. apply isRateLimit_classes. exact Hrl.
  - intros Env T fn retries delay w error w1 typeError Hfn Hrl.
    eapply withRetry_test_throws; [exact Hfn|]. apply isRateLimit_classes. exact Hrl.
  - intros error. unfold RetrySpec.rateLimited, RetrySpec.terminal, RetrySpec.untestable.
    destruct (JS.stringify error) as [errorStr| |].
    + destruct (RetrySpec.messageHas429 error || RetrySpec.containsMarker errorStr)%bool
        eqn:H; [left; left|right; left]; exists errorStr; split; auto.
    + destruct (RetrySpec.messageHas429 error) eqn:H.
      * left. right. split; reflexivity.
      * right. right. eexists. right. split; [reflexivity|]. split; reflexivity.
    + right. right. eexists. left. split; reflexivity.
  - intros T errors last rest delay log Hall.
    assert (Hall' : Forall (fun e => GeminiService.isRateLimit e = Normal true)
                      (errors ++ [last])).
    { eapply Forall_impl; [exact Hall|]. intros e He. apply isRateLimit_classes. exact He. }
    apply Forall_app in Hall' as [Hall' Hlast].
    inversion Hlast as [|? ? Hl _]; subst.
    rewrite map_app, <- app_assoc.
    rewrite withRetry_scripted_prefix by (try assumption; lia).
    rewrite Nat.sub_diag.
    apply withRetry_out_of_budget; [reflexivity|assumption].
  - intros T e1 e2 v rest log H1 H2.
    apply isRateLimit_classes in H1. apply isRateLimit_classes in H2.
    change (Throw e1 :: Throw e2 :: Normal v :: rest)
      with (map Throw [e1; e2] ++ Normal v :: rest).
    rewrite withRetry_scripted_prefix by (repeat constructor; assumption).
    apply withRetry_fulfilled. reflexivity.
  - intros msg Hmsg. exists "{}". split; [reflexivity|].
    unfold RetrySpec.messageHas429. cbn [JS.message JS.Error]. rewrite Hmsg. reflexivity.
Qed.

(** The amended policy at concrete failures: a 429 in the message, then a
    RESOURCE_EXHAUSTED status in a plain error object, then success; a
    failure that is not a rate limit, which ends the call with no delay;
    and a failure that cannot be serialized, which ends it with the
    [TypeError] of the test. *)
Lemma C1_withRetry_policy_witness :
  RetrySpec.rateLimited RetrySpec.quota429
  /\ RetrySpec.rateLimited RetrySpec.quotaStatusObject
  /\ GeminiService.withRetry RetrySpec.scripted
       GeminiService.default_retries GeminiService.default_delay
       (mkWorld [Throw RetrySpec.quota429; Throw RetrySpec.quotaStatusObject;
                 Normal "UklGRg=="] [])
     = (Normal "UklGRg==", mkWorld [] [2000; 4000])
  /\ GeminiService.withRetry RetrySpec.scripted
       GeminiService.default_retries GeminiService.default_delay
       (mkWorld [Throw RetrySpec.badRequest; Normal "UklGRg=="] [])
     = (Throw RetrySpec.badRequest, mkWorld [Normal "UklGRg=="] [])
  /\ GeminiService.withRetry RetrySpec.scripted
       GeminiService.default_retries GeminiService.default_delay
       (mkWorld [Throw BackoffSpec.cyclic; Normal "UklGRg=="] [])
     = (Throw JS.TypeError_circular, mkWorld [Normal "UklGRg=="] []).
Proof.
  assert (H1 : RetrySpec.rateLimited RetrySpec.quota429).
  { left. exists "{}". split; reflexivity. }
  assert (H2 : RetrySpec.rateLimited RetrySpec.quotaStatusObject).
  { left. eexists. split; reflexivity. }
  assert (H3 : RetrySpec.terminal RetrySpec.badRequest).
  { exists "{}". split; reflexivity. }
  assert (H4 : RetrySpec.untestable BackoffSpec.cyclic JS.TypeError_circular).
  { left. split; reflexivity. }
  split; [exact H1|]. split; [exact H2|]. split; [|split].
  - exact (proj1 (proj2 (proj2 (proj2 (proj2 (proj2 (proj2 C1_withRetry_policy))))))
             string RetrySpec.quota429 RetrySpec.quotaStatusObject "UklGRg==" [] []
             H1 H2).
  - exact (proj1 (proj2 C1_withRetry_policy)
             (list (Completion string)) string RetrySpec.scripted
             GeminiService.default_retries GeminiService.default_delay
             (mkWorld [Throw RetrySpec.badRequest; Normal "UklGRg=="] [])
             RetrySpec.badRequest (mkWorld [Normal "UklGRg=="] [])
             eq_refl H3).
  - exact (proj1 (proj2 (proj2 (proj2 C1_withRetry_policy)))
             (list (Completion string)) string RetrySpec.scripted
             GeminiService.default_retries GeminiService.default_delay
             (mkWorld [Throw BackoffSpec.cyclic; Normal "UklGRg=="] [])
             BackoffSpec.cyclic (mkWorld [Normal "UklGRg=="] [])
             JS.TypeError_circular eq_refl H4).
Defined.

(** ** ModelRouter *)

(** Decides the string comparisons both of whose sides are literals. *)
Ltac literal_eqb :=
  repeat match goal with
         | |- context [String.eqb ?a ?b] =>
             let v := eval vm_compute in (String.eqb a b) in
             match v with
             | true => idtac
             | false => idtac
             end;
             let H := fresh in
             assert (H : String.eqb a b = v) by (vm_compute; reflexivity);
             rewrite H; clear H
         end.

Lemma registry_has_routed_models :
  is_Some (Constants.MODEL_REGISTRY !! "gemini-3-pro-preview")
  /\ is_Some (Constants.MODEL_REGISTRY !! "pollinations-script-paid")
  /\ is_Some (Constants.MODEL_REGISTRY !! "pollinations-script-free")
  /\ is_Some (Constants.MODEL_REGISTRY !! "pollinations-image-flux")
  /\ is_Some (Constants.MODEL_REGISTRY !! "pollinations-image-free")
  /\ is_Some (Constants.MODEL_REGISTRY !! "gemini-native-audio")
  /\ is_Some (Constants.MODEL_REGISTRY !! "edge-neural-voices").
Proof. repeat split; vm_compute; eexists; reflexivity. Qed.

(** C2: [selectModel] is a function of its arguments alone, and of no more
    of them than the task type, the quality, the truthiness of
    [requiresReasoning] and the presence of a (non-empty) Pollinations
    key: two calls that agree on these return the same completion, that is
    the same modelId, model, reason and estimatedCost.  In particular two
    calls with the same arguments do. *)
Theorem C2_selectModel_deterministic :
  forall (task1 task2 : ModelRouter.Task) (keys1 keys2 : UserApiKeys.t),
    ModelRouter.type task1 = ModelRouter.type task2 ->
    ModelRouter.quality task1 = ModelRouter.quality task2 ->
    JS.truthyBool (ModelRouter.requiresReasoning task1)
    = JS.truthyBool (ModelRouter.requiresReasoning task2) ->
    JS.truthyString (UserApiKeys.pollinationsKey keys1)
    = JS.truthyString (UserApiKeys.pollinationsKey keys2) ->
    ModelRouter.selectModel task1 keys1 = ModelRouter.selectModel task2 keys2.
Proof.
  intros [ty1 q1 r1] [ty2 q2 r2] keys1 keys2 Hty Hq Hr Hk.
  cbn [ModelRouter.type ModelRouter.quality ModelRouter.requiresReasoning] in *.
  subst ty2 q2. unfold ModelRouter.selectModel.
  cbn [ModelRouter.type ModelRouter.quality ModelRouter.requiresReasoning].
  rewrite Hr, Hk. reflexivity.
Qed.

Lemma C2_selectModel_deterministic_witness :
  ModelRouter.selectModel (RouterSpec.scriptTask "balanced" None) RouterSpec.noKeys
  = ModelRouter.selectModel (RouterSpec.scriptTask "balanced" (Some false)) RouterSpec.emptyKey.
Proof.
  apply (C2_selectModel_deterministic
           (RouterSpec.scriptTask "balanced" None)
           (RouterSpec.scriptTask "balanced" (Some false))
           RouterSpec.noKeys RouterSpec.emptyKey);
    reflexivity.
Defined.

(** C3 as stated fails on the code: the claim quantifies over the
    [requiresReasoning] flag, but a balanced script request that requires
    reasoning is routed to the reasoning model before the credential is
    looked at, with or without a paid key. *)
Lemma C3_balanced_with_reasoning_is_not_mid_tier :
  ~ (forall (requiresReasoning : option bool) (keys : UserApiKeys.t),
       exists d,
         ModelRouter.selectModel (RouterSpec.scriptTask "balanced" requiresReasoning) keys
         = Normal d
         /\ (JS.truthyString (UserApiKeys.pollinationsKey keys) = true ->
             ModelRouter.modelId d = "pollinations-script-paid")
         /\ (JS.truthyString (UserApiKeys.pollinationsKey keys) = false ->
             ModelRouter.modelId d = "pollinations-script-free")).
Proof.
  intros H. destruct (H (Some true) RouterSpec.paidKeys) as (d & Hd & Hpaid & _).
  specialize (Hpaid eq_refl).
  vm_compute in Hd. injection Hd as <-. discriminate Hpaid.
Qed.

(** C3, amended: for a script_generation request of quality "balanced"
    whose [requiresReasoning] flag is false or absent, [selectModel]
    returns the paid mid-tier model (pollinations-script-paid, estimated
    cost 0.002) when a non-empty Pollinations key is present and the
    free-tier model (pollinations-script-free, estimated cost 0) otherwise;
    hence the paid model is chosen iff the key is present.  When the flag
    is true the reasoning model (gemini-3-pro-preview, 0.005) is chosen
    whatever the credentials. *)
Theorem C3_balanced_script_routing :
  forall (requiresReasoning : option bool) (keys : UserApiKeys.t),
    exists d,
      ModelRouter.selectModel (RouterSpec.scriptTask "balanced" requiresReasoning) keys
      = Normal d
      /\ (JS.truthyBool requiresReasoning = false ->
          (JS.truthyString (UserApiKeys.pollinationsKey keys) = true <->
           ModelRouter.modelId d = "pollinations-script-paid")
          /\ (JS.truthyString (UserApiKeys.pollinationsKey keys) = true ->
              d = ModelRouter.decide_on "pollinations-script-paid"
                    "Utilizing Pollinations GPT-4o for balanced production" 0.002%float)
          /\ (JS.truthyString (UserApiKeys.pollinationsKey keys) = false ->
              d = ModelRouter.decide_on "pollinations-script-free"
                    "Standard fast script generation (Free tier)" 0%float))
      /\ (JS.truthyBool requiresReasoning = true ->
          d = ModelRouter.decide_on "gemini-3-pro-preview"
                "Advanced reasoning required or premium quality selected (Gemini 3 Pro)"
                0.005%float).
Proof.
  intros rr keys. unfold ModelRouter.selectModel, RouterSpec.scriptTask.
  cbn [ModelRouter.type ModelRouter.quality ModelRouter.requiresReasoning].
  literal_eqb. cbn [orb andb].
  destruct (JS.truthyBool rr) eqn:Hrr.
  - eexists; split; [reflexivity|]. split; [discriminate|reflexivity].
  - destruct (JS.truthyString (UserApiKeys.pollinationsKey keys)) eqn:Hk.
    + eexists; split; [reflexivity|]. split; [|discriminate].
      intros _. repeat split; try reflexivity; discriminate.
    + eexists; split; [reflexivity|]. split; [|discriminate].
      intros _. repeat split; try reflexivity; discriminate.
Qed.

Lemma C3_balanced_script_routing_witness :
  ModelRouter.selectModel (RouterSpec.scriptTask "balanced" (Some false)) RouterSpec.paidKeys
  = Normal (ModelRouter.decide_on "pollinations-script-paid"
              "Utilizing Pollinations GPT-4o for balanced production" 0.002%float)
  /\ ModelRouter.selectModel (RouterSpec.scriptTask "balanced" None) RouterSpec.emptyKey
     = Normal (ModelRouter.decide_on "pollinations-script-free"
                 "Standard fast script generation (Free tier)" 0%float).
Proof.
  split.
  - destruct (C3_balanced_script_routing (Some false) RouterSpec.paidKeys)
      as (d & Hd & Hbal & _).
    destruct (Hbal eq_refl) as (_ & Hpaid & _).
    rewrite Hd, (Hpaid eq_refl). reflexivity.
  - destruct (C3_balanced_script_routing None RouterSpec.emptyKey)
      as (d & Hd & Hbal & _).
    destruct (Hbal eq_refl) as (_ & _ & Hfree).
    rewrite Hd, (Hfree eq_refl). reflexivity.
Defined.

(** C4: on the three defined task kinds [selectModel] returns a
    RoutingDecision (whose model is an entry of the registry) for every
    quality and every credential set; on any other kind it throws the
    error "Unsupported task: <kind>".  Being a function of its arguments,
    it has no effect besides its result. *)
Theorem C4_selectModel_total_on_defined_kinds :
  (forall (task : ModelRouter.Task) (keys : UserApiKeys.t),
      RouterSpec.definedKind (ModelRouter.type task) ->
      exists d, ModelRouter.selectModel task keys = Normal d
                /\ is_Some (ModelRouter.model d))
  /\ (forall (task : ModelRouter.Task) (keys : UserApiKeys.t),
      ~ RouterSpec.definedKind (ModelRouter.type task) ->
      ModelRouter.selectModel task keys
      = Throw (JS.Error ("Unsupported task: " +:+ ModelRouter.type task))).
Proof.
  destruct registry_has_routed_models as (R1 & R2 & R3 & R4 & R5 & R6 & R7).
  split.
  - intros [ty q rr] keys Hk. unfold RouterSpec.definedKind in Hk.
    cbn [ModelRouter.type] in Hk. unfold ModelRouter.selectModel.
    cbn [ModelRouter.type ModelRouter.quality ModelRouter.requiresReasoning].
    destruct Hk as [-> | [-> | ->]]; literal_eqb;
      repeat match goal with
             | |- context [if ?c then _ else _] => destruct c
             end;
      eexists; (split; [reflexivity|]); assumption.
  - intros [ty q rr] keys Hk. unfold RouterSpec.definedKind in Hk.
    cbn [ModelRouter.type] in Hk. unfold ModelRouter.selectModel.
    cbn [ModelRouter.type ModelRouter.quality ModelRouter.requiresReasoning].
    destruct (String.eqb_spec ty "script_generation") as [->|_]; [exfalso; auto|].
    destruct (String.eqb_spec ty "image_generation") as [->|_]; [exfalso; auto|].
    destruct (String.eqb_spec ty "audio_synthesis") as [->|_]; [exfalso; auto|].
    reflexivity.
Qed.

Lemma C4_selectModel_total_on_defined_kinds_witness :
  (exists d, ModelRouter.selectModel
               (ModelRouter.mkTask "image_generation" "premium" None) RouterSpec.paidKeys
             = Normal d /\ is_Some (ModelRouter.model d))
  /\ ModelRouter.selectModel
       (ModelRouter.mkTask "video_generation" "fast" None) RouterSpec.noKeys
     = Throw (JS.Error "Unsupported task: video_generation").
Proof.
  split.
  - apply (proj1 C4_selectModel_total_on_defined_kinds
             (ModelRouter.mkTask "image_generation" "premium" None) RouterSpec.paidKeys).
    right; left; reflexivity.
  - apply (proj2 C4_selectModel_total_on_defined_kinds
             (ModelRouter.mkTask "video_generation" "fast" None) RouterSpec.noKeys).
    intros [H | [H | H]]; discriminate H.
Defined.

(** ** Voice resolution *)

Lemma find_conj_filter {A} (p q : A -> bool) (l : list A) :
  List.find (fun x => p x && q x) l = List.find p (List.filter q l).
Proof.
  induction l as [|x l IH]; [reflexivity|].
  cbn [List.find List.filter]. destruct (q x).
  - rewrite andb_true_r. cbn [List.find]. destruct (p x); [reflexivity|exact IH].
  - rewrite andb_false_r. exact IH.
Qed.

Lemma find_some_in {A} (p : A -> bool) (l : list A) (x : A) :
  List.find p l = Some x -> In x l.
Proof. intros H. apply List.find_some in H. tauto. Qed.

Lemma inFamily_restricted (VOICES : list VoiceProfile.t) (provider : Provider.t) :
  List.filter (Voices.inFamily (Voices.isGeminiEngine provider)) VOICES
  = Voices.restricted VOICES provider.
Proof. destruct provider; reflexivity. Qed.

Lemma allAscii_forall (p : ascii -> bool) :
  Voices.allAscii p = true -> forall c, p c = true.
Proof.
  unfold Voices.allAscii. intros H c. rewrite forallb_forall in H. apply H.
  rewrite <- (ascii_nat_embedding c). apply in_map. apply in_seq.
  pose proof (nat_ascii_bounded c). lia.
Qed.

(** Equal lower case is being the same letter. *)
Lemma lowerAscii_sameLetter (a b : ascii) :
  (if ascii_dec (JS.lowerAscii a) (JS.lowerAscii b) then true else false)
  = Voices.sameLetter a b.
Proof.
  assert (H : Voices.allAscii (fun x =>
                Voices.allAscii (fun y =>
                  Bool.eqb (Ascii.eqb (JS.lowerAscii x) (JS.lowerAscii y))
                           (Voices.sameLetter x y))) = true)
    by (vm_compute; reflexivity).
  pose proof (allAscii_forall _ (allAscii_forall _ H a) b) as Hab.
  apply Bool.eqb_prop in Hab. rewrite <- Hab.
  destruct (ascii_dec (JS.lowerAscii a) (JS.lowerAscii b)) as [->|Hne].
  - symmetry. apply Ascii.eqb_refl.
  - symmetry. apply Ascii.eqb_neq. exact Hne.
Qed.

Lemma prefix_toLowerCase (label name : string) :
  String.prefix (JS.toLowerCase label) (JS.toLowerCase name)
  = Voices.startsWithIgnoringCase label name.
Proof.
  revert name. induction label as [|a label IH]; intros [|b name]; try reflexivity.
  cbn [JS.toLowerCase String.prefix Voices.startsWithIgnoringCase].
  rewrite <- lowerAscii_sameLetter, <- IH.
  destruct (ascii_dec _ _); reflexivity.
Qed.

(** What the code computes with [toLowerCase] and [includes] is
    containment without regard to case. *)
Lemma nameContains_ignores_case (speaker : string) (v : VoiceProfile.t) :
  Voices.nameContains speaker v
  = Voices.containsIgnoringCase (VoiceProfile.name v) speaker.
Proof.
  unfold Voices.nameContains. induction (VoiceProfile.name v) as [|c name IH].
  - pose proof (prefix_toLowerCase speaker EmptyString) as H.
    cbn [JS.toLowerCase JS.includes Voices.containsIgnoringCase] in *.
    rewrite H. reflexivity.
  - pose proof (prefix_toLowerCase speaker (String c name)) as H.
    cbn [JS.toLowerCase JS.includes Voices.containsIgnoringCase] in *.
    rewrite H, IH. reflexivity.
Qed.

Lemma find_ext {A} (p q : A -> bool) (l : list A) :
  (forall x, p x = q x) -> List.find p l = List.find q l.
Proof.
  intros H. induction l as [|x l IH]; [reflexivity|].
  cbn [List.find]. rewrite H, IH. reflexivity.
Qed.

(** C8: the voice the code resolves is the one the resolution order of
    the specification names: candidates are restricted to the GEMINI
    family when the provider of the routing decision is gemini and to the
    BROWSER family otherwise; the mapped voice is used if it is among the
    candidates, else the first candidate whose name contains the speaker
    label case-insensitively, else the first candidate.  The resolved
    voice is always a candidate, and a voice is resolved whenever there is
    a candidate at all. *)
Theorem C8_voice_resolution :
  forall (VOICES : list VoiceProfile.t) (provider : Provider.t)
         (speakerVoiceMap : gmap string string) (speaker : string),
    Voices.resolveVoice VOICES provider speakerVoiceMap speaker
    = Voices.resolveVoice_spec VOICES provider speakerVoiceMap speaker
    /\ (forall v, Voices.resolveVoice VOICES provider speakerVoiceMap speaker = Some v ->
                  In v (Voices.restricted VOICES provider))
    /\ (Voices.restricted VOICES provider <> [] ->
        is_Some (Voices.resolveVoice VOICES provider speakerVoiceMap speaker)).
Proof.
  intros VOICES provider vmap speaker.
  assert (Heq : Voices.resolveVoice VOICES provider vmap speaker
                = Voices.resolveVoice_spec VOICES provider vmap speaker).
  { unfold Voices.resolveVoice, Voices.resolveVoice_spec.
    cbv zeta. rewrite find_conj_filter, inFamily_restricted.
    rewrite (find_ext (Voices.nameContains speaker)
               (fun v => Voices.containsIgnoringCase (VoiceProfile.name v) speaker)
               _ (nameContains_ignores_case speaker)).
    destruct (vmap !! speaker) as [voiceId|]; [reflexivity|].
    replace (List.find (Voices.hasId None) (Voices.restricted VOICES provider))
      with (@None VoiceProfile.t); [reflexivity|].
    induction (Voices.restricted VOICES provider); [reflexivity|assumption]. }
  split; [exact Heq|]. rewrite Heq. unfold Voices.resolveVoice_spec. cbv zeta.
  set (candidates := Voices.restricted VOICES provider).
  set (named := fun v => Voices.containsIgnoringCase (VoiceProfile.name v) speaker).
  split.
  - intros v.
    destruct (vmap !! speaker) as [voiceId|].
    + destruct (List.find _ candidates) as [v1|] eqn:H1.
      * intros [= <-]. eapply find_some_in; eassumption.
      * destruct (List.find named candidates) as [v2|] eqn:H2.
        -- intros [= <-]. eapply find_some_in; eassumption.
        -- destruct candidates as [|v0 rest]; [discriminate|].
           intros [= <-]. left; reflexivity.
    + destruct (List.find named candidates) as [v2|] eqn:H2.
      * intros [= <-]. eapply find_some_in; eassumption.
      * destruct candidates as [|v0 rest]; [discriminate|].
        intros [= <-]. left; reflexivity.
  - intros Hne.
    destruct (match vmap !! speaker with
              | Some voiceId => List.find _ candidates
              | None => None
              end); [eexists; reflexivity|].
    destruct (List.find named candidates); [eexists; reflexivity|].
    destruct candidates; [contradiction|eexists; reflexivity].
Qed.

(** The shipped voice table: a mapped voice of the wrong family is
    skipped for a name match, an unknown speaker gets the first voice
    of the family, and a label matches a name whatever the case of
    either: "EMMA" and "eMm" find Emma, who is not the first voice of
    her family. *)
Lemma C8_voice_resolution_witness :
  is_Some (Voices.resolveVoice Constants.VOICES Provider.openai
             (<["Host" := "pro-1"]> ∅) "Emma")
  /\ option_map VoiceProfile.id
       (Voices.resolveVoice Constants.VOICES Provider.openai
          (<["Host" := "pro-1"]> ∅) "Emma") = Some "free-2"
  /\ option_map VoiceProfile.id
       (Voices.resolveVoice Constants.VOICES Provider.gemini
          (<["Host" := "pro-2"]> ∅) "Host") = Some "pro-2"
  /\ option_map VoiceProfile.id
       (Voices.resolveVoice Constants.VOICES Provider.openai
          (<["Host" := "pro-2"]> ∅) "Host") = Some "free-1"
  /\ option_map VoiceProfile.id
       (Voices.resolveVoice Constants.VOICES Provider.openai ∅ "EMMA") = Some "free-2"
  /\ option_map VoiceProfile.id
       (Voices.resolveVoice_spec Constants.VOICES Provider.openai ∅ "eMm") = Some "free-2"
  /\ option_map VoiceProfile.id
       (Voices.resolveVoice Constants.VOICES Provider.gemini ∅ "jORDAN") = Some "pro-2".
Proof.
  split; [|repeat split; vm_compute; reflexivity].
  apply (proj2 (proj2 (C8_voice_resolution Constants.VOICES Provider.openai
                         (<["Host" := "pro-1"]> ∅) "Emma"))).
  vm_compute. discriminate.
Defined.

(** ** The machine monad *)

Section MachineLaws.
Context {AE : AudioEngine}.
Import App PipelineSpec.

Lemma bind_Normal_inv {A B} (c : M A) (k : A -> M B) m v m' :
  bind c k m = (Normal v, m') ->
  exists x m1, c m = (Normal x, m1) /\ k x m1 = (Normal v, m').
Proof.
  unfold bind. destruct (c m) as [[x|e] m1]; intros H; [eauto|discriminate].
Qed.

Lemma bind_Throw_inv {A B} (c : M A) (k : A -> M B) m e m' :
  bind c k m = (Throw e, m') ->
  c m = (Throw e, m') \/ exists x m1, c m = (Normal x, m1) /\ k x m1 = (Throw e, m').
Proof.
  unfold bind. destruct (c m) as [[x|e1] m1]; intros H; [right; eauto|].
  injection H as -> ->. left; reflexivity.
Qed.

Lemma bind_Normal {A B} (c : M A) (k : A -> M B) m x m1 :
  c m = (Normal x, m1) -> bind c k m = k x m1.
Proof. unfold bind. intros ->. reflexivity. Qed.

Lemma bind_Throw {A B} (c : M A) (k : A -> M B) m e m1 :
  c m = (Throw e, m1) -> bind c k m = (Throw e, m1).
Proof. unfold bind. intros ->. reflexivity. Qed.

Lemma stable_ret {A} R (v : A) : (forall m, R m m) -> stable R (ret v).
Proof. intros Hrefl m. apply Hrefl. Qed.

Lemma stable_throw {A} R e : (forall m, R m m) -> stable R (@throw AE A e).
Proof. intros Hrefl m. apply Hrefl. Qed.

Lemma stable_bind {A B} R (c : M A) (k : A -> M B) :
  (forall m1 m2 m3, R m1 m2 -> R m2 m3 -> R m1 m3) ->
  stable R c -> (forall x, stable R (k x)) -> stable R (bind c k).
Proof.
  intros Htrans Hc Hk m. unfold bind.
  specialize (Hc m). destruct (c m) as [[x|e] m1]; cbn [snd] in *; [|exact Hc].
  eapply Htrans; [exact Hc|apply Hk].
Qed.

Lemma keepsHooks_refl m : keepsHooks m m.
Proof. reflexivity. Qed.

Lemma keepsHooks_trans m1 m2 m3 : keepsHooks m1 m2 -> keepsHooks m2 m3 -> keepsHooks m1 m3.
Proof. unfold keepsHooks. intros H12 H23. rewrite H23. exact H12. Qed.

Lemma keepsHooks_await {A} (op : Env -> Completion A * Env) : stable keepsHooks (Studio.await op).
Proof. intros m. unfold Studio.await. destruct (op _). reflexivity. Qed.

Lemma keepsHooks_awaitService {A} (op : Async Env A) : stable keepsHooks (Studio.awaitService op).
Proof. intros m. unfold Studio.awaitService. destruct (op _). reflexivity. Qed.

Lemma keepsHooks_setProgress p : stable keepsHooks (Studio.setProgress p).
Proof. intros m. reflexivity. Qed.

Lemma keepsHooks_alloc seg : stable keepsHooks (Studio.alloc seg).
Proof. intros m. reflexivity. Qed.

Lemma keepsHooks_deref ref : stable keepsHooks (Studio.deref ref).
Proof. intros m. unfold Studio.deref. destruct (heap m !! ref); reflexivity. Qed.

Lemma keepsHooks_assign ref f : stable keepsHooks (Studio.assign ref f).
Proof. intros m. reflexivity. Qed.

Lemma keepsHooks_synthesize voice text ctx : stable keepsHooks (Studio.synthesize voice text ctx).
Proof.
  unfold Studio.synthesize. destruct (VoiceProfile.engine voice).
  - apply keepsHooks_await.
  - apply stable_bind; [exact keepsHooks_trans|apply keepsHooks_awaitService|].
    intros base64. apply keepsHooks_await.
Qed.

Lemma keepsHooks_iteration vmap provider ctx total i ref acc :
  stable keepsHooks (Studio.iteration vmap provider ctx total i ref acc).
Proof.
  unfold Studio.iteration.
  apply stable_bind; [exact keepsHooks_trans|apply keepsHooks_deref|]. intros seg.
  apply stable_bind; [exact keepsHooks_trans|apply keepsHooks_setProgress|]. intros _.
  apply stable_bind; [exact keepsHooks_trans| |].
  { destruct (Voices.resolveVoice _ _ _ _);
      [apply stable_ret|apply stable_throw]; exact keepsHooks_refl. }
  intros voice.
  apply stable_bind; [exact keepsHooks_trans|apply keepsHooks_synthesize|]. intros buffer.
  apply stable_bind; [exact keepsHooks_trans|apply keepsHooks_assign|]. intros _.
  apply stable_ret; exact keepsHooks_refl.
Qed.

Lemma keepsHooks_loop vmap provider ctx total refs :
  forall i acc, stable keepsHooks (Studio.loop vmap provider ctx total i refs acc).
Proof.
  induction refs as [|ref refs IH]; intros i acc; cbn [Studio.loop].
  - apply stable_ret; exact keepsHooks_refl.
  - apply stable_bind; [exact keepsHooks_trans|apply keepsHooks_iteration|].
    intros acc'. apply IH.
Qed.

Lemma keepsHooks_introduce h : stable keepsHooks (Studio.introduce h).
Proof.
  unfold Studio.introduce.
  apply stable_bind; [exact keepsHooks_trans|apply keepsHooks_alloc|]. intros intro.
  apply stable_bind; [exact keepsHooks_trans|apply keepsHooks_alloc|]. intros outro.
  apply stable_ret; exact keepsHooks_refl.
Qed.

Lemma keepsHooks_synthesizeAll h model ctx :
  stable keepsHooks (Studio.synthesizeAll h model ctx).
Proof.
  unfold Studio.synthesizeAll.
  apply stable_bind; [exact keepsHooks_trans|apply keepsHooks_introduce|]. intros allSegments.
  apply stable_bind; [exact keepsHooks_trans|apply keepsHooks_loop|]. intros acc.
  apply stable_ret; exact keepsHooks_refl.
Qed.

(** The loop stops at the first iteration that throws. *)
Lemma loop_stops_at_failure vmap provider ctx total done :
  forall i acc m ref todo acc1 m1 err m2,
    Studio.loop vmap provider ctx total i done acc m = (Normal acc1, m1) ->
    Studio.iteration vmap provider ctx total (i + length done) ref acc1 m1 = (Throw err, m2) ->
    Studio.loop vmap provider ctx total i (done ++ ref :: todo) acc m = (Throw err, m2).
Proof.
  induction done as [|r done IH]; intros i acc m ref todo acc1 m1 err m2 Hdone Hfail.
  - cbn in Hdone. injection Hdone as <- <-.
    cbn [app Studio.loop length] in *. rewrite Nat.add_0_r in Hfail.
    apply bind_Throw. exact Hfail.
  - cbn [app Studio.loop] in *.
    apply bind_Normal_inv in Hdone as (acc' & m' & Hstep & Hrest).
    rewrite (bind_Normal _ _ _ _ _ Hstep).
    eapply IH; [exact Hrest|].
    cbn [length] in Hfail. rewrite <- Nat.add_succ_comm in Hfail. exact Hfail.
Qed.

(** What the preamble leaves behind when it completes. *)
Lemma preamble_effect st ctx m model m1 :
  Studio.preamble st ctx m = (Normal model, m1) ->
  fullAudioUrl (hooks m1) = None
  /\ srtUrl (hooks m1) = None
  /\ history (hooks m1) = history (hooks m)
  /\ segments (hooks m1) = segments (hooks m)
  /\ heap m1 = heap m
  /\ reports m1 = reports m.
Proof.
  unfold Studio.preamble. intros H.
  apply bind_Normal_inv in H as ([] & ma & Ha & H).
  unfold Studio.await in Ha. destruct (ensureAudioContext ctx _) as [c e1].
  injection Ha as -> <-.
  cbn -[ModelRouter.selectModel] in H.
  destruct (ModelRouter.selectModel _ _) as [d|e]; [|discriminate].
  cbn in H. destruct (ModelRouter.model d) as [mc|]; [|discriminate].
  cbn in H. injection H as <- <-. cbn. repeat split.
Qed.

End MachineLaws.

(** ** A failed segment aborts the run *)

Section Abort.
Context {AE : AudioEngine}.
Import App PipelineSpec.

(** C5, amended: when the synthesis of a segment fails during a
    production run - the segments before it ([done]) having been
    synthesized, the iteration for [ref], be it intro, script segment or
    outro, throws [err] - the run is abandoned there, and the error is
    caught, not propagated: the handler returns normally, its catch block
    having reported the error ("Production failed: <message>" in the
    log, progress "Pipeline Error").  Nothing is published: the audio URL
    and the subtitle URL stay cleared, the history gains no entry, and
    the buffers accumulated so far are dropped with the loop (the final
    machine is the one the failing iteration left, but for the report and
    the [isGenerating] flag, which is cleared). *)
Theorem C5_segment_failure_aborts_run :
  forall (m : Machine) (ctx : AudioContext) (model : ModelConfig.t) (m1 : Machine)
         (allSegments : list Ref) (m2 : Machine)
         (done : list Ref) (ref : Ref) (todo : list Ref)
         (acc : Studio.Acc) (m3 : Machine) (err : Thrown) (m4 : Machine),
    AppState.isGenerating (state (hooks m)) = false ->
    segments (hooks m) <> [] ->
    audioContextRef (hooks m) = Some ctx ->
    Studio.preamble (state (hooks m)) ctx m = (Normal model, m1) ->
    Studio.introduce (hooks m) m1 = (Normal allSegments, m2) ->
    allSegments = done ++ ref :: todo ->
    Studio.loop (AppState.speakerVoiceMap (state (hooks m))) (ModelConfig.provider model) ctx
      (length allSegments) 0 done Studio.emptyAcc m2 = (Normal acc, m3) ->
    Studio.iteration (AppState.speakerVoiceMap (state (hooks m))) (ModelConfig.provider model) ctx
      (length allSegments) (length done) ref acc m3 = (Throw err, m4) ->
    exists m',
      Studio.handlePodcastProduction m = (Normal tt, m')
      /\ fullAudioUrl (hooks m') = None
      /\ srtUrl (hooks m') = None
      /\ history (hooks m') = history (hooks m)
      /\ progress (hooks m') = Studio.pipelineError
      /\ logs (hooks m')
         = take 100 (logged LogEntry.error ("Production failed: " +:+ JS.showMessage err) m4
                     :: logs (hooks m1))
      /\ AppState.isGenerating (state (hooks m')) = false
      /\ world m' = world m4
      /\ heap m' = heap m4.
Proof.
  intros m ctx model m1 allSegments m2 done ref todo acc m3 err m4
         Hidle Hsegs Hctx Hpre Hintro Hsplit Hdone Hfail.
  assert (Hloop : Studio.loop (AppState.speakerVoiceMap (state (hooks m)))
                    (ModelConfig.provider model) ctx
                    (length allSegments) 0 allSegments Studio.emptyAcc m2 = (Throw err, m4)).
  { rewrite Hsplit at 2. eapply loop_stops_at_failure; [exact Hdone|exact Hfail]. }
  assert (Hall : Studio.synthesizeAll (hooks m) model ctx m1 = (Throw err, m4)).
  { unfold Studio.synthesizeAll. rewrite (bind_Normal _ _ _ _ _ Hintro).
    apply bind_Throw. exact Hloop. }
  assert (Hproduce : Studio.produce (hooks m) model ctx m1 = (Throw err, m4)).
  { unfold Studio.produce. apply bind_Throw. exact Hall. }
  assert (Hkeep : keepsHooks m1 m4).
  { pose proof (keepsHooks_synthesizeAll (hooks m) model ctx m1) as Hk.
    rewrite Hall in Hk. exact Hk. }
  destruct (preamble_effect _ _ _ _ _ Hpre) as (Hurl & Hsrt & Hhist & _ & _ & _).
  unfold keepsHooks, besidesProgress in Hkeep.
  injection Hkeep as Hst Hscr Htop Hseg Hfu Hsu Hcov Hlog Hhis Hctx'.
  eexists. split.
  - unfold Studio.handlePodcastProduction. cbv zeta.
    rewrite Hidle, Hctx. cbn [orb].
    destruct (segments (hooks m)) as [|r0 rs]; [contradiction|]. cbn [length Nat.eqb].
    unfold Studio.run. rewrite (bind_Normal _ _ _ _ _ Hpre).
    unfold tryCatchFinally. rewrite Hproduce. reflexivity.
  - cbn. rewrite Hfu, Hsu, Hhis, Hlog, Hurl, Hsrt, Hhist. repeat split.
Qed.

End Abort.

(** The end-to-end scenario of the specification: three script lines with
    intro and outro make five segments; the budget of the speech engine
    lasts for three of them, so the fourth fails. *)
Lemma C5_segment_failure_aborts_run_witness :
  exists m' : App.Machine,
    Studio.handlePodcastProduction
      (Bench.defaultSession (Bench.appState FREE "balanced" MP3)
         (Bench.mkEnv (Some 3%nat) [] 1700000000000 0))
    = (Normal tt, m')
    /\ App.fullAudioUrl (App.hooks m') = None
    /\ App.srtUrl (App.hooks m') = None
    /\ App.history (App.hooks m') = []
    /\ App.progress (App.hooks m') = Studio.pipelineError
    /\ map LogEntry.message (App.logs (App.hooks m'))
       = ["Production failed: synthesis-failed";
          "Production pipeline online: Microsoft Edge Neural (Free)."].
Proof.
  pose (m := Bench.defaultSession (Bench.appState FREE "balanced" MP3)
               (Bench.mkEnv (Some 3%nat) [] 1700000000000 0)).
  pose (model := ModelConfig.mk "edge-neural-voices" Provider.openai
                   "Microsoft Edge Neural (Free)" [cap_audio] None (Some 0%float)
                   1000 true auth_none).
  pose (pre := Studio.preamble (App.state (App.hooks m)) tt m).
  pose (intro := Studio.introduce (App.hooks m) (snd pre)).
  pose (vmap := AppState.speakerVoiceMap (App.state (App.hooks m))).
  pose (lp := Studio.loop vmap Provider.openai tt 5 0 [3%nat; 0%nat; 1%nat]
                Studio.emptyAcc (snd intro)).
  pose (acc := match fst lp with Normal a => a | Throw _ => Studio.emptyAcc end).
  destruct (C5_segment_failure_aborts_run (AE := Bench.engine) m tt model (snd pre)
              [3%nat; 0%nat; 1%nat; 2%nat; 4%nat] (snd intro)
              [3%nat; 0%nat; 1%nat] 2%nat [4%nat] acc (snd lp)
              (JS.Error "synthesis-failed")
              (snd (Studio.iteration (AE := Bench.engine) vmap Provider.openai tt 5 3
                      2%nat acc (snd lp))))
    as (m' & Hrun & Hurl & Hsrt & Hhist & Hprog & Hlogs & _);
    try (vm_compute; reflexivity).
  - vm_compute. discriminate.
  - exists m'. split; [exact Hrun|]. split; [exact Hurl|]. split; [exact Hsrt|].
    split; [exact Hhist|]. split; [exact Hprog|].
    rewrite Hlogs. vm_compute. reflexivity.
Defined.

(** C5 as stated fails on the code: the error of a failed segment is
    not propagated out of the run.  On the default session with a speech
    engine that fails at the third call, the synthesis of the second
    script segment throws "synthesis-failed" and the handler returns
    normally: the [catch] block of lines 393-395 keeps the error.  Stated
    as the negation of "when the iteration of a segment throws [err],
    the handler ends with [err]". *)
Lemma C5_segment_error_is_not_propagated :
  fst (Studio.handlePodcastProduction (AE := Bench.engine)
         (Bench.defaultSession (Bench.appState FREE "balanced" MP3)
            (Bench.mkEnv (Some 3%nat) [] 1700000000000 0)))
  = Normal tt
  /\ ~ (forall (m : App.Machine) (ctx : unit) (model : ModelConfig.t) (m1 : App.Machine)
               (allSegments : list nat) (m2 : App.Machine)
               (done : list nat) (ref : nat) (todo : list nat)
               (acc : Studio.Acc) (m3 : App.Machine) (err : Thrown) (m4 : App.Machine),
          AppState.isGenerating (App.state (App.hooks m)) = false ->
          App.segments (App.hooks m) <> [] ->
          App.audioContextRef (App.hooks m) = Some ctx ->
          Studio.preamble (AE := Bench.engine) (App.state (App.hooks m)) ctx m
          = (Normal model, m1) ->
          Studio.introduce (App.hooks m) m1 = (Normal allSegments, m2) ->
          allSegments = done ++ ref :: todo ->
          Studio.loop (AppState.speakerVoiceMap (App.state (App.hooks m)))
            (ModelConfig.provider model) ctx
            (length allSegments) 0 done Studio.emptyAcc m2 = (Normal acc, m3) ->
          Studio.iteration (AppState.speakerVoiceMap (App.state (App.hooks m)))
            (ModelConfig.provider model) ctx
            (length allSegments) (length done) ref acc m3 = (Throw err, m4) ->
          fst (Studio.handlePodcastProduction m) = Throw err).
Proof.
  split; [vm_compute; reflexivity|]. intros H.
  pose (m := Bench.defaultSession (Bench.appState FREE "balanced" MP3)
               (Bench.mkEnv (Some 3%nat) [] 1700000000000 0)).
  pose (pre := Studio.preamble (AE := Bench.engine) (App.state (App.hooks m)) tt m).
  pose (intro := Studio.introduce (App.hooks m) (snd pre)).
  pose (vmap := AppState.speakerVoiceMap (App.state (App.hooks m))).
  pose (lp := Studio.loop (AE := Bench.engine) vmap Provider.openai tt 5 0
                [3%nat; 0%nat; 1%nat] Studio.emptyAcc (snd intro)).
  pose (acc := match fst lp with Normal a => a | Throw _ => Studio.emptyAcc end).
  specialize (H m tt Bench.edgeNeural (snd pre)
                [3%nat; 0%nat; 1%nat; 2%nat; 4%nat] (snd intro)
                [3%nat; 0%nat; 1%nat] 2%nat [4%nat] acc (snd lp)
                (JS.Error "synthesis-failed")
                (snd (Studio.iteration (AE := Bench.engine) vmap Provider.openai tt 5 3
                        2%nat acc (snd lp)))).
  assert (Hrun : fst (Studio.handlePodcastProduction (AE := Bench.engine) m)
                 = Throw (JS.Error "synthesis-failed")).
  { apply H; try (vm_compute; reflexivity). vm_compute. discriminate. }
  vm_compute in Hrun. discriminate Hrun.
Qed.

(** ** What one iteration and the loop do *)

Section Loop.
Context {AE : AudioEngine}.
Import App PipelineSpec.

Lemma onlyWorld_trans m1 m2 m3 : onlyWorld m1 m2 -> onlyWorld m2 m3 -> onlyWorld m1 m3.
Proof.
  unfold onlyWorld. intros (H1 & H2 & H3) (H4 & H5 & H6).
  rewrite H4, H5, H6. auto.
Qed.

Lemma onlyWorld_await {A} (op : Env -> Completion A * Env) : stable onlyWorld (Studio.await op).
Proof. intros m. unfold Studio.await. destruct (op _). repeat split. Qed.

Lemma onlyWorld_awaitService {A} (op : Async Env A) : stable onlyWorld (Studio.awaitService op).
Proof. intros m. unfold Studio.awaitService. destruct (op _). repeat split. Qed.

Lemma onlyWorld_synthesize voice text ctx : stable onlyWorld (Studio.synthesize voice text ctx).
Proof.
  unfold Studio.synthesize. destruct (VoiceProfile.engine voice).
  - apply onlyWorld_await.
  - apply stable_bind; [exact onlyWorld_trans|apply onlyWorld_awaitService|].
    intros base64. apply onlyWorld_await.
Qed.

(** A completed iteration has issued its report, then synthesized a
    buffer, then stamped the object behind [ref] with the running total
    and the duration of that buffer, and handed buffer and new total on. *)
Lemma iteration_Normal vmap provider ctx total i ref acc m acc' m' :
  Studio.iteration vmap provider ctx total i ref acc m = (Normal acc', m') ->
  exists seg buffer,
    heap m !! ref = Some seg
    /\ heap m' = <[ref := PodcastSegment.timed seg (Studio.currentTotalTime acc)
                            (buffer_duration buffer)]> (heap m)
    /\ acc' = {| Studio.audioBuffers := Studio.audioBuffers acc ++ [buffer];
                 Studio.currentTotalTime :=
                   PrimFloat.add (Studio.currentTotalTime acc) (buffer_duration buffer) |}
    /\ reports m' = reports m ++ [iterationReport i total (PodcastSegment.speaker seg)].
Proof.
  unfold Studio.iteration. intros H.
  apply bind_Normal_inv in H as (seg & ma & Hderef & H).
  unfold Studio.deref in Hderef.
  destruct (heap m !! ref) as [seg0|] eqn:Hlk; [|discriminate].
  injection Hderef as <- <-.
  apply bind_Normal_inv in H as ([] & mb & Hsp & H).
  unfold Studio.setProgress in Hsp. injection Hsp as <-.
  apply bind_Normal_inv in H as (voice & mc & Hv & H).
  destruct (Voices.resolveVoice _ _ _ _) as [v|]; [|discriminate].
  unfold ret in Hv. injection Hv as <- <-.
  apply bind_Normal_inv in H as (buffer & md & Hsyn & H).
  match type of Hsyn with
  | Studio.synthesize ?v ?t ?c ?m0 = _ =>
      pose proof (onlyWorld_synthesize v t c m0) as (Hheap & Hhooks & Hrep)
  end.
  rewrite Hsyn in Hheap, Hhooks, Hrep. cbn [snd heap reports] in Hheap, Hrep.
  apply bind_Normal_inv in H as ([] & me & Hasg & H).
  unfold Studio.assign in Hasg. injection Hasg as <-.
  unfold ret in H. injection H as <- <-.
  exists seg0, buffer. cbn [heap reports]. rewrite Hheap, Hlk, Hrep.
  repeat split.
Qed.

(** Whatever its outcome, an iteration that finds its segment issues its
    report, and issues it first. *)
Lemma iteration_reports_first vmap provider ctx total i ref acc m seg :
  heap m !! ref = Some seg ->
  reports (snd (Studio.iteration vmap provider ctx total i ref acc m))
  = reports m ++ [iterationReport i total (PodcastSegment.speaker seg)].
Proof.
  intros Hlk. unfold Studio.iteration, bind at 1, Studio.deref. rewrite Hlk.
  unfold bind at 1, Studio.setProgress.
  unfold bind at 1.
  destruct (Voices.resolveVoice _ _ _ _) as [v|]; [|reflexivity].
  unfold ret at 1. unfold bind at 1.
  match goal with
  | |- context [Studio.synthesize ?v ?t ?c ?m0] =>
      pose proof (onlyWorld_synthesize v t c m0) as (_ & _ & Hrep);
      destruct (Studio.synthesize v t c m0) as [[buffer|e] md]
  end; cbn [snd reports] in *; [|exact Hrep].
  exact Hrep.
Qed.

(** An iteration that throws has assigned nothing: the segment objects
    are as they were. *)
Lemma iteration_Throw_heap vmap provider ctx total i ref acc m err m' :
  Studio.iteration vmap provider ctx total i ref acc m = (Throw err, m') ->
  heap m' = heap m.
Proof.
  unfold Studio.iteration. intros H.
  apply bind_Throw_inv in H as [H | (seg & ma & Hderef & H)].
  { unfold Studio.deref in H. destruct (heap m !! ref); [discriminate|].
    injection H as _ <-. reflexivity. }
  unfold Studio.deref in Hderef. destruct (heap m !! ref); [|discriminate].
  injection Hderef as <- <-.
  apply bind_Throw_inv in H as [H | ([] & mb & Hsp & H)]; [discriminate|].
  unfold Studio.setProgress in Hsp. injection Hsp as <-.
  apply bind_Throw_inv in H as [H | (voice & mc & Hv & H)].
  { destruct (Voices.resolveVoice _ _ _ _); [discriminate|].
    unfold throw in H. injection H as _ <-. reflexivity. }
  destruct (Voices.resolveVoice _ _ _ _) as [v|]; [|discriminate].
  unfold ret in Hv. injection Hv as <- <-.
  apply bind_Throw_inv in H as [H | (buffer & md & Hsyn & H)].
  - match type of H with
    | Studio.synthesize ?v ?t ?c ?m0 = _ =>
        pose proof (onlyWorld_synthesize v t c m0) as (Hheap & _ & _)
    end.
    rewrite H in Hheap. exact Hheap.
  - apply bind_Throw_inv in H as [H | ([] & me & Hasg & H)]; discriminate.
Qed.

(** The reports of a completed loop: one per iteration, in order. *)
Lemma loop_percent vmap provider ctx total refs :
  forall i acc m acc' m',
    Studio.loop vmap provider ctx total i refs acc m = (Normal acc', m') ->
    map Progress.percent (reports m')
    = map Progress.percent (reports m)
      ++ map (fun j => Studio.synthesisProgress j total) (seq i (length refs)).
Proof.
  induction refs as [|ref refs IH]; intros i acc m acc' m' H; cbn [Studio.loop] in H.
  - unfold ret in H. injection H as <- <-. cbn. rewrite app_nil_r. reflexivity.
  - apply bind_Normal_inv in H as (acc1 & m1 & Hstep & Hrest).
    apply iteration_Normal in Hstep as (seg & buffer & _ & _ & _ & Hrep).
    rewrite (IH _ _ _ _ _ Hrest), Hrep, map_app, <- app_assoc. reflexivity.
Qed.

(** A completed loop over pairwise distinct segment objects: the buffers
    come in segment order, and the object at position [k] carries the sum
    of the durations before it and the duration of its own buffer. *)
Lemma loop_Normal_distinct vmap provider ctx total refs :
  forall i acc m acc' m',
    NoDup refs ->
    Studio.loop vmap provider ctx total i refs acc m = (Normal acc', m') ->
    exists buffers : list AudioBuffer,
      Studio.audioBuffers acc' = Studio.audioBuffers acc ++ buffers
      /\ length buffers = length refs
      /\ (forall r, r ∉ refs -> heap m' !! r = heap m !! r)
      /\ (forall k r, refs !! k = Some r ->
            exists seg buffer,
              heap m !! r = Some seg
              /\ buffers !! k = Some buffer
              /\ heap m' !! r
                 = Some (PodcastSegment.timed seg
                           (fold_left PrimFloat.add (map buffer_duration (take k buffers))
                              (Studio.currentTotalTime acc))
                           (buffer_duration buffer))).
Proof.
  induction refs as [|ref refs IH]; intros i acc m acc' m' Hnd H; cbn [Studio.loop] in H.
  - unfold ret in H. injection H as <- <-. exists [].
    rewrite app_nil_r.
    split; [reflexivity|]. split; [reflexivity|]. split; [reflexivity|].
    intros k r Hk. discriminate Hk.
  - apply NoDup_cons in Hnd as [Hfresh Hnd].
    apply bind_Normal_inv in H as (acc1 & m1 & Hstep & Hrest).
    apply iteration_Normal in Hstep as (seg & buffer & Hlk & Hheap & Hacc & _).
    destruct (IH _ _ _ _ _ Hnd Hrest) as (buffers & Hbufs & Hlen & Hframe & Htimes).
    assert (Hlt : (ref < length (heap m))%nat) by (eapply lookup_lt_Some; eassumption).
    exists (buffer :: buffers). subst acc1. cbn [Studio.audioBuffers Studio.currentTotalTime] in *.
    split; [rewrite Hbufs, <- app_assoc; reflexivity|].
    split; [cbn; rewrite Hlen; reflexivity|].
    split.
    + intros r Hr. apply not_elem_of_cons in Hr as [Hne Hr].
      rewrite (Hframe r Hr), Hheap. apply list_lookup_insert_ne. congruence.
    + intros [|k] r Hk; cbn in Hk.
      * injection Hk as <-. exists seg, buffer.
        split; [exact Hlk|]. split; [reflexivity|].
        rewrite (Hframe ref Hfresh), Hheap. cbn.
        apply list_lookup_insert_eq. exact Hlt.
      * destruct (Htimes k r Hk) as (seg' & buffer' & Hlk' & Hbk & Hfinal).
        assert (Hne : ref <> r).
        { intros ->. apply Hfresh. eapply list_elem_of_lookup_2; eassumption. }
        exists seg', buffer'.
        rewrite Hheap, list_lookup_insert_ne in Hlk' by exact Hne.
        split; [exact Hlk'|]. split; [exact Hbk|]. exact Hfinal.
Qed.

End Loop.

(** ** The run as a whole *)

Section Run.
Context {AE : AudioEngine}.
Import App PipelineSpec.

(** Delivery cannot fail; it publishes the encoding of the concatenation
    of exactly the buffers it is given. *)
Lemma deliver_effect h model ctx allSegments buffers m :
  exists m',
    Studio.deliver h model ctx allSegments buffers m = (Normal tt, m')
    /\ fullAudioUrl (hooks m')
       = Some (AudioURL (Studio.encode (AppState.exportFormat (state h))
                           (concatenateAudioBuffers buffers ctx)))
    /\ srtUrl (hooks m')
       = Some (TextURL (generateSRT (Studio.objects (heap m) allSegments)))
    /\ heap m' = heap m
    /\ reports m' = reports m ++ [broadcastReady]
    /\ length (history (hooks m')) = Nat.min 20 (S (length (history (hooks m)))).
Proof.
  unfold Studio.deliver, bind, ret, Studio.setFullAudioUrl, Studio.setSrtUrl,
    Studio.setProgress, Studio.addLog, Studio.setLogs, Studio.setHistory,
    Studio.withHooks, Studio.await.
  cbn [hooks world heap reports env timers state script topic segments fullAudioUrl
       srtUrl coverArtUrl progress logs history audioContextRef fst snd].
  destruct (crypto_randomUUID (env (world m))) as [uuid e1].
  eexists. split; [reflexivity|].
  cbn [hooks world heap reports env timers state script topic segments fullAudioUrl
       srtUrl coverArtUrl progress logs history audioContextRef fst snd].
  repeat split. rewrite length_take. reflexivity.
Qed.

Lemma appendWatermark_Normal tier ctx buffers m bs m' :
  Studio.appendWatermark tier ctx buffers m = (Normal bs, m') ->
  onlyWorld m m'
  /\ (tier = FREE ->
      exists wm, createWatermarkBuffer ctx (env (world m)) = (Normal wm, env (world m'))
                 /\ bs = buffers ++ [wm])
  /\ (tier <> FREE -> bs = buffers /\ m' = m).
Proof.
  intros H. destruct tier; cbn [Studio.appendWatermark] in H.
  - apply bind_Normal_inv in H as (wm & m1 & Hwm & H).
    unfold ret in H. injection H as <- <-.
    unfold Studio.await in Hwm.
    destruct (createWatermarkBuffer ctx (env (world m))) as [[wm'|e] e1] eqn:Hcall;
      [|discriminate].
    injection Hwm as <- <-. cbn.
    split; [repeat split|]. split; [|congruence].
    intros _. exists wm'. split; reflexivity.
  - unfold ret in H. injection H as <- <-.
    split; [repeat split|]. split; [discriminate|auto].
  - unfold ret in H. injection H as <- <-.
    split; [repeat split|]. split; [discriminate|auto].
Qed.

(** The phases a completed [try] block went through. *)
Lemma produce_Normal_inv h model ctx m m' :
  Studio.produce h model ctx m = (Normal tt, m') ->
  exists allSegments acc m1 buffers m2,
    Studio.synthesizeAll h model ctx m = (Normal (allSegments, acc), m1)
    /\ Studio.appendWatermark (AppState.tier (state h)) ctx (Studio.audioBuffers acc)
         (snd (Studio.setProgress finalMix m1)) = (Normal buffers, m2)
    /\ Studio.deliver h model ctx allSegments buffers m2 = (Normal tt, m').
Proof.
  unfold Studio.produce. intros H.
  apply bind_Normal_inv in H as ([allSegments acc] & m1 & Hall & H).
  apply bind_Normal_inv in H as ([] & ma & Hsp & H).
  unfold Studio.setProgress in Hsp. injection Hsp as <-.
  apply bind_Normal_inv in H as (buffers & m2 & Hwm & H).
  exists allSegments, acc, m1, buffers, m2. auto.
Qed.

Lemma introduce_eq h m :
  Studio.introduce h m
  = (Normal (length (heap m) :: segments h ++ [S (length (heap m))]),
     {| world := world m;
        heap := (heap m
                 ++ [PodcastSegment.mk "intro" "System" (AppState.introText (state h))
                       None PodcastSegment.pending None None])
                ++ [PodcastSegment.mk "outro" "System" (AppState.outroText (state h))
                      None PodcastSegment.pending None None];
        hooks := hooks m;
        reports := reports m |}).
Proof.
  unfold Studio.introduce, bind, Studio.alloc, ret. cbn [heap].
  rewrite length_app. cbn [length]. rewrite Nat.add_1_r. reflexivity.
Qed.

Lemma synthesizeAll_Normal_inv h model ctx m allSegments acc m1 :
  Studio.synthesizeAll h model ctx m = (Normal (allSegments, acc), m1) ->
  exists m0,
    Studio.introduce h m = (Normal allSegments, m0)
    /\ allSegments = length (heap m) :: segments h ++ [S (length (heap m))]
    /\ length (heap m0) = S (S (length (heap m)))
    /\ (forall r, (r < length (heap m))%nat -> heap m0 !! r = heap m !! r)
    /\ reports m0 = reports m
    /\ Studio.loop (AppState.speakerVoiceMap (state h)) (ModelConfig.provider model) ctx
         (length allSegments) 0 allSegments Studio.emptyAcc m0 = (Normal acc, m1).
Proof.
  unfold Studio.synthesizeAll. intros H.
  apply bind_Normal_inv in H as (refs & m0 & Hintro & H).
  apply bind_Normal_inv in H as (acc0 & ma & Hloop & H).
  unfold ret in H. injection H as <- <- <-.
  exists m0. split; [exact Hintro|].
  rewrite introduce_eq in Hintro. injection Hintro as Hrefs Hm0.
  split; [symmetry; exact Hrefs|].
  split; [rewrite <- Hm0; cbn [heap]; rewrite !length_app; cbn [length]; lia|].
  split; [|split; [rewrite <- Hm0; reflexivity|exact Hloop]].
  intros r Hr. rewrite <- Hm0. cbn [heap]. rewrite <- app_assoc.
  apply lookup_app_l. exact Hr.
Qed.

(** C7: the watermark buffer is appended to the buffer sequence exactly
    for the FREE tier.  (1) [appendWatermark] returns the buffers with one
    watermark buffer at the end when the tier is FREE, and returns them
    untouched, doing nothing, when it is PRO or ENTERPRISE.  (2) The
    synthesis of the segments does not look at the tier: for the same
    script and configuration it is the same computation at every tier.
    (3) In a completed run the published audio is the encoding of the
    concatenation of the segment buffers, followed by the watermark iff
    the tier is FREE - so the watermark comes after all script content
    and before encoding. *)
Theorem C7_watermark_iff_free_tier :
  (forall tier ctx buffers m bs m',
      Studio.appendWatermark tier ctx buffers m = (Normal bs, m') ->
      (tier = FREE ->
       exists wm, createWatermarkBuffer ctx (env (world m)) = (Normal wm, env (world m'))
                  /\ bs = buffers ++ [wm])
      /\ (tier = PRO \/ tier = ENTERPRISE -> bs = buffers /\ m' = m))
  /\ (forall tier h model ctx m,
      Studio.synthesizeAll (retier tier h) model ctx m = Studio.synthesizeAll h model ctx m)
  /\ (forall h model ctx m m',
      Studio.produce h model ctx m = (Normal tt, m') ->
      exists allSegments acc m1 bs,
        Studio.synthesizeAll h model ctx m = (Normal (allSegments, acc), m1)
        /\ fullAudioUrl (hooks m')
           = Some (AudioURL (Studio.encode (AppState.exportFormat (state h))
                               (concatenateAudioBuffers bs ctx)))
        /\ (AppState.tier (state h) = FREE ->
            exists wm, bs = Studio.audioBuffers acc ++ [wm])
        /\ (AppState.tier (state h) = PRO \/ AppState.tier (state h) = ENTERPRISE ->
            bs = Studio.audioBuffers acc)).
Proof.
  split; [|split].
  - intros tier ctx buffers m bs m' H.
    apply appendWatermark_Normal in H as (_ & Hfree & Hpaid).
    split; [exact Hfree|]. intros [-> | ->]; apply Hpaid; discriminate.
  - intros tier h model ctx m. reflexivity.
  - intros h model ctx m m' H.
    apply produce_Normal_inv in H as (allSegments & acc & m1 & bs & m2 & Hall & Hwm & Hdel).
    exists allSegments, acc, m1, bs. split; [exact Hall|].
    destruct (deliver_effect h model ctx allSegments bs m2) as (m'' & Hd & Hurl & _).
    rewrite Hdel in Hd. injection Hd as <-.
    split; [exact Hurl|].
    apply appendWatermark_Normal in Hwm as (_ & Hfree & Hpaid).
    split.
    + intros Ht. destruct (Hfree Ht) as (wm & _ & ->). eauto.
    + intros Ht. apply Hpaid. destruct Ht as [Ht | Ht]; rewrite Ht; discriminate.
Qed.

(** C9, amended: what the run reports while it proceeds.  A completed
    run over [n] script segments, [total = n + 2] with intro and outro,
    has issued one report at the start of each loop iteration [i] - that
    is with [i] segments completed - carrying
    [Math.round((i / total) * 90)], then 95 after the last segment and 100
    after delivery.  The report of an iteration is issued before its
    synthesis, whatever the outcome of that synthesis. *)
Theorem C9_progress_reports :
  (forall h model ctx m m',
      Studio.produce h model ctx m = (Normal tt, m') ->
      map Progress.percent (reports m')
      = map Progress.percent (reports m)
        ++ map (fun i => JS.Math_round
                           (PrimFloat.mul (fractionDone i (length (segments h) + 2)) 90%float))
             (seq 0 (length (segments h) + 2))
        ++ [95%float; 100%float])
  /\ (forall vmap provider ctx total i ref acc m seg,
      heap m !! ref = Some seg ->
      reports (snd (Studio.iteration vmap provider ctx total i ref acc m))
      = reports m
        ++ [Progress.mk (JS.Math_round (PrimFloat.mul (fractionDone i total) 90%float))
              ("Synthesizing: " +:+ PodcastSegment.speaker seg)
              ("Mastering Phase [" +:+ JS.showNat (i + 1) +:+ "/" +:+ JS.showNat total +:+ "]")]).
Proof.
  split.
  - intros h model ctx m m' H.
    apply produce_Normal_inv in H as (allSegments & acc & m1 & bs & m2 & Hall & Hwm & Hdel).
    destruct (deliver_effect h model ctx allSegments bs m2) as (m'' & Hd & _ & _ & _ & Hrep & _).
    rewrite Hdel in Hd. injection Hd as <-.
    apply appendWatermark_Normal in Hwm as ((_ & _ & Hrep2) & _).
    cbn [snd Studio.setProgress reports] in Hrep2.
    apply synthesizeAll_Normal_inv in Hall as (m0 & _ & Hsegs & _ & _ & Hrep0 & Hloop).
    apply loop_percent in Hloop.
    rewrite Hrep, Hrep2, !map_app, Hloop, Hrep0.
    assert (Hlen : length allSegments = (length (segments h) + 2)%nat).
    { rewrite Hsegs. cbn [length]. rewrite length_app. cbn [length]. lia. }
    rewrite Hlen, <- !app_assoc. reflexivity.
  - intros vmap provider ctx total i ref acc m seg Hlk.
    apply iteration_reports_first. exact Hlk.
Qed.

End Run.

(** The bench at both ends of the tier scale: the same script, the same
    segment buffers, one watermark more on the FREE tier. *)
Lemma C7_watermark_iff_free_tier_witness :
  (exists wm : list string,
      createWatermarkBuffer tt Bench.reliable = (Normal wm, Bench.reliable)
      /\ [["intro"]; ["line"]; ["outro"]; ["(watermark)"]]
         = [["intro"]; ["line"]; ["outro"]] ++ [wm])
  /\ Studio.appendWatermark ENTERPRISE tt [["intro"]; ["line"]; ["outro"]] Bench.defaultReady
     = (Normal [["intro"]; ["line"]; ["outro"]], Bench.defaultReady).
Proof.
  split.
  - apply (proj1 (proj1 (C7_watermark_iff_free_tier (AE := Bench.engine))
                    FREE tt [["intro"]; ["line"]; ["outro"]]
                    Bench.defaultReady [["intro"]; ["line"]; ["outro"]; ["(watermark)"]]
                    Bench.defaultReady eq_refl)).
    reflexivity.
  - reflexivity.
Defined.

Ltac float_neq H :=
  apply (f_equal Prim2SF) in H; vm_compute in H; discriminate H.

(** C9 as stated fails on the code.  In the run of the default script
    (five segments with intro and outro) the reported percentages are
    0, 18, 36, 54, 72 during the loop, then 95 and 100; the fraction of
    completed segments - 1/5 after the first segment - is never reported,
    neither as a fraction nor as a percentage. *)
Lemma C9_reports_are_not_the_fraction_done :
  map Progress.percent (App.reports Bench.defaultRun)
  = [0; 18; 36; 54; 72; 95; 100]%float
  /\ ~ (forall completed, (1 <= completed <= 5)%nat ->
          In (PipelineSpec.fractionDone completed 5)
             (map Progress.percent (App.reports Bench.defaultRun)))
  /\ ~ (forall completed, (1 <= completed <= 5)%nat ->
          In (PrimFloat.mul 100 (PipelineSpec.fractionDone completed 5))
             (map Progress.percent (App.reports Bench.defaultRun))).
Proof.
  assert (Hrep : map Progress.percent (App.reports Bench.defaultRun)
                 = [0; 18; 36; 54; 72; 95; 100]%float) by (vm_compute; reflexivity).
  split; [exact Hrep|]. rewrite Hrep.
  split; intros H; specialize (H 1%nat ltac:(lia)); cbn [In] in H;
    repeat (destruct H as [H | H]; [float_neq H|]); exact H.
Qed.

(** The amended statement on the default script. *)
Lemma C9_progress_reports_witness :
  map Progress.percent
    (App.reports
       (snd (Studio.produce (App.hooks Bench.defaultReady) Bench.edgeNeural tt
               (Bench.started Bench.defaultReady))))
  = [0; 18; 36; 54; 72; 95; 100]%float.
Proof.
  rewrite (proj1 (C9_progress_reports (AE := Bench.engine))
             (App.hooks Bench.defaultReady) Bench.edgeNeural tt
             (Bench.started Bench.defaultReady)
             (snd (Studio.produce (App.hooks Bench.defaultReady) Bench.edgeNeural tt
                     (Bench.started Bench.defaultReady))));
    vm_compute; reflexivity.
Defined.

(** C6 on a script in which a line is repeated.  After the script was
    edited once more, the first and the third line are one and the same
    segment object (reference 0).  The run walks intro, the four lines,
    outro, and hands the six buffers on in that order; but the object of
    the first line is stamped a second time when the third line is
    synthesized, so that it ends with the start time 36 of the third line
    where the sum of the durations before it is 29. *)
Theorem C6_repeated_line_gets_the_later_start_time :
  App.segments (App.hooks Bench.echoReady) = [0; 1; 0; 3]%nat
  /\ App.fullAudioUrl (App.hooks Bench.echoRun)
     = Some (App.AudioURL
               ("wav", ["Welcome to Podcast Studio AI."; "Yes."; "No."; "Yes."; "Bye.";
                        "Stay curious, and thanks for listening!"]))
  /\ map PodcastSegment.startTime
       (Studio.objects (App.heap Bench.echoRun) [4; 0; 1; 0; 3; 5]%nat)
     = [Some 0; Some 36; Some 33; Some 36; Some 40; Some 44]%float
  /\ map (PipelineSpec.elapsed
            [["Welcome to Podcast Studio AI."]; ["Yes."]; ["No."]; ["Yes."]; ["Bye."];
             ["Stay curious, and thanks for listening!"]])
       (seq 0 6)
     = [0; 29; 33; 36; 40; 44]%float.
Proof. repeat split; vm_compute; reflexivity. Qed.

(** ** The export format *)

Section Format.
Context {AE : AudioEngine}.
Import App PipelineSpec.
Variable format : ExportFormat.

Local Abbreviation rf := (reformat format).

Lemma commutes_ret {A} (v : A) : commutes rf (ret v).
Proof. intros m. reflexivity. Qed.

Lemma commutes_throw {A} e : commutes rf (@throw AE A e).
Proof. intros m. reflexivity. Qed.

Lemma commutes_bind {A B} (c : M A) (k : A -> M B) :
  commutes rf c -> (forall x, commutes rf (k x)) -> commutes rf (bind c k).
Proof.
  intros Hc Hk m. unfold bind. rewrite (Hc m).
  destruct (c m) as [[x|e] m1]; cbn [fst snd]; [apply Hk|reflexivity].
Qed.

Lemma commutes_await {A} (op : Env -> Completion A * Env) : commutes rf (Studio.await op).
Proof. intros m. unfold Studio.await. cbn [world reformat env]. destruct (op _). reflexivity. Qed.

Lemma commutes_awaitService {A} (op : Async Env A) : commutes rf (Studio.awaitService op).
Proof. intros m. unfold Studio.awaitService. cbn [world reformat]. destruct (op _). reflexivity. Qed.

Lemma commutes_setGenerating b : commutes rf (Studio.setState (AppState.set_isGenerating b)).
Proof. intros m. reflexivity. Qed.

Lemma commutes_setFullAudioUrl url : commutes rf (Studio.setFullAudioUrl url).
Proof. intros m. reflexivity. Qed.

Lemma commutes_setSrtUrl url : commutes rf (Studio.setSrtUrl url).
Proof. intros m. reflexivity. Qed.

Lemma commutes_setProgress p : commutes rf (Studio.setProgress p).
Proof. intros m. reflexivity. Qed.

Lemma commutes_setHistory f : commutes rf (Studio.setHistory f).
Proof. intros m. reflexivity. Qed.

Lemma commutes_addLog level message : commutes rf (Studio.addLog level message).
Proof. intros m. reflexivity. Qed.

Lemma commutes_alloc seg : commutes rf (Studio.alloc seg).
Proof. intros m. reflexivity. Qed.

Lemma commutes_deref ref : commutes rf (Studio.deref ref).
Proof.
  intros m. unfold Studio.deref. cbn [heap reformat].
  destruct (heap m !! ref); reflexivity.
Qed.

Lemma commutes_assign ref f : commutes rf (Studio.assign ref f).
Proof. intros m. reflexivity. Qed.

Create HintDb commute discriminated.
#[local] Hint Resolve commutes_ret commutes_throw commutes_await commutes_awaitService
  commutes_setGenerating commutes_setFullAudioUrl commutes_setSrtUrl commutes_setProgress
  commutes_setHistory commutes_addLog commutes_alloc commutes_deref commutes_assign : commute.

Ltac commute :=
  repeat first
    [ apply commutes_bind; [|intros ?]
    | solve [auto with commute]
    | match goal with
      | |- commutes _ (match ?x with _ => _ end) => destruct x
      end ].

Lemma commutes_iteration vmap provider ctx total i ref acc :
  commutes rf (Studio.iteration vmap provider ctx total i ref acc).
Proof. unfold Studio.iteration, Studio.synthesize. commute. Qed.

Lemma commutes_loop vmap provider ctx total refs :
  forall i acc, commutes rf (Studio.loop vmap provider ctx total i refs acc).
Proof.
  induction refs as [|ref refs IH]; intros i acc; cbn [Studio.loop].
  - apply commutes_ret.
  - apply commutes_bind; [apply commutes_iteration|intros acc'; apply IH].
Qed.

Lemma commutes_produce h model ctx : commutes rf (Studio.produce h model ctx).
Proof.
  unfold Studio.produce, Studio.synthesizeAll, Studio.introduce, Studio.appendWatermark,
    Studio.deliver.
  commute; try apply commutes_loop; intros m; reflexivity.
Qed.

Lemma commutes_preamble st ctx : commutes rf (Studio.preamble st ctx).
Proof. unfold Studio.preamble. commute. intros m. reflexivity. Qed.

Lemma commutes_tryCatchFinally {A} (body : M A) handler finalizer :
  commutes rf body -> (forall e, commutes rf (handler e)) -> commutes rf finalizer ->
  commutes rf (tryCatchFinally body handler finalizer).
Proof.
  intros Hb Hh Hf m. unfold tryCatchFinally. rewrite (Hb m).
  destruct (body m) as [[v|e] m1]; cbn [fst snd].
  - rewrite (Hf m1). destruct (finalizer m1) as [[u|e] m2]; reflexivity.
  - rewrite (Hh e m1). destruct (handler e m1) as [c m2]. cbn [fst snd].
    rewrite (Hf m2). destruct (finalizer m2) as [[u|e'] m3]; reflexivity.
Qed.

(** A run started from the hook values [h] neither reads nor writes the
    export format of the machine it runs on. *)
Lemma commutes_run h ctx : commutes rf (Studio.run h ctx).
Proof.
  unfold Studio.run. apply commutes_bind; [apply commutes_preamble|]. intros model.
  apply commutes_tryCatchFinally.
  - apply commutes_produce.
  - intros e. unfold Studio.productionFailed. commute.
  - apply commutes_setGenerating.
Qed.

End Format.

Section ExportFormats.
Context {AE : AudioEngine}.
Import App PipelineSpec.

Lemma reformat_reformat f g (m : Machine) : reformat f (reformat g m) = reformat f m.
Proof. reflexivity. Qed.

(** The handler on a machine set to [format], in terms of the run that
    the hook values of the machine set to [format'] start, provided the
    two formats select the same encoder. *)
Lemma handler_reformat format format' (m : Machine) :
  (forall model ctx, Studio.produce (hooks (reformat format m)) model ctx
                     = Studio.produce (hooks (reformat format' m)) model ctx) ->
  Studio.handlePodcastProduction (reformat format m)
  = (fst (Studio.handlePodcastProduction (reformat format' m)),
     reformat format (snd (Studio.handlePodcastProduction (reformat format' m)))).
Proof.
  intros Hsame.
  assert (Hrun : forall ctx,
             Studio.run (hooks (reformat format m)) ctx m
             = Studio.run (hooks (reformat format' m)) ctx m).
  { intros ctx. unfold Studio.run, bind.
    replace (Studio.preamble (state (hooks (reformat format m))) ctx m)
      with (Studio.preamble (state (hooks (reformat format' m))) ctx m) by reflexivity.
    destruct (Studio.preamble _ ctx m) as [[model|e] m1]; [|reflexivity].
    unfold tryCatchFinally. rewrite (Hsame model ctx). reflexivity. }
  unfold Studio.handlePodcastProduction. cbv zeta.
  replace (AppState.isGenerating (state (hooks (reformat format m))))
    with (AppState.isGenerating (state (hooks m))) by reflexivity.
  replace (AppState.isGenerating (state (hooks (reformat format' m))))
    with (AppState.isGenerating (state (hooks m))) by reflexivity.
  replace (segments (hooks (reformat format m))) with (segments (hooks m)) by reflexivity.
  replace (segments (hooks (reformat format' m))) with (segments (hooks m)) by reflexivity.
  replace (audioContextRef (hooks (reformat format m)))
    with (audioContextRef (hooks m)) by reflexivity.
  replace (audioContextRef (hooks (reformat format' m)))
    with (audioContextRef (hooks m)) by reflexivity.
  destruct (AppState.isGenerating (state (hooks m)) || Nat.eqb (length (segments (hooks m))) 0)%bool;
    [reflexivity|].
  destruct (audioContextRef (hooks m)) as [ctx|]; [|reflexivity].
  rewrite (commutes_run format (hooks (reformat format m)) ctx m).
  rewrite (commutes_run format' (hooks (reformat format' m)) ctx m).
  cbn [fst snd]. rewrite reformat_reformat, (Hrun ctx). reflexivity.
Qed.

(** C10: OGG is encoded with the MP3 encoder.  (1, 2) The encoder chosen
    for OGG and for MP3 is [audioBufferToMp3], the one chosen for WAV is
    [audioBufferToWav], and a format whose encoder is not the MP3 encoder
    is WAV.  (3, 4) A production with the export format set to OGG and
    the same production with it set to MP3 complete alike and end in the
    same machine - same audio URL, that is same encoded bytes, same
    subtitles, same history entry - but for the format setting itself.
    (5) What a completed run publishes is the encoding of the master
    buffer: with [bs] the buffers the synthesis loop collected, followed
    by the watermark if one was appended, and the master buffer their
    concatenation, the published audio URL holds [audioBufferToMp3] of
    the master buffer when the format is OGG or MP3 and
    [audioBufferToWav] of it when the format is WAV, and the entry put
    at the head of the history carries the same URL. *)
Theorem C10_ogg_is_encoded_as_mp3 :
  (forall fullBuffer,
      Studio.encode OGG fullBuffer = audioBufferToMp3 fullBuffer
      /\ Studio.encode MP3 fullBuffer = audioBufferToMp3 fullBuffer
      /\ Studio.encode WAV fullBuffer = audioBufferToWav fullBuffer)
  /\ (forall format, format = WAV \/ Studio.encode format = audioBufferToMp3)
  /\ (forall m : Machine,
      Studio.handlePodcastProduction (reformat OGG m)
      = (fst (Studio.handlePodcastProduction (reformat MP3 m)),
         reformat OGG (snd (Studio.handlePodcastProduction (reformat MP3 m)))))
  /\ (forall m : Machine,
      fullAudioUrl (hooks (snd (Studio.handlePodcastProduction (reformat OGG m))))
      = fullAudioUrl (hooks (snd (Studio.handlePodcastProduction (reformat MP3 m))))
      /\ history (hooks (snd (Studio.handlePodcastProduction (reformat OGG m))))
         = history (hooks (snd (Studio.handlePodcastProduction (reformat MP3 m)))))
  /\ (forall h model ctx (m m' : Machine),
      Studio.produce h model ctx m = (Normal tt, m') ->
      exists allSegments acc m1 bs,
        Studio.synthesizeAll h model ctx m = (Normal (allSegments, acc), m1)
        /\ (bs = Studio.audioBuffers acc
            \/ exists watermark, bs = Studio.audioBuffers acc ++ [watermark])
        /\ (AppState.exportFormat (state h) = OGG
            \/ AppState.exportFormat (state h) = MP3 ->
            fullAudioUrl (hooks m')
            = Some (AudioURL (audioBufferToMp3 (concatenateAudioBuffers bs ctx))))
        /\ (AppState.exportFormat (state h) = WAV ->
            fullAudioUrl (hooks m')
            = Some (AudioURL (audioBufferToWav (concatenateAudioBuffers bs ctx))))
        /\ option_map h_audioUrl (head (history (hooks m')))
           = Some (fullAudioUrl (hooks m'))).
Proof.
  assert (Hrun : forall m : Machine,
             Studio.handlePodcastProduction (reformat OGG m)
             = (fst (Studio.handlePodcastProduction (reformat MP3 m)),
                reformat OGG (snd (Studio.handlePodcastProduction (reformat MP3 m))))).
  { intros m. apply handler_reformat. intros model ctx. reflexivity. }
  split; [intros fullBuffer; repeat split|].
  split; [intros [| |]; [left|right|right]; reflexivity|].
  split; [exact Hrun|].
  split; [intros m; rewrite (Hrun m); cbn [snd]; split; reflexivity|].
  intros h model ctx m m' H.
  apply produce_Normal_inv in H as (allSegments & acc & m1 & bs & m2 & Hall & Hwm & Hdel).
  exists allSegments, acc, m1, bs. split; [exact Hall|].
  apply appendWatermark_Normal in Hwm as (_ & Hfree & Hpaid).
  split.
  { destruct (AppState.tier (state h)) eqn:Ht.
    - destruct (Hfree eq_refl) as (wm & _ & ->). right. exists wm. reflexivity.
    - left. apply Hpaid. discriminate.
    - left. apply Hpaid. discriminate. }
  clear Hfree Hpaid Hall.
  unfold Studio.deliver, bind, ret, Studio.setFullAudioUrl, Studio.setSrtUrl,
    Studio.setProgress, Studio.addLog, Studio.setLogs, Studio.setHistory,
    Studio.withHooks, Studio.await in Hdel.
  cbn [hooks world heap reports env timers state script topic segments fullAudioUrl
       srtUrl coverArtUrl progress logs history audioContextRef fst snd] in Hdel.
  destruct (crypto_randomUUID (env (world m2))) as [uuid e1].
  injection Hdel as <-.
  cbn [hooks fullAudioUrl history take head option_map h_audioUrl].
  split; [intros [-> | ->]; reflexivity|].
  split; [intros ->; reflexivity|reflexivity].
Qed.

End ExportFormats.

(** The default session set to OGG and produced: the published URL, and
    with it the archived one, holds the MP3 encoding of the six texts in
    order. *)
Lemma C10_ogg_is_encoded_as_mp3_witness :
  (exists bs : list (list string),
      App.fullAudioUrl
        (App.hooks
           (snd (Studio.produce
                   (App.hooks (PipelineSpec.reformat OGG Bench.defaultReady))
                   Bench.edgeNeural tt
                   (Bench.started (PipelineSpec.reformat OGG Bench.defaultReady)))))
      = Some (App.AudioURL ("mp3", concat bs)))
  /\ App.fullAudioUrl
       (App.hooks
          (Bench.after Studio.handlePodcastProduction
             (PipelineSpec.reformat OGG Bench.defaultReady)))
     = Some (App.AudioURL
               ("mp3", ["Welcome to Podcast Studio AI.";
                        "Welcome to AI Horizons. I'm Alex.";
                        "And I'm Jordan. Today we explore the edge of technology.";
                        "Let's get started.";
                        "Stay curious, and thanks for listening!"])).
Proof.
  split; [|vm_compute; reflexivity].
  destruct (proj2 (proj2 (proj2 (proj2 (C10_ogg_is_encoded_as_mp3 (AE := Bench.engine)))))
              (App.hooks (PipelineSpec.reformat OGG Bench.defaultReady))
              Bench.edgeNeural tt
              (Bench.started (PipelineSpec.reformat OGG Bench.defaultReady))
              (snd (Studio.produce
                      (App.hooks (PipelineSpec.reformat OGG Bench.defaultReady))
                      Bench.edgeNeural tt
                      (Bench.started (PipelineSpec.reformat OGG Bench.defaultReady)))))
    as (allSegments & acc & m1 & bs & _ & _ & Hmp3 & _).
  - vm_compute; reflexivity.
  - exists bs. apply Hmp3. left. vm_compute. reflexivity.
Defined.

(** ** Timing when no segment object occurs twice *)

Section Timing.
Context {AE : AudioEngine}.
Import App PipelineSpec.

Lemma allSegments_distinct (refs : list nat) (fresh : nat) :
  NoDup refs -> Forall (fun r => r < fresh)%nat refs ->
  NoDup (fresh :: refs ++ [S fresh]).
Proof.
  intros Hnd Hlt. rewrite Forall_forall in Hlt.
  apply NoDup_cons. split.
  - intros Hin. apply elem_of_app in Hin as [Hin | Hin].
    + apply Hlt in Hin. lia.
    + apply list_elem_of_singleton in Hin. lia.
  - apply NoDup_app. split; [exact Hnd|]. split; [|apply NoDup_singleton].
    intros r Hin Hin'. apply list_elem_of_singleton in Hin'. apply Hlt in Hin. lia.
Qed.

(** When the segment objects of the script are pairwise distinct, a
    completed run leaves the object at every position [k] of the ordered
    list - intro, script segments, outro - with [startTime] the sum of the
    durations of the buffers before position [k] and [duration] the
    duration of its own buffer, and publishes the encoding of the
    concatenation of these buffers in that order (followed by the
    watermark, if any). *)
Lemma start_times_of_distinct_segments h model ctx m m' :
  NoDup (segments h) ->
  Forall (fun r => r < length (heap m))%nat (segments h) ->
  Studio.produce h model ctx m = (Normal tt, m') ->
  exists buffers rest,
    length buffers = S (length (segments h ++ [S (length (heap m))]))
    /\ fullAudioUrl (hooks m')
       = Some (AudioURL (Studio.encode (AppState.exportFormat (state h))
                           (concatenateAudioBuffers (buffers ++ rest) ctx)))
    /\ (forall k r,
          (length (heap m) :: segments h ++ [S (length (heap m))]) !! k = Some r ->
          exists seg buffer,
            buffers !! k = Some buffer
            /\ heap m' !! r = Some seg
            /\ PodcastSegment.startTime seg = Some (elapsed buffers k)
            /\ PodcastSegment.duration seg = Some (buffer_duration buffer)).
Proof.
  intros Hnd Hlt H.
  apply produce_Normal_inv in H as (allSegments & acc & m1 & bs & m2 & Hall & Hwm & Hdel).
  destruct (deliver_effect h model ctx allSegments bs m2) as (m'' & Hd & Hurl & _ & Hheap & _).
  rewrite Hdel in Hd. injection Hd as <-.
  apply appendWatermark_Normal in Hwm as ((Hheap2 & _ & _) & Hfree & Hpaid).
  cbn [snd Studio.setProgress heap] in Hheap2.
  apply synthesizeAll_Normal_inv in Hall as (m0 & _ & Hsegs & _ & _ & _ & Hloop).
  pose proof (allSegments_distinct _ _ Hnd Hlt) as Hdistinct. rewrite <- Hsegs in Hdistinct.
  destruct (loop_Normal_distinct _ _ _ _ _ _ _ _ _ _ Hdistinct Hloop)
    as (buffers & Hbufs & Hlen & _ & Htimes).
  cbn [Studio.emptyAcc Studio.audioBuffers Studio.currentTotalTime app] in Hbufs, Htimes.
  exists buffers, (match AppState.tier (state h) with
                   | FREE => drop (length buffers) bs
                   | _ => []
                   end).
  split; [rewrite Hlen, Hsegs; reflexivity|]. split.
  - rewrite Hurl. do 3 f_equal.
    destruct (AppState.tier (state h)) eqn:Ht.
    + destruct (Hfree eq_refl) as (wm & _ & ->). rewrite Hbufs.
      rewrite drop_app_length. reflexivity.
    + destruct (Hpaid ltac:(discriminate)) as [-> _]. rewrite Hbufs, app_nil_r. reflexivity.
    + destruct (Hpaid ltac:(discriminate)) as [-> _]. rewrite Hbufs, app_nil_r. reflexivity.
  - intros k r Hk. rewrite <- Hsegs in Hk.
    destruct (Htimes k r Hk) as (seg & buffer & _ & Hbk & Hfinal).
    exists (PodcastSegment.timed seg (elapsed buffers k) (buffer_duration buffer)), buffer.
    split; [exact Hbk|]. split; [|split; reflexivity].
    rewrite Hheap, Hheap2. exact Hfinal.
Qed.

End Timing.

(* ===================================================================== *)
(** * Part III. Further properties of the code                            *)
(* ===================================================================== *)

(** ** The retry policy and the speech service *)

Lemma withRetry_backoff_prefix {Env T} (fn : Async Env T) :
  (forall w0, timers (snd (fn w0)) = timers w0) ->
  forall retries delay w,
    exists k, (k <= retries)%nat
              /\ timers (snd (GeminiService.withRetry fn retries delay w))
                 = timers w ++ RetrySpec.backoff delay k.
Proof.
  intros Hframe retries.
  induction retries as [|retries IH]; intros delay w; cbn [GeminiService.withRetry];
    specialize (Hframe w); destruct (fn w) as [[v|error] w1]; cbn [snd] in *.
  - exists 0%nat. cbn. rewrite app_nil_r. auto.
  - exists 0%nat. destruct (GeminiService.isRateLimit error) as [b|te];
      cbn; rewrite app_nil_r; auto.
  - exists 0%nat. cbn. rewrite app_nil_r. split; [lia|exact Hframe].
  - destruct (GeminiService.isRateLimit error) as [[|]|te].
    + destruct (IH (delay * 2) (sleep delay w1)) as (k & Hk & Ht).
      exists (S k). split; [lia|]. rewrite Ht. unfold sleep. cbn [timers RetrySpec.backoff].
      rewrite Hframe, <- app_assoc. reflexivity.
    + exists 0%nat. cbn. rewrite app_nil_r. split; [lia|exact Hframe].
    + exists 0%nat. cbn. rewrite app_nil_r. split; [lia|exact Hframe].
Qed.

Lemma backoff_length delay k : length (RetrySpec.backoff delay k) = k.
Proof. revert delay. induction k as [|k IH]; intros delay; cbn; [|rewrite IH]; reflexivity. Qed.

Lemma backoff_total delay k :
  BackoffSpec.totalDelay (RetrySpec.backoff delay k) = delay * (2 ^ Z.of_nat k - 1).
Proof.
  revert delay. induction k as [|k IH]; intros delay.
  - change (0 = delay * (2 ^ 0 - 1)). rewrite Z.pow_0_r. ring.
  - cbn [RetrySpec.backoff BackoffSpec.totalDelay fold_right].
    fold (BackoffSpec.totalDelay (RetrySpec.backoff (delay * 2) k)).
    rewrite IH, Nat2Z.inj_succ, Z.pow_succ_r by lia. ring.
Qed.

(** X1: the backoff of [withRetry] is bounded.  Around any call that
    leaves the timers alone, [withRetry] sleeps at most [retries] times,
    the delays are the doubling sequence from [delay], and the time slept
    in total is at most [delay * (2^retries - 1)]: with the defaults at
    most three sleeps and 14 seconds. *)
Theorem X1_withRetry_backoff_is_bounded :
  forall Env T (fn : Async Env T) retries delay w,
    0 <= delay ->
    (forall w0, timers (snd (fn w0)) = timers w0) ->
    exists k,
      (k <= retries)%nat
      /\ timers (snd (GeminiService.withRetry fn retries delay w))
         = timers w ++ RetrySpec.backoff delay k
      /\ BackoffSpec.totalDelay (RetrySpec.backoff delay k)
         <= delay * (2 ^ Z.of_nat retries - 1).
Proof.
  intros Env T fn retries delay w Hdelay Hframe.
  destruct (withRetry_backoff_prefix fn Hframe retries delay w) as (k & Hk & Ht).
  exists k. split; [exact Hk|]. split; [exact Ht|].
  rewrite backoff_total. apply Z.mul_le_mono_nonneg_l; [exact Hdelay|].
  apply Z.sub_le_mono_r. apply Z.pow_le_mono_r; lia.
Qed.

Lemma scripted_keeps_timers {T} (w0 : World (list (Completion T))) :
  timers (snd (RetrySpec.scripted w0)) = timers w0.
Proof. unfold RetrySpec.scripted. destruct (env w0); reflexivity. Qed.

Lemma X1_withRetry_backoff_is_bounded_witness :
  exists k,
    (k <= 3)%nat
    /\ timers (snd (GeminiService.withRetry RetrySpec.scripted 3 2000
                      (mkWorld (repeat (@Throw string RetrySpec.quota429) 9) [])))
       = [] ++ RetrySpec.backoff 2000 k
    /\ BackoffSpec.totalDelay (RetrySpec.backoff 2000 k) <= 2000 * (2 ^ Z.of_nat 3 - 1).
Proof.
  apply (X1_withRetry_backoff_is_bounded (list (Completion string)) string
           RetrySpec.scripted 3 2000
           (mkWorld (repeat (@Throw string RetrySpec.quota429) 9) [])).
  - lia.
  - apply scripted_keeps_timers.
Defined.

Section SpeechService.
Context {Env : Type} (endpoint : GeminiService.TtsEndpoint Env).

(** The attempt [generateSpeech] retries: one call of the endpoint. *)
Lemma generateSpeech_attempt_keeps_timers (text voiceName : string) (w0 : World Env) :
  timers (snd (match endpoint text voiceName (env w0) with
               | (Throw e, env1) => (Throw e, {| env := env1; timers := timers w0 |})
               | (Normal data, env1) =>
                   let w1 := {| env := env1; timers := timers w0 |} in
                   if JS.truthyString data
                   then (Normal (default "" data), w1)
                   else (@Throw string (JS.Error "Synthesis produced no audio payload."), w1)
               end))
  = timers w0.
Proof.
  destruct (endpoint text voiceName (env w0)) as [[data|e] env1]; [|reflexivity].
  cbv zeta. destruct (JS.truthyString data); reflexivity.
Qed.

(** X2: [generateSpeech] and the payload.  An answer of the endpoint
    without an audio payload (none, or the empty string) ends the call at
    once with the error "Synthesis produced no audio payload.": that error
    is not a rate limit, so there is no retry and no delay.  An answer
    with a payload is returned as it is.  Whatever the endpoint does, the
    call sleeps at most three times, for 2000, 4000 and 8000 ms. *)
Theorem X2_generateSpeech_payload :
  (forall text voiceName w data env1,
      endpoint text voiceName (env w) = (Normal data, env1) ->
      JS.truthyString data = false ->
      GeminiService.generateSpeech endpoint text voiceName w
      = (Throw (JS.Error "Synthesis produced no audio payload."),
         {| env := env1; timers := timers w |}))
  /\ (forall text voiceName w payload env1,
      endpoint text voiceName (env w) = (Normal (Some payload), env1) ->
      payload <> "" ->
      GeminiService.generateSpeech endpoint text voiceName w
      = (Normal payload, {| env := env1; timers := timers w |}))
  /\ (forall text voiceName w,
      exists k, (k <= 3)%nat
                /\ timers (snd (GeminiService.generateSpeech endpoint text voiceName w))
                   = timers w ++ RetrySpec.backoff 2000 k).
Proof.
  split; [|split].
  - intros text voiceName w data env1 Hcall Hempty.
    unfold GeminiService.generateSpeech.
    apply withRetry_terminal; [|reflexivity].
    rewrite Hcall. cbv zeta. rewrite Hempty. reflexivity.
  - intros text voiceName w payload env1 Hcall Hne.
    unfold GeminiService.generateSpeech.
    apply withRetry_fulfilled. rewrite Hcall. cbv zeta.
    destruct payload; [contradiction|reflexivity].
  - intros text voiceName w. unfold GeminiService.generateSpeech.
    apply withRetry_backoff_prefix. intros w0.
    apply generateSpeech_attempt_keeps_timers.
Qed.

End SpeechService.

Lemma X2_generateSpeech_payload_witness :
  GeminiService.generateSpeech Bench.benchTts "Hello" "Kore"
    (mkWorld (Bench.mkEnv None (BackoffSpec.answering (Some "")) 0 0) [])
  = (Throw (JS.Error "Synthesis produced no audio payload."),
     mkWorld (Bench.mkEnv None [] 0 0) [])
  /\ GeminiService.generateSpeech Bench.benchTts "Hello" "Kore"
       (mkWorld (Bench.mkEnv None (BackoffSpec.answering (Some "UklGRg==")) 0 0) [])
     = (Normal "UklGRg==", mkWorld (Bench.mkEnv None [] 0 0) []).
Proof.
  split.
  - apply (proj1 (X2_generateSpeech_payload Bench.benchTts) "Hello" "Kore"
             (mkWorld (Bench.mkEnv None (BackoffSpec.answering (Some "")) 0 0) [])
             (Some "") (Bench.mkEnv None [] 0 0));
      reflexivity.
  - apply (proj1 (proj2 (X2_generateSpeech_payload Bench.benchTts)) "Hello" "Kore"
             (mkWorld (Bench.mkEnv None (BackoffSpec.answering (Some "UklGRg==")) 0 0) [])
             "UklGRg==" (Bench.mkEnv None [] 0 0));
      [reflexivity|discriminate].
Defined.

(** X3: a failure that cannot be inspected masks itself.  When
    [JSON.stringify(error)] throws, [withRetry] rejects with that
    TypeError whatever the message and the budget - even a 429 is not
    retried.  When it yields [undefined] and the message carries no 429,
    the call of [includes] on it throws, and [withRetry] rejects with that
    TypeError instead of the original failure. *)
Theorem X3_withRetry_masks_unserializable_failures :
  forall Env T (fn : Async Env T) retries delay w error w1,
    fn w = (Throw error, w1) ->
    (JS.stringify error = JsonThrows ->
     GeminiService.withRetry fn retries delay w = (Throw JS.TypeError_circular, w1))
    /\ (JS.stringify error = JsonUndefined ->
        (forall m, JS.message error = Some m -> JS.includes m "429" = false) ->
        GeminiService.withRetry fn retries delay w
        = (Throw JS.TypeError_undefined_includes, w1)).
Proof.
  intros Env T fn retries delay w error w1 Hfn. split.
  - intros Hs. eapply withRetry_test_throws; [exact Hfn|].
    unfold GeminiService.isRateLimit. rewrite Hs. reflexivity.
  - intros Hs Hmsg. eapply withRetry_test_throws; [exact Hfn|].
    unfold GeminiService.isRateLimit. rewrite Hs.
    destruct (JS.message error) as [m|]; [rewrite (Hmsg m eq_refl)|]; reflexivity.
Qed.

Lemma X3_withRetry_masks_unserializable_failures_witness :
  GeminiService.withRetry RetrySpec.scripted 3 2000
    (mkWorld [Throw BackoffSpec.cyclic; Normal 1%nat] [])
  = (Throw JS.TypeError_circular, mkWorld [Normal 1%nat] [])
  /\ GeminiService.withRetry RetrySpec.scripted 3 2000
       (mkWorld [Throw BackoffSpec.unserializable; Normal 1%nat] [])
     = (Throw JS.TypeError_undefined_includes, mkWorld [Normal 1%nat] []).
Proof.
  split.
  - apply (proj1 (X3_withRetry_masks_unserializable_failures
                    (list (Completion nat)) nat RetrySpec.scripted 3 2000
                    (mkWorld [Throw BackoffSpec.cyclic; Normal 1%nat] [])
                    BackoffSpec.cyclic (mkWorld [Normal 1%nat] []) eq_refl)).
    reflexivity.
  - apply (proj2 (X3_withRetry_masks_unserializable_failures
                    (list (Completion nat)) nat RetrySpec.scripted 3 2000
                    (mkWorld [Throw BackoffSpec.unserializable; Normal 1%nat] [])
                    BackoffSpec.unserializable (mkWorld [Normal 1%nat] []) eq_refl)).
    + reflexivity.
    + intros m [= <-]. reflexivity.
Defined.

(** ** Lines and segments *)

Lemma splitAtColon_first (S T : string) :
  JS.hasChar ":"%char S = false ->
  Studio.splitAtColon (S +:+ String ":"%char T) = Some (S, T).
Proof.
  induction S as [|c S IH]; intros Hno.
  - reflexivity.
  - cbn [JS.hasChar] in Hno. apply orb_false_iff in Hno as [Hc HS].
    change (String c S +:+ String ":"%char T) with (String c (S +:+ String ":"%char T)).
    cbn [Studio.splitAtColon].
    rewrite Ascii.eqb_sym, Hc, (IH HS). reflexivity.
Qed.

Lemma splitAtColon_without (l : string) :
  JS.hasChar ":"%char l = false -> Studio.splitAtColon l = None.
Proof.
  induction l as [|c l IH]; intros Hno; [reflexivity|].
  cbn [JS.hasChar] in Hno. apply orb_false_iff in Hno as [Hc Hl].
  cbn [Studio.splitAtColon].
  rewrite Ascii.eqb_sym, Hc, (IH Hl). reflexivity.
Qed.

(** X4: a line is split at its first colon.  Lines are strings of code
    units below 256; the line terminators among these are LF and CR, and
    [trim] removes TAB, LF, VT, FF, CR, the space and the no-break space
    from both ends.  A line [S:T] whose part [S] before the first colon is
    not empty, and whose remainder [T] holds no line terminator, is spoken
    by [S.trim()] and says [T.trim()] - colons inside [T] belong to the
    text.  A line without a colon, and a line that starts with a colon, is
    spoken by "Narrator" and says the whole trimmed line. *)
Theorem X4_parseLine_splits_at_first_colon :
  (forall S T : string,
      S <> "" ->
      JS.hasChar ":"%char S = false ->
      JS.hasChar JS.newline T = false ->
      JS.hasChar JS.carriageReturn T = false ->
      Studio.parseLine (S +:+ String ":"%char T) = (JS.trim S, JS.trim T))
  /\ (forall l : string,
      JS.hasChar ":"%char l = false ->
      Studio.parseLine l = ("Narrator", JS.trim l))
  /\ (forall T : string,
      Studio.parseLine (String ":"%char T) = ("Narrator", JS.trim (String ":"%char T))).
Proof.
  split; [|split].
  - intros S T Hne Hno Hnl Hcr. unfold Studio.parseLine, Studio.matchLine.
    rewrite (splitAtColon_first S T Hno), Hnl, Hcr.
    destruct S; [contradiction|reflexivity].
  - intros l Hno. unfold Studio.parseLine, Studio.matchLine.
    rewrite (splitAtColon_without l Hno). reflexivity.
  - intros T. reflexivity.
Qed.

Lemma X4_parseLine_splits_at_first_colon_witness :
  Studio.parseLine "Host: It is 10:30, let's start. " = ("Host", "It is 10:30, let's start.")
  /\ Studio.parseLine "  just a remark" = ("Narrator", "just a remark")
  /\ Studio.parseLine ("Host" +:+ SyncSpec.nbsp +:+ ":" +:+ SyncSpec.nbsp +:+ "Hi"
                       +:+ SyncSpec.nbsp)
     = ("Host", "Hi").
Proof.
  split; [|split].
  - apply (proj1 X4_parseLine_splits_at_first_colon "Host" " It is 10:30, let's start. ");
      [discriminate|reflexivity|reflexivity|reflexivity].
  - apply (proj1 (proj2 X4_parseLine_splits_at_first_colon) "  just a remark").
    reflexivity.
  - change (Studio.parseLine (("Host" +:+ SyncSpec.nbsp)
                              +:+ String ":"%char (SyncSpec.nbsp +:+ "Hi" +:+ SyncSpec.nbsp))
            = (JS.trim ("Host" +:+ SyncSpec.nbsp),
               JS.trim (SyncSpec.nbsp +:+ "Hi" +:+ SyncSpec.nbsp))).
    apply (proj1 X4_parseLine_splits_at_first_colon
             ("Host" +:+ SyncSpec.nbsp) (SyncSpec.nbsp +:+ "Hi" +:+ SyncSpec.nbsp));
      [discriminate|reflexivity|reflexivity|reflexivity].
Defined.

(** X5: a carriage return defeats the speaker pattern.  When the
    remainder of a line after its first colon holds a carriage return - as
    every line but the last of a script with Windows line ends does - the
    pattern does not match, and the line is spoken by "Narrator" and says
    the whole trimmed line, speaker label included. *)
Theorem X5_carriage_return_makes_narrator :
  forall S T : string,
    JS.hasChar ":"%char S = false ->
    JS.hasChar JS.carriageReturn T = true ->
    Studio.parseLine (S +:+ String ":"%char T)
    = ("Narrator", JS.trim (S +:+ String ":"%char T)).
Proof.
  intros S T Hno Hcr. unfold Studio.parseLine, Studio.matchLine.
  rewrite (splitAtColon_first S T Hno), Hcr, orb_true_r.
  destruct S; reflexivity.
Qed.

Lemma X5_carriage_return_makes_narrator_witness :
  Studio.parseLine ("Host: Welcome back." +:+ SyncSpec.cr) = ("Narrator", "Host: Welcome back.")
  /\ map Studio.parseLine
       (SyncSpec.nonblankLines
          ("Host: Hi." +:+ SyncSpec.cr +:+ Bench.nl +:+ "Guest: Hello."))
     = [("Narrator", "Host: Hi."); ("Guest", "Hello.")].
Proof.
  split.
  - apply (X5_carriage_return_makes_narrator "Host" (" Welcome back." +:+ SyncSpec.cr));
      reflexivity.
  - reflexivity.
Defined.

Section Sync.
Context {AE : AudioEngine}.
Import App SyncSpec.

Lemma findExisting_Some (h : list PodcastSegment.t) refs speaker text r :
  Studio.findExisting h refs speaker text = Some r ->
  r ∈ refs
  /\ exists seg, h !! r = Some seg
                 /\ PodcastSegment.text seg = text /\ PodcastSegment.speaker seg = speaker.
Proof.
  unfold Studio.findExisting. intros H. apply List.find_some in H as [Hin Hmatch].
  split; [apply list_elem_of_In; exact Hin|].
  destruct (h !! r) as [seg|]; [|discriminate].
  apply andb_true_iff in Hmatch as [Ht Hs].
  apply String.eqb_eq in Ht, Hs. eauto.
Qed.

Lemma findExisting_is_Some (h : list PodcastSegment.t) refs speaker text r seg :
  r ∈ refs -> h !! r = Some seg ->
  PodcastSegment.text seg = text -> PodcastSegment.speaker seg = speaker ->
  is_Some (Studio.findExisting h refs speaker text).
Proof.
  intros Hin Hlk Ht Hs. unfold Studio.findExisting.
  destruct (List.find _ refs) as [r'|] eqn:Hfind; [eexists; reflexivity|].
  apply list_elem_of_In in Hin.
  pose proof (List.find_none _ _ Hfind r Hin) as Hnone. cbv beta in Hnone.
  rewrite Hlk, Ht, Hs, !String.eqb_refl in Hnone. discriminate.
Qed.

Lemma findExisting_grow (h new : list PodcastSegment.t) refs speaker text :
  Forall (fun r => r < length h)%nat refs ->
  Studio.findExisting (h ++ new) refs speaker text = Studio.findExisting h refs speaker text.
Proof.
  intros Hvalid. unfold Studio.findExisting.
  induction Hvalid as [|r refs Hr _ IH]; [reflexivity|].
  cbn [List.find]. rewrite (lookup_app_l h new r Hr), IH. reflexivity.
Qed.

(** What the line-by-line pass does: it returns one reference per line,
    extends the heap by the objects it creates, and touches nothing
    else; the object behind the reference of a line is a segment for that
    line; a line with a match among the old segments gets that match. *)
Lemma mapLines_spec (old : list nat) (lines : list string) :
  forall i (m : Machine),
    exists refs new m',
      Studio.mapLines old i lines m = (Normal refs, m')
      /\ heap m' = heap m ++ new
      /\ world m' = world m /\ hooks m' = hooks m /\ reports m' = reports m
      /\ Forall2 (parsedAs (heap m')) lines refs
      /\ (Forall (fun r => r < length (heap m))%nat old ->
          forall k l r, lines !! k = Some l -> reused (heap m) old l = Some r ->
                        refs !! k = Some r)
      /\ ((forall l, l ∈ lines -> is_Some (reused (heap m) old l)) -> new = []).
Proof.
  induction lines as [|l lines IH]; intros i m.
  - exists [], [], m. cbn. rewrite app_nil_r.
    repeat split; try constructor. intros _ k l r Hk. discriminate Hk.
  - cbn [Studio.mapLines]. unfold reused in *.
    destruct (Studio.parseLine l) as [speaker text] eqn:Hparse.
    unfold bind at 1.
    destruct (Studio.findExisting (heap m) old speaker text) as [existing|] eqn:Hfind.
    + unfold ret at 1.
      destruct (IH (S i) m) as (refs & new & m' & Hrun & Hheap & Hw & Hh & Hr & Hall & Hre & Hno).
      exists (existing :: refs), new, m'.
      unfold bind. rewrite Hrun. unfold ret.
      split; [reflexivity|]. split; [exact Hheap|].
      split; [exact Hw|]. split; [exact Hh|]. split; [exact Hr|].
      split; [|split].
      * constructor; [|exact Hall].
        apply findExisting_Some in Hfind as (_ & seg & Hlk & Ht & Hs).
        exists seg. split; [rewrite Hheap; apply lookup_app_l_Some; exact Hlk|].
        unfold spoken. rewrite Hparse, Ht, Hs. reflexivity.
      * intros Hvalid [|k] l0 r Hk Hreuse; cbn in Hk.
        -- injection Hk as <-. rewrite Hparse in Hreuse. cbn [fst snd] in Hreuse.
           rewrite Hfind in Hreuse. exact Hreuse.
        -- exact (Hre Hvalid k l0 r Hk Hreuse).
      * intros Hfound. apply Hno. intros l0 Hl0. apply Hfound. right. exact Hl0.
    + unfold Studio.alloc at 1.
      set (seg0 := PodcastSegment.mk _ speaker text None PodcastSegment.pending None None).
      set (m1 := {| world := world m; heap := heap m ++ [seg0];
                    hooks := hooks m; reports := reports m |}).
      destruct (IH (S i) m1) as (refs & new & m' & Hrun & Hheap & Hw & Hh & Hr & Hall & Hre & _).
      exists (length (heap m) :: refs), (seg0 :: new), m'.
      unfold bind. rewrite Hrun. unfold ret.
      cbn [heap world hooks reports m1] in *. rewrite <- app_assoc in Hheap. cbn [app] in Hheap.
      split; [reflexivity|]. split; [exact Hheap|].
      split; [exact Hw|]. split; [exact Hh|]. split; [exact Hr|].
      split; [|split].
      * constructor; [|exact Hall].
        exists seg0. split; [rewrite Hheap; apply list_lookup_middle; reflexivity|].
        unfold spoken. rewrite Hparse. reflexivity.
      * intros Hvalid [|k] l0 r Hk Hreuse; cbn in Hk.
        -- injection Hk as <-. rewrite Hparse in Hreuse. cbn [fst snd] in Hreuse.
           rewrite Hfind in Hreuse. discriminate.
        -- apply (Hre ltac:(eapply Forall_impl; [exact Hvalid|];
                            intros r0 Hr0; cbv beta in *; rewrite length_app; cbn; lia) k l0 r Hk).
           rewrite (findExisting_grow (heap m) [seg0] old _ _ Hvalid). exact Hreuse.
      * intros Hfound. exfalso.
        destruct (Hfound l ltac:(left)) as [r Hr0].
        rewrite Hparse in Hr0. cbn [fst snd] in Hr0. rewrite Hfind in Hr0. discriminate.
Qed.

Lemma objects_of_parsed (h : list PodcastSegment.t) lines refs :
  Forall2 (parsedAs h) lines refs ->
  map spoken (Studio.objects h refs) = map Studio.parseLine lines.
Proof.
  unfold Studio.objects.
  induction 1 as [|l r lines refs (seg & Hlk & Hsp) _ IH]; [reflexivity|].
  cbn. rewrite Hlk. cbn. rewrite Hsp, IH. reflexivity.
Qed.

(** The effect, run on a machine that is not generating. *)
Lemma syncSegments_spec (m : Machine) :
  AppState.isGenerating (state (hooks m)) = false ->
  exists refs new m',
    Studio.syncSegments m = (Normal tt, m')
    /\ segments (hooks m') = refs
    /\ heap m' = heap m ++ new
    /\ script (hooks m') = script (hooks m)
    /\ state (hooks m') = state (hooks m)
    /\ Forall2 (parsedAs (heap m')) (nonblankLines (script (hooks m))) refs
    /\ (Forall (fun r => r < length (heap m))%nat (segments (hooks m)) ->
        forall k l r, nonblankLines (script (hooks m)) !! k = Some l ->
                      reused (heap m) (segments (hooks m)) l = Some r ->
                      refs !! k = Some r)
    /\ ((forall l, l ∈ nonblankLines (script (hooks m)) ->
                   is_Some (reused (heap m) (segments (hooks m)) l)) -> new = []).
Proof.
  intros Hidle. unfold Studio.syncSegments. rewrite Hidle.
  destruct (mapLines_spec (segments (hooks m)) (nonblankLines (script (hooks m))) 0 m)
    as (refs & new & m1 & Hrun & Hheap & Hw & Hh & Hr & Hall & Hre & Hno).
  exists refs, new. unfold bind. fold (nonblankLines (script (hooks m))). rewrite Hrun.
  eexists. split; [reflexivity|]. cbn. rewrite Hh.
  repeat split; assumption.
Qed.

(** X6: the effect derives one segment per non-blank line, in script
    order.  A line is blank when [trim] leaves nothing of it, that is
    when it holds white space only, the no-break space included.  On a
    machine that is not generating, the segments after the
    effect are as many as the script has non-blank lines, the [k]-th says
    what the [k]-th line says and is spoken by its speaker, and no object
    that existed before is changed or dropped from the heap.  While a
    production is generating the effect does nothing. *)
Theorem X6_sync_one_segment_per_line :
  (forall m : Machine,
      AppState.isGenerating (state (hooks m)) = false ->
      fst (Studio.syncSegments m) = Normal tt
      /\ map spoken (Studio.objects (heap (snd (Studio.syncSegments m)))
                       (segments (hooks (snd (Studio.syncSegments m)))))
         = map Studio.parseLine (nonblankLines (script (hooks m)))
      /\ length (segments (hooks (snd (Studio.syncSegments m))))
         = length (nonblankLines (script (hooks m)))
      /\ exists new, heap (snd (Studio.syncSegments m)) = heap m ++ new)
  /\ (forall m : Machine,
      AppState.isGenerating (state (hooks m)) = true ->
      Studio.syncSegments m = (Normal tt, m)).
Proof.
  split.
  - intros m Hidle.
    destruct (syncSegments_spec m Hidle)
      as (refs & new & m' & Hrun & Hsegs & Hheap & _ & _ & Hall & _).
    rewrite Hrun. cbn [fst snd]. rewrite Hsegs.
    split; [reflexivity|]. split; [apply objects_of_parsed; exact Hall|].
    split; [symmetry; eapply Forall2_length; exact Hall|].
    exists new. exact Hheap.
  - intros m Hgen. unfold Studio.syncSegments. rewrite Hgen. reflexivity.
Qed.

End Sync.

Lemma X6_sync_one_segment_per_line_witness :
  map SyncSpec.spoken
    (Studio.objects
       (App.heap (snd (Studio.syncSegments Bench.echoReady)))
       (App.segments (App.hooks (snd (Studio.syncSegments Bench.echoReady)))))
  = [("Host", "Yes."); ("Guest", "No."); ("Host", "Yes."); ("Guest", "Bye.")]
  /\ map SyncSpec.spoken
       (Studio.objects
          (App.heap (snd (Studio.syncSegments
                            (SyncSpec.typed
                               ("Host:" +:+ SyncSpec.nbsp +:+ "Hi" +:+ SyncSpec.nbsp
                                +:+ Bench.nl +:+ SyncSpec.nbsp +:+ Bench.nl +:+ "Guest: c")
                               Bench.echoReady))))
          (App.segments
             (App.hooks (snd (Studio.syncSegments
                                (SyncSpec.typed
                                   ("Host:" +:+ SyncSpec.nbsp +:+ "Hi" +:+ SyncSpec.nbsp
                                    +:+ Bench.nl +:+ SyncSpec.nbsp +:+ Bench.nl +:+ "Guest: c")
                                   Bench.echoReady))))))
     = [("Host", "Hi"); ("Guest", "c")].
Proof.
  split.
  - destruct (proj1 (X6_sync_one_segment_per_line (AE := Bench.engine)) Bench.echoReady
                eq_refl) as (_ & Hsaid & _).
    rewrite Hsaid. reflexivity.
  - destruct (proj1 (X6_sync_one_segment_per_line (AE := Bench.engine))
                (SyncSpec.typed
                   ("Host:" +:+ SyncSpec.nbsp +:+ "Hi" +:+ SyncSpec.nbsp
                    +:+ Bench.nl +:+ SyncSpec.nbsp +:+ Bench.nl +:+ "Guest: c")
                   Bench.echoReady) eq_refl) as (_ & Hsaid & _).
    rewrite Hsaid. vm_compute. reflexivity.
Defined.

Section Resync.
Context {AE : AudioEngine}.
Import App SyncSpec.

Lemma parsed_lines_are_reusable (h : list PodcastSegment.t) lines refs :
  Forall2 (parsedAs h) lines refs ->
  forall l, l ∈ lines -> is_Some (reused h refs l).
Proof.
  intros Hall l Hl. apply list_elem_of_lookup in Hl as [k Hk].
  destruct (Forall2_lookup_l _ _ _ _ _ Hall Hk) as (r & Hr & seg & Hlk & Hsp).
  unfold reused. unfold spoken in Hsp.
  eapply findExisting_is_Some; [eapply list_elem_of_lookup_2; exact Hr|exact Hlk| |].
  - rewrite <- Hsp. reflexivity.
  - rewrite <- Hsp. reflexivity.
Qed.

(** X7: the effect is idempotent on the heap.  Running the effect a
    second time on the script it has just processed creates no segment
    object: every line finds the segment made for it, with whatever
    status and audio that segment has acquired, and the segments say the
    same lines as before. *)
Theorem X7_resync_creates_nothing :
  forall m : Machine,
    AppState.isGenerating (state (hooks m)) = false ->
    heap (snd (Studio.syncSegments (snd (Studio.syncSegments m))))
    = heap (snd (Studio.syncSegments m))
    /\ map spoken
         (Studio.objects (heap (snd (Studio.syncSegments (snd (Studio.syncSegments m)))))
            (segments (hooks (snd (Studio.syncSegments (snd (Studio.syncSegments m)))))))
       = map spoken
           (Studio.objects (heap (snd (Studio.syncSegments m)))
              (segments (hooks (snd (Studio.syncSegments m))))).
Proof.
  intros m Hidle.
  destruct (syncSegments_spec m Hidle)
    as (refs & new & m1 & Hrun & Hsegs & Hheap & Hscript & Hstate & Hall & _).
  rewrite Hrun. cbn [snd].
  assert (Hidle1 : AppState.isGenerating (state (hooks m1)) = false)
    by (rewrite Hstate; exact Hidle).
  destruct (syncSegments_spec m1 Hidle1)
    as (refs2 & new2 & m2 & Hrun2 & Hsegs2 & Hheap2 & _ & _ & Hall2 & _ & Hno).
  rewrite Hrun2. cbn [snd]. rewrite Hscript in Hall2, Hno.
  rewrite Hsegs in Hno.
  rewrite (Hno (parsed_lines_are_reusable _ _ _ Hall)), app_nil_r in Hheap2.
  split; [exact Hheap2|].
  rewrite Hsegs, Hsegs2.
  rewrite (objects_of_parsed _ _ _ Hall), (objects_of_parsed _ _ _ Hall2). reflexivity.
Qed.

(** X8: lines that say the same become one object.  When the effect runs
    on a machine whose segments are all objects of the heap, two lines of
    the script with the same speaker and text for which the old segments
    hold a match both receive that match: the new segment list holds the
    same reference at both positions. *)
Theorem X8_equal_lines_share_a_segment_object :
  forall (m : Machine) i j li lj r,
    AppState.isGenerating (state (hooks m)) = false ->
    Forall (fun ref => ref < length (heap m))%nat (segments (hooks m)) ->
    nonblankLines (script (hooks m)) !! i = Some li ->
    nonblankLines (script (hooks m)) !! j = Some lj ->
    Studio.parseLine li = Studio.parseLine lj ->
    reused (heap m) (segments (hooks m)) li = Some r ->
    segments (hooks (snd (Studio.syncSegments m))) !! i = Some r
    /\ segments (hooks (snd (Studio.syncSegments m))) !! j = Some r.
Proof.
  intros m i j li lj r Hidle Hvalid Hi Hj Hsame Hreuse.
  destruct (syncSegments_spec m Hidle)
    as (refs & new & m1 & Hrun & Hsegs & _ & _ & _ & _ & Hre & _).
  rewrite Hrun. cbn [snd]. rewrite Hsegs. split.
  - exact (Hre Hvalid i li r Hi Hreuse).
  - apply (Hre Hvalid j lj r Hj). unfold reused in *. rewrite <- Hsame. exact Hreuse.
Qed.

End Resync.

Lemma X7_resync_creates_nothing_witness :
  App.heap (snd (Studio.syncSegments (snd (Studio.syncSegments SyncSpec.echoEdited))))
  = App.heap (snd (Studio.syncSegments SyncSpec.echoEdited)).
Proof.
  apply (proj1 (X7_resync_creates_nothing (AE := Bench.engine) SyncSpec.echoEdited eq_refl)).
Defined.

Lemma X8_equal_lines_share_a_segment_object_witness :
  App.segments (App.hooks (snd (Studio.syncSegments SyncSpec.echoEdited))) !! 0%nat = Some 0%nat
  /\ App.segments (App.hooks (snd (Studio.syncSegments SyncSpec.echoEdited))) !! 2%nat
     = Some 0%nat.
Proof.
  apply (X8_equal_lines_share_a_segment_object (AE := Bench.engine)
           SyncSpec.echoEdited 0 2 "Host: Yes." "Host: Yes." 0);
    try reflexivity.
  vm_compute. repeat constructor.
Defined.

(** ** The production handler, whatever the engine does *)

Section Handler.
Context {AE : AudioEngine}.
Import App PipelineSpec RunSpec.

(** The routing decision of a production run exists for every quality
    and every credential set. *)
Lemma selectModel_audio (quality : string) (keys : UserApiKeys.t) :
  exists d mc,
    ModelRouter.selectModel (ModelRouter.mkTask "audio_synthesis" quality None) keys = Normal d
    /\ ModelRouter.model d = Some mc
    /\ ModelConfig.provider mc
       = if (quality =? "premium")%string then Provider.gemini else Provider.openai.
Proof.
  unfold ModelRouter.selectModel. cbn [ModelRouter.type ModelRouter.quality].
  literal_eqb. destruct (quality =? "premium")%string;
    eexists; eexists; (split; [reflexivity|]); split; vm_compute; reflexivity.
Qed.

(** The preamble fails only with the audio context, and then before it
    has set anything. *)
Lemma preamble_cases st ctx (m : Machine) :
  (exists e e1,
      ensureAudioContext ctx (env (world m)) = (Throw e, e1)
      /\ Studio.preamble st ctx m
         = (Throw e, {| world := {| env := e1; timers := timers (world m) |};
                        heap := heap m; hooks := hooks m; reports := reports m |}))
  \/ (exists e1 model m1,
        ensureAudioContext ctx (env (world m)) = (Normal tt, e1)
        /\ Studio.preamble st ctx m = (Normal model, m1)
        /\ ModelConfig.provider model
           = (if (AppState.quality st =? "premium")%string
              then Provider.gemini else Provider.openai)
        /\ env (world m1) = e1
        /\ logs (hooks m1)
           = take 100 (LogEntry.mk (Date_now e1) LogEntry.info
                         ("Production pipeline online: " +:+ ModelConfig.name model +:+ ".")
                       :: logs (hooks m))).
Proof.
  destruct (selectModel_audio (AppState.quality st) (AppState.apiKeys st))
    as (d & mc & Hd & Hmc & Hprov).
  destruct d as [modelId mdl reason cost]. cbn [ModelRouter.model] in Hmc. subst mdl.
  unfold Studio.preamble, bind, Studio.await, Studio.setState, Studio.setFullAudioUrl,
    Studio.setSrtUrl, Studio.withHooks, Studio.addLog, Studio.setLogs, ret.
  rewrite Hd. cbn [ModelRouter.model].
  destruct (ensureAudioContext ctx (env (world m))) as [[[]|e] e1].
  - right. exists e1, mc. eexists. split; [reflexivity|]. split; [reflexivity|].
    split; [exact Hprov|]. split; reflexivity.
  - left. exists e, e1. split; reflexivity.
Qed.

(** Once the preamble is through, the run completes normally and ends
    with [isGenerating] cleared, whatever the [try] block did. *)
Lemma run_completes h ctx (m : Machine) model m1 :
  Studio.preamble (state h) ctx m = (Normal model, m1) ->
  exists m',
    Studio.run h ctx m = (Normal tt, m')
    /\ AppState.isGenerating (state (hooks m')) = false.
Proof.
  intros Hpre. unfold Studio.run. rewrite (bind_Normal _ _ _ _ _ Hpre).
  unfold tryCatchFinally.
  destruct (Studio.produce h model ctx m1) as [[[]|err] m2].
  - eexists. split; reflexivity.
  - eexists. split; reflexivity.
Qed.

(** X9: the handler always unlocks the studio.  A handler that starts
    on an idle studio ends on an idle studio ([isGenerating] false),
    whether the production succeeded, failed or never started.  The only
    error that escapes the handler is a failure of [ensureAudioContext],
    and then no hook and no segment has been touched; every other failure
    is caught and reported. *)
Theorem X9_handler_always_unlocks :
  forall m : Machine,
    (AppState.isGenerating (state (hooks m)) = false ->
     AppState.isGenerating (state (hooks (snd (Studio.handlePodcastProduction m)))) = false)
    /\ (forall e, fst (Studio.handlePodcastProduction m) = Throw e ->
          exists ctx,
            audioContextRef (hooks m) = Some ctx
            /\ fst (ensureAudioContext ctx (env (world m))) = Throw e
            /\ hooks (snd (Studio.handlePodcastProduction m)) = hooks m
            /\ heap (snd (Studio.handlePodcastProduction m)) = heap m).
Proof.
  intros m. unfold Studio.handlePodcastProduction. cbv zeta.
  destruct (AppState.isGenerating (state (hooks m)) || Nat.eqb (length (segments (hooks m))) 0)%bool;
    [split; [auto|discriminate]|].
  destruct (audioContextRef (hooks m)) as [ctx|]; [|split; [auto|discriminate]].
  destruct (preamble_cases (state (hooks m)) ctx m)
    as [(e & e1 & Hens & Hpre) | (e1 & model & m1 & Hens & Hpre & _)].
  - unfold Studio.run. rewrite (bind_Throw _ _ _ _ _ Hpre). cbn [fst snd hooks heap].
    split; [auto|]. intros e' [= <-]. exists ctx. rewrite Hens. auto.
  - destruct (run_completes (hooks m) ctx m model m1 Hpre) as (m' & Hrun & Hidle).
    rewrite Hrun. cbn [fst snd]. split; [auto|discriminate].
Qed.

End Handler.

Lemma X9_handler_always_unlocks_witness :
  AppState.isGenerating
    (App.state (App.hooks
       (snd (Studio.handlePodcastProduction
               (Bench.defaultSession (Bench.appState FREE "premium" OGG)
                  (Bench.mkEnv (Some 1%nat) [Throw RetrySpec.badRequest] 7 0))))))
  = false.
Proof.
  apply (proj1 (X9_handler_always_unlocks (AE := Bench.engine)
                  (Bench.defaultSession (Bench.appState FREE "premium" OGG)
                     (Bench.mkEnv (Some 1%nat) [Throw RetrySpec.badRequest] 7 0)))).
  reflexivity.
Defined.

(** ** A production that runs to completion *)

Lemma resolveVoice_family VOICES provider (vmap : gmap string string) speaker v :
  Voices.resolveVoice VOICES provider vmap speaker = Some v ->
  VoiceProfile.engine v = Voices.family (Voices.isGeminiEngine provider).
Proof.
  assert (Hfam : forall v0, Voices.inFamily (Voices.isGeminiEngine provider) v0 = true ->
                            VoiceProfile.engine v0
                            = Voices.family (Voices.isGeminiEngine provider)).
  { intros v0. unfold Voices.inFamily.
    destruct (VoiceProfile.engine v0), (Voices.family _); (reflexivity || discriminate). }
  unfold Voices.resolveVoice. cbv zeta. intros H. apply Hfam.
  destruct (List.find _ VOICES) as [v1|] eqn:H1.
  - injection H as <-. apply List.find_some in H1 as [_ H1].
    apply andb_true_iff in H1 as [_ H1]. exact H1.
  - destruct (List.find (Voices.nameContains speaker) _) as [v2|] eqn:H2.
    + injection H as <-. apply List.find_some in H2 as [H2 _].
      apply List.filter_In in H2 as [_ H2]. exact H2.
    + destruct (List.filter _ VOICES) as [|v3 rest] eqn:H3; [discriminate|].
      injection H as <-.
      assert (Hin : In v3 (List.filter (Voices.inFamily (Voices.isGeminiEngine provider)) VOICES))
        by (rewrite H3; left; reflexivity).
      apply List.filter_In in Hin as [_ Hin]. exact Hin.
Qed.

Lemma resolveVoice_shipped provider (vmap : gmap string string) speaker :
  is_Some (Voices.resolveVoice Constants.VOICES provider vmap speaker).
Proof.
  unfold Voices.resolveVoice. cbv zeta.
  destruct (List.find _ Constants.VOICES); [eexists; reflexivity|].
  destruct (List.find (Voices.nameContains speaker) _); [eexists; reflexivity|].
  destruct provider; vm_compute; eexists; reflexivity.
Qed.

Section Completion.
Context {AE : AudioEngine}.
Import App PipelineSpec RunSpec.
Variable Good : Env -> Prop.
Hypothesis Hworks : browserWorks Good.

Lemma iteration_completes vmap provider ctx total i ref acc (m : Machine) :
  Voices.isGeminiEngine provider = false ->
  Good (env (world m)) ->
  (ref < length (heap m))%nat ->
  exists acc' m',
    Studio.iteration vmap provider ctx total i ref acc m = (Normal acc', m')
    /\ Good (env (world m'))
    /\ length (heap m') = length (heap m).
Proof.
  intros Hbrowser Hgood Hlt.
  destruct (lookup_lt_is_Some_2 _ _ Hlt) as [seg Hlk].
  destruct (resolveVoice_shipped provider vmap (PodcastSegment.speaker seg)) as [v Hv].
  pose proof (resolveVoice_family _ _ _ _ _ Hv) as Hengine.
  rewrite Hbrowser in Hengine. cbn [Voices.family] in Hengine.
  destruct Hworks as (_ & Hspeech & _).
  destruct (Hspeech (PodcastSegment.text seg) (VoiceProfile.voiceName v) ctx _ Hgood)
    as (buffer & e' & Hcall & Hgood').
  unfold Studio.iteration, bind, Studio.deref. rewrite Hlk.
  unfold Studio.setProgress. rewrite Hv. unfold ret at 1.
  unfold Studio.synthesize. rewrite Hengine. unfold Studio.await.
  cbn [world env]. rewrite Hcall. unfold Studio.assign, ret. cbn [heap].
  rewrite Hlk. eexists. eexists. split; [reflexivity|].
  cbn [world env heap]. split; [exact Hgood'|]. apply length_insert.
Qed.

Lemma loop_completes vmap provider ctx total refs :
  Voices.isGeminiEngine provider = false ->
  forall i acc (m : Machine),
    Good (env (world m)) ->
    Forall (fun ref => ref < length (heap m))%nat refs ->
    exists acc' m',
      Studio.loop vmap provider ctx total i refs acc m = (Normal acc', m')
      /\ Good (env (world m')).
Proof.
  intros Hbrowser. induction refs as [|ref refs IH]; intros i acc m Hgood Hvalid.
  - exists acc, m. split; [reflexivity|exact Hgood].
  - inversion Hvalid as [|? ? Hlt Hrest]; subst.
    destruct (iteration_completes vmap provider ctx total i ref acc m Hbrowser Hgood Hlt)
      as (acc1 & m1 & Hstep & Hgood1 & Hlen).
    rewrite <- Hlen in Hrest.
    destruct (IH (S i) acc1 m1 Hgood1 Hrest) as (acc' & m' & Hloop & Hgood').
    exists acc', m'. cbn [Studio.loop]. rewrite (bind_Normal _ _ _ _ _ Hstep).
    split; [exact Hloop|exact Hgood'].
Qed.

Lemma produce_completes h model ctx (m : Machine) :
  Voices.isGeminiEngine (ModelConfig.provider model) = false ->
  Good (env (world m)) ->
  Forall (fun ref => ref < length (heap m))%nat (segments h) ->
  exists m', Studio.produce h model ctx m = (Normal tt, m').
Proof.
  intros Hbrowser Hgood Hvalid.
  unfold Studio.produce, Studio.synthesizeAll, bind, ret.
  rewrite introduce_eq. cbv beta iota.
  match goal with
  | |- context [Studio.loop ?vm ?pr ?c ?t ?i ?refs ?a ?m0] =>
      destruct (loop_completes vm pr c t refs Hbrowser i a m0) as (acc & m1 & Hloop & Hgood1)
  end.
  { exact Hgood. }
  { cbn [heap]. rewrite !length_app. cbn [length].
    constructor; [lia|]. apply Forall_app. split.
    - eapply Forall_impl; [exact Hvalid|]. intros r Hr. cbv beta in *. lia.
    - constructor; [lia|constructor]. }
  rewrite Hloop. cbv beta iota. cbn [fst snd].
  unfold Studio.setProgress. cbv beta iota.
  destruct Hworks as (_ & _ & Hmark).
  unfold Studio.appendWatermark, bind, ret.
  destruct (AppState.tier (state h)).
  - destruct (Hmark ctx _ Hgood1) as (wm & e' & Hcall & _).
    unfold Studio.await at 1. cbn [world env]. rewrite Hcall. cbv beta iota.
    match goal with
    | |- context [Studio.deliver ?a ?b ?c ?d ?e ?m0] =>
        destruct (deliver_effect a b c d e m0) as (m' & Hd & _)
    end.
    exists m'. exact Hd.
  - match goal with
    | |- context [Studio.deliver ?a ?b ?c ?d ?e ?m0] =>
        destruct (deliver_effect a b c d e m0) as (m' & Hd & _)
    end.
    exists m'. exact Hd.
  - match goal with
    | |- context [Studio.deliver ?a ?b ?c ?d ?e ?m0] =>
        destruct (deliver_effect a b c d e m0) as (m' & Hd & _)
    end.
    exists m'. exact Hd.
Qed.

End Completion.

Section Publication.
Context {AE : AudioEngine}.
Import App PipelineSpec RunSpec.

(** What delivery puts in the hooks. *)
Lemma deliver_publishes h model ctx allSegments buffers (m : Machine) m' :
  Studio.deliver h model ctx allSegments buffers m = (Normal tt, m') ->
  exists url srt entry,
    fullAudioUrl (hooks m') = Some url
    /\ srtUrl (hooks m') = Some (TextURL srt)
    /\ progress (hooks m') = broadcastReady
    /\ state (hooks m') = state (hooks m)
    /\ history (hooks m') = take 20 (entry :: history (hooks m))
    /\ logs (hooks m')
       = take 100 (LogEntry.mk (Date_now (env (world m))) LogEntry.info
                     "Master tape generated successfully." :: logs (hooks m))
    /\ h_audioUrl entry = Some url
    /\ h_srtContent entry = Some srt
    /\ h_modelUsed entry = Some (ModelConfig.name model)
    /\ h_script entry = script h
    /\ h_tokensUsed entry = Some (Nat.div (String.length (script h) + 3) 4)
    /\ srt = generateSRT (Studio.objects (heap m') allSegments).
Proof.
  unfold Studio.deliver, bind, ret, Studio.setFullAudioUrl, Studio.setSrtUrl,
    Studio.setProgress, Studio.addLog, Studio.setLogs, Studio.setHistory,
    Studio.withHooks, Studio.await.
  cbn [hooks world heap reports env timers state script topic segments fullAudioUrl
       srtUrl coverArtUrl progress logs history audioContextRef fst snd].
  destruct (crypto_randomUUID (env (world m))) as [uuid e1].
  intros [= <-].
  cbn [hooks world heap reports env timers state script topic segments fullAudioUrl
       srtUrl coverArtUrl progress logs history audioContextRef fst snd].
  eexists. eexists. eexists.
  repeat (split; [reflexivity|]). reflexivity.
Qed.

(** X10: with a working browser engine a production completes.  When
    the audio context, the browser speech synthesis and the watermark
    rendering work, a production at any quality but "premium", started on
    an idle studio with at least one segment, runs to completion: the
    handler returns normally, audio and subtitles are published, the
    progress is "Broadcast Ready!", the studio is idle again and the
    history has one entry more (capped at 20). *)
Theorem X10_production_completes_with_working_browser_engine :
  forall (Good : Env -> Prop) (m : Machine) (ctx : AudioContext),
    browserWorks Good ->
    Good (env (world m)) ->
    AppState.isGenerating (state (hooks m)) = false ->
    segments (hooks m) <> [] ->
    segmentsAlive m ->
    audioContextRef (hooks m) = Some ctx ->
    AppState.quality (state (hooks m)) <> "premium" ->
    exists m',
      Studio.handlePodcastProduction m = (Normal tt, m')
      /\ is_Some (fullAudioUrl (hooks m'))
      /\ is_Some (srtUrl (hooks m'))
      /\ progress (hooks m') = broadcastReady
      /\ AppState.isGenerating (state (hooks m')) = false
      /\ length (history (hooks m')) = Nat.min 20 (S (length (history (hooks m)))).
Proof.
  intros Good m ctx Hworks Hgood Hidle Hsegs Halive Hctx Hquality.
  destruct (preamble_cases (state (hooks m)) ctx m)
    as [(e & e1 & Hens & _) | (e1 & model & m1 & Hens & Hpre & Hprov & Henv & _)].
  { destruct Hworks as (Hensure & _). destruct (Hensure ctx _ Hgood) as (e' & He' & _).
    rewrite He' in Hens. discriminate. }
  destruct (preamble_effect _ _ _ _ _ Hpre) as (_ & _ & Hhist & _ & Hheap & _).
  assert (Hgood1 : Good (env (world m1))).
  { destruct Hworks as (Hensure & _). destruct (Hensure ctx _ Hgood) as (e' & He' & Hg).
    rewrite He' in Hens. injection Hens as <-. rewrite Henv. exact Hg. }
  assert (Hbrowser : Voices.isGeminiEngine (ModelConfig.provider model) = false).
  { rewrite Hprov. apply String.eqb_neq in Hquality. rewrite Hquality. reflexivity. }
  destruct (produce_completes Good Hworks (hooks m) model ctx m1 Hbrowser Hgood1)
    as (m2 & Hproduce).
  { unfold segmentsAlive in Halive. rewrite Hheap. exact Halive. }
  pose proof Hproduce as Hinv.
  apply produce_Normal_inv in Hinv as (allSegments & acc & ma & bs & mb & Hall & Hwm & Hdel).
  destruct (deliver_publishes _ _ _ _ _ _ _ Hdel)
    as (url & srt & entry & Hurl & Hsrt & Hprog & _ & Hhis & _).
  pose proof (keepsHooks_synthesizeAll (hooks m) model ctx m1) as Hkeep.
  rewrite Hall in Hkeep. unfold keepsHooks, besidesProgress in Hkeep. cbn [snd] in Hkeep.
  injection Hkeep as _ _ _ _ _ _ _ _ Hhis1 _.
  apply appendWatermark_Normal in Hwm as ((_ & Hhooks & _) & _).
  cbn [snd Studio.setProgress hooks] in Hhooks.
  assert (Hhisb : history (hooks mb) = history (hooks m)).
  { rewrite Hhooks. cbn [history]. rewrite Hhis1. exact Hhist. }
  eexists. split.
  - unfold Studio.handlePodcastProduction. cbv zeta. rewrite Hidle, Hctx. cbn [orb].
    destruct (segments (hooks m)) as [|r0 rs]; [contradiction|]. cbn [length Nat.eqb].
    unfold Studio.run. rewrite (bind_Normal _ _ _ _ _ Hpre).
    unfold tryCatchFinally. rewrite Hproduce. reflexivity.
  - cbn [hooks fullAudioUrl srtUrl progress state history AppState.isGenerating
         AppState.set_isGenerating].
    rewrite Hurl, Hsrt, Hprog, Hhis, Hhisb.
    split; [eexists; reflexivity|]. split; [eexists; reflexivity|].
    split; [reflexivity|]. split; [reflexivity|].
    rewrite length_take. reflexivity.
Qed.

(** X11: what is published is what is archived.  When the [try] block
    completes, the entry put at the head of the history carries the very
    audio URL and subtitle text that were published, the name of the
    routed model, the script, and a token estimate of a quarter of the
    script length - [script.length], the number of code units - rounded
    up; the subtitles are written from the segment objects as the loop
    left them. *)
Theorem X11_history_entry_matches_publication :
  forall h model ctx (m m' : Machine),
    Studio.produce h model ctx m = (Normal tt, m') ->
    exists url srt entry,
      fullAudioUrl (hooks m') = Some url
      /\ srtUrl (hooks m') = Some (TextURL srt)
      /\ head (history (hooks m')) = Some entry
      /\ h_audioUrl entry = Some url
      /\ h_srtContent entry = Some srt
      /\ h_modelUsed entry = Some (ModelConfig.name model)
      /\ h_script entry = script h
      /\ h_tokensUsed entry = Some (Nat.div (String.length (script h) + 3) 4)
      /\ srt = generateSRT
                 (Studio.objects (heap m')
                    (length (heap m) :: segments h ++ [S (length (heap m))])).
Proof.
  intros h model ctx m m' H.
  apply produce_Normal_inv in H as (allSegments & acc & m1 & bs & m2 & Hall & _ & Hdel).
  apply synthesizeAll_Normal_inv in Hall as (_ & _ & Hsegs & _).
  destruct (deliver_publishes _ _ _ _ _ _ _ Hdel)
    as (url & srt & entry & Hurl & Hsrt & _ & _ & Hhis & _ & Ha & Hs & Hm & Hsc & Ht & Hgen).
  exists url, srt, entry. rewrite Hhis, <- Hsegs. cbn [take head].
  repeat (split; [assumption || reflexivity|]). exact Hgen.
Qed.

End Publication.

Lemma bench_browser_works : RunSpec.browserWorks RunSpec.benchGood.
Proof.
  unfold RunSpec.browserWorks, RunSpec.benchGood. split; [|split].
  - intros ctx e He. exists e. split; [reflexivity|exact He].
  - intros text voiceName ctx e He. exists [text], e. cbn. unfold Bench.benchSpeech.
    rewrite He. split; [reflexivity|reflexivity].
  - intros ctx e He. exists ["(watermark)"], e. split; [reflexivity|exact He].
Defined.

Lemma X10_production_completes_with_working_browser_engine_witness :
  exists m' : App.Machine,
    Studio.handlePodcastProduction Bench.defaultReady = (Normal tt, m')
    /\ is_Some (App.fullAudioUrl (App.hooks m'))
    /\ is_Some (App.srtUrl (App.hooks m'))
    /\ App.progress (App.hooks m') = PipelineSpec.broadcastReady
    /\ AppState.isGenerating (App.state (App.hooks m')) = false
    /\ length (App.history (App.hooks m'))
       = Nat.min 20 (S (length (App.history (App.hooks Bench.defaultReady)))).
Proof.
  apply (X10_production_completes_with_working_browser_engine (AE := Bench.engine)
           RunSpec.benchGood Bench.defaultReady tt bench_browser_works);
    try reflexivity.
  - vm_compute. discriminate.
  - unfold RunSpec.segmentsAlive. vm_compute. repeat constructor.
  - vm_compute. discriminate.
Defined.

Lemma X11_history_entry_matches_publication_witness :
  exists url srt entry,
    App.fullAudioUrl
      (App.hooks (snd (Studio.produce (App.hooks Bench.defaultReady) Bench.edgeNeural tt
                         (Bench.started Bench.defaultReady)))) = Some url
    /\ App.srtUrl
         (App.hooks (snd (Studio.produce (App.hooks Bench.defaultReady) Bench.edgeNeural tt
                            (Bench.started Bench.defaultReady)))) = Some (App.TextURL srt)
    /\ head (App.history
               (App.hooks (snd (Studio.produce (App.hooks Bench.defaultReady) Bench.edgeNeural tt
                                  (Bench.started Bench.defaultReady))))) = Some entry
    /\ App.h_audioUrl entry = Some url
    /\ App.h_srtContent entry = Some srt.
Proof.
  destruct (X11_history_entry_matches_publication (AE := Bench.engine)
              (App.hooks Bench.defaultReady) Bench.edgeNeural tt
              (Bench.started Bench.defaultReady)
              (snd (Studio.produce (App.hooks Bench.defaultReady) Bench.edgeNeural tt
                      (Bench.started Bench.defaultReady))))
    as (url & srt & entry & Hurl & Hsrt & Hhead & Ha & Hs & _).
  { vm_compute. reflexivity. }
  exists url, srt, entry. auto.
Defined.

(** ** Bounds and timelines *)

Section Caps.
Context {AE : AudioEngine}.
Import App PipelineSpec RunSpec.

Lemma capped_refl (m : Machine) : capped m m.
Proof. split; auto. Qed.

Lemma capped_trans (m1 m2 m3 : Machine) : capped m1 m2 -> capped m2 m3 -> capped m1 m3.
Proof. intros [H1 H2] [H3 H4]. split; auto. Qed.

Lemma capped_of_keepsHooks {A} (c : M A) : stable keepsHooks c -> stable capped c.
Proof.
  intros Hc m. specialize (Hc m). unfold keepsHooks, besidesProgress in Hc.
  injection Hc as _ _ _ _ _ _ _ Hlogs Hhist _. split; intros H; congruence.
Qed.

Lemma capped_addLog level message : stable capped (Studio.addLog level message).
Proof.
  intros m. split; cbn; [intros _|auto].
  rewrite length_take. lia.
Qed.

Lemma capped_setState f : stable capped (Studio.setState f).
Proof. intros m. split; auto. Qed.

Lemma capped_setFullAudioUrl url : stable capped (Studio.setFullAudioUrl url).
Proof. intros m. split; auto. Qed.

Lemma capped_setSrtUrl url : stable capped (Studio.setSrtUrl url).
Proof. intros m. split; auto. Qed.

Lemma capped_deliver h model ctx allSegments buffers :
  stable capped (Studio.deliver h model ctx allSegments buffers).
Proof.
  intros m. destruct (deliver_effect h model ctx allSegments buffers m) as (m' & Hd & _).
  rewrite Hd. cbn [snd].
  destruct (deliver_publishes _ _ _ _ _ _ _ Hd)
    as (url & srt & entry & _ & _ & _ & _ & Hhis & Hlogs & _).
  split; intros _; [rewrite Hlogs|rewrite Hhis]; rewrite length_take; lia.
Qed.

Lemma keepsHooks_appendWatermark tier ctx buffers :
  stable keepsHooks (Studio.appendWatermark tier ctx buffers).
Proof.
  destruct tier; cbn [Studio.appendWatermark].
  - apply stable_bind; [exact keepsHooks_trans|apply keepsHooks_await|].
    intros wm. apply stable_ret. exact keepsHooks_refl.
  - apply stable_ret. exact keepsHooks_refl.
  - apply stable_ret. exact keepsHooks_refl.
Qed.

Lemma capped_produce h model ctx : stable capped (Studio.produce h model ctx).
Proof.
  unfold Studio.produce.
  apply stable_bind; [exact capped_trans| |].
  { apply capped_of_keepsHooks, keepsHooks_synthesizeAll. }
  intros run. apply stable_bind; [exact capped_trans| |].
  { apply capped_of_keepsHooks, keepsHooks_setProgress. }
  intros _. apply stable_bind; [exact capped_trans| |].
  { apply capped_of_keepsHooks, keepsHooks_appendWatermark. }
  intros buffers. apply capped_deliver.
Qed.

Lemma capped_tryCatchFinally {A} (body : M A) handler finalizer :
  stable capped body -> (forall e, stable capped (handler e)) -> stable capped finalizer ->
  stable capped (tryCatchFinally body handler finalizer).
Proof.
  intros Hb Hh Hf m. unfold tryCatchFinally. specialize (Hb m).
  destruct (body m) as [[v|e] m1]; cbn [snd] in Hb.
  - specialize (Hf m1). destruct (finalizer m1) as [[u|e] m2]; cbn [snd] in *;
      eapply capped_trans; eassumption.
  - specialize (Hh e m1). destruct (handler e m1) as [c m2]. cbn [snd] in Hh.
    specialize (Hf m2). destruct (finalizer m2) as [[u|e'] m3]; cbn [snd] in *;
      (eapply capped_trans; [exact Hb|]); eapply capped_trans; eassumption.
Qed.

Lemma capped_run h ctx : stable capped (Studio.run h ctx).
Proof.
  unfold Studio.run. apply stable_bind; [exact capped_trans| |].
  - unfold Studio.preamble.
    apply stable_bind; [exact capped_trans|apply capped_of_keepsHooks, keepsHooks_await|].
    intros _. apply stable_bind; [exact capped_trans|apply capped_setState|].
    intros _. apply stable_bind; [exact capped_trans|apply capped_setFullAudioUrl|].
    intros _. apply stable_bind; [exact capped_trans|apply capped_setSrtUrl|].
    intros _. apply stable_bind; [exact capped_trans| |].
    { intros m. apply capped_refl. }
    intros d. apply stable_bind; [exact capped_trans| |].
    { destruct (ModelRouter.model d); [apply stable_ret|apply stable_throw]; exact capped_refl. }
    intros model. apply stable_bind; [exact capped_trans|apply capped_addLog|].
    intros _. apply stable_ret. exact capped_refl.
  - intros model. apply capped_tryCatchFinally.
    + apply capped_produce.
    + intros e. unfold Studio.productionFailed.
      apply stable_bind; [exact capped_trans|apply capped_addLog|].
      intros _. apply capped_of_keepsHooks, keepsHooks_setProgress.
    + apply capped_setState.
Qed.

(** X12: the log and the history stay capped.  Whatever a production
    does - completes, fails at any point, or does not start - a log of at
    most 100 entries is a log of at most 100 entries afterwards, and a
    history of at most 20 entries is a history of at most 20 entries
    afterwards. *)
Theorem X12_log_and_history_stay_capped :
  forall m : Machine,
    (length (logs (hooks m)) <= 100)%nat ->
    (length (history (hooks m)) <= 20)%nat ->
    (length (logs (hooks (snd (Studio.handlePodcastProduction m)))) <= 100)%nat
    /\ (length (history (hooks (snd (Studio.handlePodcastProduction m)))) <= 20)%nat.
Proof.
  intros m Hlogs Hhist.
  assert (Hcap : capped m (snd (Studio.handlePodcastProduction m))).
  { unfold Studio.handlePodcastProduction. cbv zeta.
    destruct (_ || _)%bool; [apply capped_refl|].
    destruct (audioContextRef (hooks m)) as [ctx|]; [|apply capped_refl].
    apply capped_run. }
  destruct Hcap as [H1 H2]. auto.
Qed.

Lemma elapsed_next (buffers : list AudioBuffer) k buffer :
  buffers !! k = Some buffer ->
  elapsed buffers (S k) = PrimFloat.add (elapsed buffers k) (buffer_duration buffer).
Proof.
  intros Hk. unfold elapsed.
  rewrite (take_S_r _ _ _ Hk), map_app, fold_left_app. reflexivity.
Qed.

(** X13: the timeline of a completed run has no gap and no overlap.
    When the segment objects of the script are pairwise distinct objects
    of the heap and the [try] block completes, the intro starts at 0 and
    every segment of the ordered list - intro, script segments, outro -
    starts exactly where its predecessor ends: its start time is the
    predecessor's start time plus the predecessor's duration. *)
Theorem X13_timeline_is_contiguous :
  forall h model ctx (m m' : Machine),
    NoDup (segments h) ->
    Forall (fun r => r < length (heap m))%nat (segments h) ->
    Studio.produce h model ctx m = (Normal tt, m') ->
    (exists intro, heap m' !! length (heap m) = Some intro
                   /\ PodcastSegment.startTime intro = Some 0%float)
    /\ (forall k r r',
          (length (heap m) :: segments h ++ [S (length (heap m))]) !! k = Some r ->
          (length (heap m) :: segments h ++ [S (length (heap m))]) !! S k = Some r' ->
          exists seg seg' start dur,
            heap m' !! r = Some seg /\ heap m' !! r' = Some seg'
            /\ PodcastSegment.startTime seg = Some start
            /\ PodcastSegment.duration seg = Some dur
            /\ PodcastSegment.startTime seg' = Some (PrimFloat.add start dur)).
Proof.
  intros h model ctx m m' Hnd Hvalid H.
  destruct (start_times_of_distinct_segments h model ctx m m' Hnd Hvalid H)
    as (buffers & rest & _ & _ & Htimes).
  split.
  - destruct (Htimes 0%nat (length (heap m)) eq_refl) as (seg & buffer & _ & Hlk & Hs & _).
    exists seg. split; [exact Hlk|exact Hs].
  - intros k r r' Hk Hk'.
    destruct (Htimes k r Hk) as (seg & buffer & Hb & Hlk & Hs & Hd).
    destruct (Htimes (S k) r' Hk') as (seg' & buffer' & _ & Hlk' & Hs' & _).
    exists seg, seg', (elapsed buffers k), (buffer_duration buffer).
    rewrite Hs', (elapsed_next _ _ _ Hb). auto.
Qed.

(** X14: an aborted run leaves its marks on the segments.  When the loop
    has synthesized the pairwise distinct segments [done] and the next
    iteration throws, the loop ends with that error; the segments of
    [done] keep the start time and duration stamped on them during the
    run, and every other segment object - the failing one and those
    after it - is as it was before the run. *)
Theorem X14_aborted_run_keeps_earlier_stamps :
  forall vmap provider ctx total done ref todo (m : Machine) acc m3 err m4,
    NoDup done ->
    Studio.loop vmap provider ctx total 0 done Studio.emptyAcc m = (Normal acc, m3) ->
    Studio.iteration vmap provider ctx total (length done) ref acc m3 = (Throw err, m4) ->
    Studio.loop vmap provider ctx total 0 (done ++ ref :: todo) Studio.emptyAcc m
    = (Throw err, m4)
    /\ (forall k r, done !! k = Some r ->
          exists seg buffer,
            Studio.audioBuffers acc !! k = Some buffer
            /\ heap m4 !! r = Some seg
            /\ PodcastSegment.startTime seg = Some (elapsed (Studio.audioBuffers acc) k)
            /\ PodcastSegment.duration seg = Some (buffer_duration buffer))
    /\ (forall r, r ∉ done -> heap m4 !! r = heap m !! r).
Proof.
  intros vmap provider ctx total done ref todo m acc m3 err m4 Hnd Hdone Hfail.
  split; [eapply loop_stops_at_failure; [exact Hdone|exact Hfail]|].
  destruct (loop_Normal_distinct _ _ _ _ _ _ _ _ _ _ Hnd Hdone)
    as (buffers & Hbufs & _ & Hframe & Htimes).
  cbn [Studio.emptyAcc Studio.audioBuffers Studio.currentTotalTime app] in Hbufs, Htimes.
  rewrite (iteration_Throw_heap _ _ _ _ _ _ _ _ _ _ Hfail), Hbufs.
  split; [|exact Hframe].
  intros k r Hk. destruct (Htimes k r Hk) as (seg & buffer & _ & Hb & Hfinal).
  exists (PodcastSegment.timed seg (elapsed buffers k) (buffer_duration buffer)), buffer.
  split; [exact Hb|]. split; [exact Hfinal|]. split; reflexivity.
Qed.

End Caps.

Lemma X12_log_and_history_stay_capped_witness :
  (length (App.logs (App.hooks (snd (Studio.handlePodcastProduction Bench.defaultRun)))) <= 100)%nat
  /\ (length (App.history (App.hooks (snd (Studio.handlePodcastProduction Bench.defaultRun))))
      <= 20)%nat.
Proof.
  apply (X12_log_and_history_stay_capped (AE := Bench.engine) Bench.defaultRun);
    vm_compute; repeat constructor.
Defined.

Lemma X13_timeline_is_contiguous_witness :
  exists intro,
    App.heap (snd (Studio.produce (App.hooks Bench.defaultReady) Bench.edgeNeural tt
                     (Bench.started Bench.defaultReady))) !! 3%nat = Some intro
    /\ PodcastSegment.startTime intro = Some 0%float.
Proof.
  apply (proj1 (X13_timeline_is_contiguous (AE := Bench.engine)
                  (App.hooks Bench.defaultReady) Bench.edgeNeural tt
                  (Bench.started Bench.defaultReady)
                  (snd (Studio.produce (App.hooks Bench.defaultReady) Bench.edgeNeural tt
                          (Bench.started Bench.defaultReady)))
                  ltac:(vm_compute; repeat constructor; cbv; intros H; inversion H;
                        repeat match goal with
                               | H0 : _ ∈ _ |- _ => inversion H0; clear H0; subst
                               end)
                  ltac:(vm_compute; repeat constructor)
                  ltac:(vm_compute; reflexivity))).
Defined.

Lemma X14_aborted_run_keeps_earlier_stamps_witness :
  exists err m4,
    Studio.loop (AE := Bench.engine)
      (AppState.speakerVoiceMap (Bench.appState FREE "balanced" MP3)) Provider.openai tt 5 0
      ([3%nat; 0%nat; 1%nat] ++ 2%nat :: [4%nat]) Studio.emptyAcc
      (snd (Studio.introduce
              (App.hooks (Bench.defaultSession (Bench.appState FREE "balanced" MP3)
                            (Bench.mkEnv (Some 3%nat) [] 1700000000000 0)))
              (Bench.started (Bench.defaultSession (Bench.appState FREE "balanced" MP3)
                                (Bench.mkEnv (Some 3%nat) [] 1700000000000 0)))))
    = (Throw err, m4).
Proof.
  pose (s := Bench.defaultSession (Bench.appState FREE "balanced" MP3)
               (Bench.mkEnv (Some 3%nat) [] 1700000000000 0)).
  pose (m := snd (Studio.introduce (App.hooks s) (Bench.started s))).
  pose (vmap := AppState.speakerVoiceMap (Bench.appState FREE "balanced" MP3)).
  pose (lp := Studio.loop (AE := Bench.engine) vmap Provider.openai tt 5 0
                [3%nat; 0%nat; 1%nat] Studio.emptyAcc m).
  pose (acc := match fst lp with Normal a => a | Throw _ => Studio.emptyAcc end).
  exists (JS.Error "synthesis-failed"),
    (snd (Studio.iteration (AE := Bench.engine) vmap Provider.openai tt 5 3 2%nat acc (snd lp))).
  apply (X14_aborted_run_keeps_earlier_stamps (AE := Bench.engine) vmap Provider.openai tt 5
           [3%nat; 0%nat; 1%nat] 2%nat [4%nat] m acc (snd lp)).
  - repeat constructor; cbv; intros H; inversion H;
      repeat match goal with
             | H0 : _ ∈ _ |- _ => inversion H0; clear H0; subst
             end.
  - vm_compute. reflexivity.
  - vm_compute. reflexivity.
Defined.

(** ** Synthesis of a single segment *)

Section SingleSegment.
Context {AE : AudioEngine}.
Import App PipelineSpec RunSpec SingleSpec.
Variable createObjectURL : Blob -> Env -> string * Env.

Lemma mapMatching_pass id update refs : forall m : Machine,
  Forall (fun ref => ref < length (heap m))%nat refs ->
  exists refs' extra,
    Single.mapMatching id update refs m = (Normal refs', grow m extra)
    /\ pass id update (heap m) refs (heap m ++ extra) refs'.
Proof.
  induction refs as [|r rest IH]; intros m Halive.
  - exists [], []. split.
    { destruct m. unfold grow. cbn. rewrite app_nil_r. reflexivity. }
    split; [exists []; reflexivity|]. split; [reflexivity|].
    split.
    + intros k ref Hk. rewrite lookup_nil in Hk. discriminate.
    + intros k k' a _ Hk. rewrite lookup_nil in Hk. discriminate.
  - apply Forall_cons in Halive as [Hr Hrest].
    destruct (lookup_lt_is_Some_2 (heap m) r Hr) as [s Hs].
    cbn [Single.mapMatching]. unfold bind, Studio.deref, Studio.alloc, ret.
    rewrite Hs. destruct (String.eqb (PodcastSegment.id s) id) eqn:Hid.
    + destruct (IH (grow m [update s])) as (refs'' & extra & Hrun & Hpass).
      { eapply Forall_impl; [exact Hrest|]. intros x Hx. cbv beta in Hx.
        cbn. rewrite length_app. cbn. lia. }
      unfold grow in Hrun. rewrite Hrun. cbn [grow heap] in Hpass.
      destruct Hpass as (_ & Hlen & Hpos & Hshare).
      exists (length (heap m) :: refs''), ([update s] ++ extra).
      split. { unfold grow. cbn. rewrite <- app_assoc. reflexivity. }
      assert (Hold : forall j a, refs'' !! j = Some a ->
                (a < length (heap m))%nat \/ (length (heap m) + 1 <= a)%nat).
      { intros j a Hj.
        destruct (lookup_lt_is_Some_2 rest j) as [ref Href].
        { rewrite <- Hlen. eapply lookup_lt_Some. exact Hj. }
        destruct (Hpos j ref Href) as (s0 & ref' & _ & Hj' & Hcase).
        rewrite Hj in Hj'. injection Hj' as <-.
        destruct (String.eqb (PodcastSegment.id s0) id).
        - right. destruct Hcase as [_ Hge]. rewrite length_app in Hge. exact Hge.
        - left. subst a. rewrite Forall_lookup in Hrest. exact (Hrest j ref Href). }
      split; [exists ([update s] ++ extra); reflexivity|].
      split; [cbn; rewrite Hlen; reflexivity|]. split.
      * intros [|k] ref Hk.
        -- injection Hk as <-. exists s, (length (heap m)).
           split; [exact Hs|]. split; [reflexivity|]. rewrite Hid.
           split; [|lia]. rewrite lookup_app_r by lia.
           rewrite Nat.sub_diag. reflexivity.
        -- cbn in Hk. destruct (Hpos k ref Hk) as (s0 & ref' & Hs0 & Hk' & Hcase).
           assert (Href : (ref < length (heap m))%nat).
           { rewrite Forall_lookup in Hrest. exact (Hrest k ref Hk). }
           exists s0, ref'. split.
           { rewrite lookup_app_l in Hs0 by exact Href. exact Hs0. }
           split; [exact Hk'|].
           destruct (String.eqb (PodcastSegment.id s0) id); [|exact Hcase].
           destruct Hcase as [Hnew Hge]. rewrite <- app_assoc in Hnew.
           rewrite length_app in Hge. split; [exact Hnew|lia].
      * intros [|k] [|k'] a Hne Hk Hk'; cbn in Hk, Hk'.
        -- contradiction.
        -- injection Hk as <-. destruct (Hold k' _ Hk'); lia.
        -- injection Hk' as <-. destruct (Hold k _ Hk); lia.
        -- destruct (Hold k a Hk) as [Hlt|Hge]; [exact Hlt|].
           assert (Hne' : k <> k') by congruence.
           pose proof (Hshare k k' a Hne' Hk Hk') as Hlt.
           rewrite length_app in Hlt. cbn [length] in Hlt. lia.
    + destruct (IH m Hrest) as (refs'' & extra & Hrun & Hpass).
      rewrite Hrun.
      destruct Hpass as (_ & Hlen & Hpos & Hshare).
      exists (r :: refs''), extra.
      split; [reflexivity|].
      split; [exists extra; reflexivity|].
      split; [cbn; rewrite Hlen; reflexivity|]. split.
      * intros [|k] ref Hk.
        -- injection Hk as <-. exists s, r.
           split; [exact Hs|]. split; [reflexivity|]. rewrite Hid. reflexivity.
        -- cbn in Hk. exact (Hpos k ref Hk).
      * intros [|k] [|k'] a Hne Hk Hk'; cbn in Hk, Hk'.
        -- contradiction.
        -- injection Hk as <-. exact Hr.
        -- injection Hk' as <-. exact Hr.
        -- assert (Hne' : k <> k') by congruence. exact (Hshare k k' a Hne' Hk Hk').
Qed.

Lemma updateSegment_rewrites id update (m : Machine) :
  segmentsAlive m ->
  exists m', Single.updateSegment id update m = (Normal tt, m')
             /\ rewrites id update m m'
             /\ world m' = world m /\ logs (hooks m') = logs (hooks m).
Proof.
  intros Halive.
  destruct (mapMatching_pass id update (segments (hooks m)) m Halive)
    as (refs' & extra & Hrun & Hpass).
  unfold Single.updateSegment, bind, ret. rewrite Hrun.
  eexists. split; [reflexivity|]. split; [|split; reflexivity].
  split; [exact Hpass|]. split; reflexivity.
Qed.

Lemma pass_compose id f g (h h1 h2 : list PodcastSegment.t) refs refs1 refs2 :
  (forall s, PodcastSegment.id (f s) = PodcastSegment.id s) ->
  pass id f h refs h1 refs1 -> pass id g h1 refs1 h2 refs2 ->
  pass id (fun s => g (f s)) h refs h2 refs2.
Proof.
  intros Hkeep ([e1 ->] & Hlen1 & Hpos1 & _) ([e2 ->] & Hlen2 & Hpos2 & Hshare2).
  assert (Hpos : forall k ref, refs !! k = Some ref ->
            exists s ref', h !! ref = Some s /\ refs2 !! k = Some ref'
              /\ if String.eqb (PodcastSegment.id s) id
                 then ((h ++ e1) ++ e2) !! ref' = Some (g (f s))
                      /\ (length (h ++ e1) <= ref')%nat
                 else ref' = ref).
  { intros k ref Hk.
    destruct (Hpos1 k ref Hk) as (s & ref1 & Hs & Hk1 & Hcase1).
    destruct (Hpos2 k ref1 Hk1) as (s1 & ref2 & Hs1 & Hk2 & Hcase2).
    exists s, ref2. split; [exact Hs|]. split; [exact Hk2|].
    destruct (String.eqb (PodcastSegment.id s) id) eqn:Hid.
    - destruct Hcase1 as [Hnew _]. rewrite Hnew in Hs1. injection Hs1 as <-.
      rewrite Hkeep, Hid in Hcase2. exact Hcase2.
    - subst ref1. rewrite (lookup_app_l_Some _ _ _ _ Hs) in Hs1. injection Hs1 as <-.
      rewrite Hid in Hcase2. exact Hcase2. }
  split; [exists (e1 ++ e2); rewrite app_assoc; reflexivity|].
  split; [congruence|]. split.
  - intros k ref Hk. destruct (Hpos k ref Hk) as (s & ref' & Hs & Hk' & Hcase).
    exists s, ref'. split; [exact Hs|]. split; [exact Hk'|].
    destruct (String.eqb (PodcastSegment.id s) id); [|exact Hcase].
    destruct Hcase as [Hnew Hge]. split; [exact Hnew|].
    rewrite length_app in Hge. lia.
  - intros k k' a Hne Hk Hk'.
    pose proof (Hshare2 k k' a Hne Hk Hk') as Hlt.
    destruct (lookup_lt_is_Some_2 refs k) as [ref Href].
    { rewrite <- Hlen1, <- Hlen2. eapply lookup_lt_Some. exact Hk. }
    destruct (Hpos k ref Href) as (s & ref' & Hs & Hk2 & Hcase).
    rewrite Hk in Hk2. injection Hk2 as <-.
    destruct (String.eqb (PodcastSegment.id s) id).
    + destruct Hcase as [_ Hge]. lia.
    + subst a. eapply lookup_lt_Some. exact Hs.
Qed.

Lemma pass_alive id update (h h' : list PodcastSegment.t) refs refs' :
  pass id update h refs h' refs' -> Forall (fun ref => ref < length h')%nat refs'.
Proof.
  intros ([extra ->] & Hlen & Hpos & _). apply Forall_lookup. intros k a Hk.
  destruct (lookup_lt_is_Some_2 refs k) as [ref Href].
  { rewrite <- Hlen. eapply lookup_lt_Some. exact Hk. }
  destruct (Hpos k ref Href) as (s & ref' & Hs & Hk' & Hcase).
  rewrite Hk in Hk'. injection Hk' as <-.
  destruct (String.eqb (PodcastSegment.id s) id).
  - destruct Hcase as [Hnew _]. eapply lookup_lt_Some. exact Hnew.
  - subst a. rewrite length_app. apply lookup_lt_Some in Hs. lia.
Qed.

Lemma pass_objects id update (h h' : list PodcastSegment.t) refs refs' :
  pass id update h refs h' refs' ->
  Studio.objects h' refs' = map (rewritten id update) (Studio.objects h refs).
Proof.
  intros ([extra ->] & Hlen & Hpos & _). clear -Hlen Hpos.
  revert refs' Hlen Hpos. induction refs as [|r rest IH]; intros [|r' rest'] Hlen Hpos;
    try discriminate; [reflexivity|].
  destruct (Hpos 0%nat r eq_refl) as (s & ref' & Hs & Hk & Hcase).
  injection Hk as <-. unfold Studio.objects in *. cbn. rewrite Hs.
  assert (Hnew : (h ++ extra) !! r' = Some (rewritten id update s)).
  { unfold rewritten. destruct (String.eqb (PodcastSegment.id s) id).
    - exact (proj1 Hcase).
    - subst r'. apply lookup_app_l_Some. exact Hs. }
  rewrite Hnew. cbn. f_equal. apply IH.
  - cbn in Hlen. congruence.
  - intros k ref Hk. exact (Hpos (S k) ref Hk).
Qed.

Lemma rewrites_compose id f g (m m1 m2 m3 : Machine) :
  (forall s, PodcastSegment.id (f s) = PodcastSegment.id s) ->
  rewrites id f m m1 -> untouched m1 m2 -> rewrites id g m2 m3 ->
  rewrites id (fun s => g (f s)) m m3.
Proof.
  intros Hkeep (Hp1 & Hh1 & Hr1) (Hheap & Hsegs & Hh2 & Hr2) (Hp3 & Hh3 & Hr3).
  rewrite Hheap, Hsegs in Hp3.
  split; [exact (pass_compose _ _ _ _ _ _ _ _ _ Hkeep Hp1 Hp3)|].
  split; congruence.
Qed.

Lemma rewrites_after id f (m m1 m2 : Machine) :
  untouched m m1 -> rewrites id f m1 m2 -> rewrites id f m m2.
Proof.
  intros (Hheap & Hsegs & Hh1 & Hr1) (Hp & Hh2 & Hr2).
  rewrite Hheap, Hsegs in Hp. split; [exact Hp|]. split; congruence.
Qed.

Lemma rewrites_alive id f (m m' : Machine) : rewrites id f m m' -> segmentsAlive m'.
Proof. intros (Hp & _). exact (pass_alive _ _ _ _ _ _ Hp). Qed.

Lemma untouched_alive (m m' : Machine) : untouched m m' -> segmentsAlive m -> segmentsAlive m'.
Proof. intros (Hheap & Hsegs & _) H. unfold segmentsAlive. rewrite Hheap, Hsegs. exact H. Qed.

Lemma untouched_trans (m1 m2 m3 : Machine) :
  untouched m1 m2 -> untouched m2 m3 -> untouched m1 m3.
Proof.
  intros (H1 & H2 & H3 & H4) (H5 & H6 & H7 & H8). repeat split; congruence.
Qed.

Lemma untouched_of_onlyWorld (m m' : Machine) : onlyWorld m m' -> untouched m m'.
Proof.
  intros (Hheap & Hhooks & Hrep). unfold untouched. rewrite Hhooks.
  repeat split; assumption.
Qed.

Lemma untouched_addLog level message (m : Machine) :
  untouched m (snd (Studio.addLog level message m)).
Proof. repeat split. Qed.

(** The [try] block of [synthesizeSegment] either completes, having
    rewritten the segments of the id as finished, or throws, having left
    segments and log alone. *)
Lemma attempt_cases st seg ctx (m : Machine) :
  segmentsAlive m ->
  (exists url buffer m',
      Single.attempt createObjectURL st seg ctx m = (Normal tt, m')
      /\ rewrites (PodcastSegment.id seg) (Single.finished url (buffer_duration buffer)) m m'
      /\ exists entry, head (logs (hooks m')) = Some entry
           /\ LogEntry.level entry = LogEntry.info
           /\ LogEntry.message entry
              = "Segment synthesis complete for " +:+ PodcastSegment.speaker seg +:+ ".")
  \/ (exists err m',
        Single.attempt createObjectURL st seg ctx m = (Throw err, m')
        /\ untouched m m' /\ logs (hooks m') = logs (hooks m)).
Proof.
  intros Halive.
  destruct (selectModel_audio (AppState.quality st) (AppState.apiKeys st))
    as (d & mc & Hd & Hmc & _).
  destruct (resolveVoice_shipped (ModelConfig.provider mc) (AppState.speakerVoiceMap st)
              (PodcastSegment.speaker seg)) as [v Hv].
  assert (Hred : forall k : AudioBuffer -> M unit,
            bind (fun m0 : Machine =>
                    (ModelRouter.selectModel
                       (ModelRouter.mkTask "audio_synthesis" (AppState.quality st) None)
                       (AppState.apiKeys st), m0))
              (fun ttsDecision =>
                 bind match ModelRouter.model ttsDecision with
                      | Some mc0 => ret mc0
                      | None => throw (JS.Error
                          "Cannot read properties of undefined (reading 'provider')")
                      end
                   (fun model =>
                      bind match Voices.resolveVoice Constants.VOICES
                                   (ModelConfig.provider model)
                                   (AppState.speakerVoiceMap st)
                                   (PodcastSegment.speaker seg) with
                           | Some v0 => ret v0
                           | None => throw (JS.Error
                               "Cannot read properties of undefined (reading 'engine')")
                           end
                        (fun voice =>
                           bind (Studio.synthesize voice (PodcastSegment.text seg) ctx) k))) m
            = bind (Studio.synthesize v (PodcastSegment.text seg) ctx) k m).
  { intros k. unfold bind at 1. rewrite Hd.
    unfold bind at 1. rewrite Hmc. unfold ret at 1.
    unfold bind at 1. rewrite Hv. reflexivity. }
  unfold Single.attempt. rewrite !Hred. clear Hred.
  pose proof (onlyWorld_synthesize v (PodcastSegment.text seg) ctx m) as Hw.
  destruct (Studio.synthesize v (PodcastSegment.text seg) ctx m) as [[buffer|err] m4] eqn:H4;
    cbn [snd] in Hw.
  - left.
    destruct (createObjectURL (audioBufferToWav buffer) (env (world m4))) as [url e5] eqn:Hurl.
    set (m5 := {| world := {| env := e5; timers := timers (world m4) |};
                  heap := heap m4; hooks := hooks m4; reports := reports m4 |}).
    assert (H45 : untouched m4 m5) by (repeat split).
    pose proof (untouched_of_onlyWorld _ _ Hw) as H04.
    pose proof (untouched_trans _ _ _ H04 H45) as H05.
    destruct (updateSegment_rewrites (PodcastSegment.id seg)
                (Single.finished url (buffer_duration buffer)) m5
                (untouched_alive _ _ H05 Halive)) as (m6 & H6 & R6 & _ & _).
    exists url, buffer. eexists. split.
    { rewrite (bind_Normal _ _ _ _ _ H4).
      unfold bind at 1. unfold Studio.await at 1. rewrite Hurl.
      fold m5. rewrite (bind_Normal _ _ _ _ _ H6). reflexivity. }
    split.
    + apply (rewrites_after _ _ m m5); [exact H05|].
      destruct R6 as (Hp & Hh & Hr). split; [exact Hp|]. split; [exact Hh|exact Hr].
    + eexists. split; [reflexivity|]. split; reflexivity.
  - right. exists err, m4.
    split; [exact (bind_Throw _ _ _ _ _ H4)|].
    split; [exact (untouched_of_onlyWorld _ _ Hw)|].
    destruct Hw as (_ & -> & _). reflexivity.
Qed.

(** What [synthesizeSegment] does once the audio context has resumed. *)
Lemma synthesizeSegment_rewrites seg (m : Machine) ctx e1 :
  audioContextRef (hooks m) = Some ctx ->
  AppState.isGenerating (state (hooks m)) = false ->
  segmentsAlive m ->
  ensureAudioContext ctx (env (world m)) = (Normal tt, e1) ->
  exists m' outcome,
    Single.synthesizeSegment createObjectURL seg m = (Normal tt, m')
    /\ rewrites (PodcastSegment.id seg) outcome m m'
    /\ ((exists url buffer,
           outcome = Single.finished url (buffer_duration buffer)
           /\ exists entry, head (logs (hooks m')) = Some entry
                /\ LogEntry.level entry = LogEntry.info
                /\ LogEntry.message entry
                   = "Segment synthesis complete for " +:+ PodcastSegment.speaker seg +:+ ".")
        \/ (exists err,
              outcome = Single.with_status PodcastSegment.error
              /\ exists entry, head (logs (hooks m')) = Some entry
                   /\ LogEntry.level entry = LogEntry.error
                   /\ LogEntry.message entry
                      = "Segment synthesis failed: " +:+ JS.showMessage err)).
Proof.
  intros Hctx Hidle Halive Hensure.
  set (m1 := {| world := {| env := e1; timers := timers (world m) |};
                heap := heap m; hooks := hooks m; reports := reports m |}).
  assert (H1 : Studio.await (ensureAudioContext ctx) m = (Normal tt, m1)).
  { unfold Studio.await. rewrite Hensure. reflexivity. }
  assert (H01 : untouched m m1) by (repeat split).
  destruct (updateSegment_rewrites (PodcastSegment.id seg)
              (Single.with_status PodcastSegment.generating) m1
              (untouched_alive _ _ H01 Halive)) as (m2 & H2 & R2 & _ & _).
  pose proof (rewrites_after _ _ _ _ _ H01 R2) as R02.
  set (note := "Synthesizing segment for " +:+ PodcastSegment.speaker seg +:+ "...").
  set (m3 := snd (Studio.addLog LogEntry.info note m2)).
  assert (H3 : Studio.addLog LogEntry.info note m2 = (Normal tt, m3)) by reflexivity.
  pose proof (untouched_addLog LogEntry.info note m2 : untouched m2 m3) as H23.
  pose proof (untouched_alive _ _ H23 (rewrites_alive _ _ _ _ R2)) as Halive3.
  assert (Hrun0 : Single.synthesizeSegment createObjectURL seg m
                  = tryCatchFinally
                      (Single.attempt createObjectURL (state (hooks m)) seg ctx)
                      (Single.synthesisFailed seg) (ret tt) m3).
  { unfold Single.synthesizeSegment. rewrite Hctx, Hidle.
    rewrite (bind_Normal _ _ _ _ _ H1), (bind_Normal _ _ _ _ _ H2).
    fold note. rewrite (bind_Normal _ _ _ _ _ H3). reflexivity. }
  rewrite Hrun0. unfold tryCatchFinally.
  destruct (attempt_cases (state (hooks m)) seg ctx m3 Halive3)
    as [(url & buffer & m' & Hrun & R & Hlog)|(err & m4 & Hrun & H34 & Hlogs)];
    rewrite Hrun.
  - exists m', (Single.finished url (buffer_duration buffer)).
    split; [reflexivity|]. split.
    + exact (rewrites_compose _ (Single.with_status PodcastSegment.generating)
               (Single.finished url (buffer_duration buffer)) _ _ _ _
               (fun s => eq_refl) R02 H23 R).
    + left. exists url, buffer. split; [reflexivity|exact Hlog].
  - set (failure := "Segment synthesis failed: " +:+ JS.showMessage err).
    set (m5 := snd (Studio.addLog LogEntry.error failure m4)).
    assert (H5 : Studio.addLog LogEntry.error failure m4 = (Normal tt, m5)) by reflexivity.
    pose proof (untouched_addLog LogEntry.error failure m4 : untouched m4 m5) as H45.
    pose proof (untouched_trans _ _ _ (untouched_trans _ _ _ H23 H34) H45) as H25.
    destruct (updateSegment_rewrites (PodcastSegment.id seg)
                (Single.with_status PodcastSegment.error) m5
                (untouched_alive _ _ H25 (rewrites_alive _ _ _ _ R2)))
      as (m6 & H6 & R6 & _ & Hlogs6).
    assert (Hfail : Single.synthesisFailed seg err m4 = (Normal tt, m6)).
    { unfold Single.synthesisFailed. fold failure.
      rewrite (bind_Normal _ _ _ _ _ H5). exact H6. }
    rewrite Hfail.
    exists m6, (Single.with_status PodcastSegment.error).
    split; [reflexivity|]. split.
    + exact (rewrites_compose _ (Single.with_status PodcastSegment.generating)
               (Single.with_status PodcastSegment.error) _ _ _ _
               (fun s => eq_refl) R02 H25 R6).
    + right. exists err. split; [reflexivity|].
      rewrite Hlogs6. eexists. split; [reflexivity|]. split; reflexivity.
Qed.

(** The synthesis reads and writes the world only: what it returns and
    the world it leaves depend on nothing else of the machine. *)
Lemma synthesize_world voice text ctx (m m0 : Machine) :
  world m = world m0 ->
  fst (Studio.synthesize voice text ctx m) = fst (Studio.synthesize voice text ctx m0)
  /\ world (snd (Studio.synthesize voice text ctx m))
     = world (snd (Studio.synthesize voice text ctx m0)).
Proof.
  intros Hw. unfold Studio.synthesize. destruct (VoiceProfile.engine voice).
  - unfold Studio.await. rewrite Hw.
    destruct (generateBrowserSpeech _ _ _ _) as [[b|e] e1]; split; reflexivity.
  - unfold bind, Studio.awaitService, Studio.await. rewrite Hw.
    destruct (GeminiService.generateSpeech _ _ _ (world m0)) as [[base64|e] w1];
      [|split; reflexivity].
    cbn [world]. destruct (decodeGeminiAudio _ _ _) as [[b|e] e1]; split; reflexivity.
Qed.

(** The [try] block of [synthesizeSegment] in terms of the synthesis it
    awaits, for the voice the routing and the resolution give. *)
Lemma attempt_outcome st seg ctx (m : Machine) d mc voice :
  ModelRouter.selectModel
    (ModelRouter.mkTask "audio_synthesis" (AppState.quality st) None)
    (AppState.apiKeys st) = Normal d ->
  ModelRouter.model d = Some mc ->
  Voices.resolveVoice Constants.VOICES (ModelConfig.provider mc)
    (AppState.speakerVoiceMap st) (PodcastSegment.speaker seg) = Some voice ->
  segmentsAlive m ->
  match Studio.synthesize voice (PodcastSegment.text seg) ctx m with
  | (Normal buffer, m4) =>
      exists m',
        Single.attempt createObjectURL st seg ctx m = (Normal tt, m')
        /\ rewrites (PodcastSegment.id seg)
             (Single.finished
                (fst (createObjectURL (audioBufferToWav buffer) (env (world m4))))
                (buffer_duration buffer)) m m'
        /\ logs (hooks m')
           = take 100
               (LogEntry.mk
                  (Date_now (snd (createObjectURL (audioBufferToWav buffer)
                                    (env (world m4)))))
                  LogEntry.info
                  ("Segment synthesis complete for " +:+ PodcastSegment.speaker seg +:+ ".")
                :: logs (hooks m))
        /\ world m'
           = {| env := snd (createObjectURL (audioBufferToWav buffer) (env (world m4)));
                timers := timers (world m4) |}
  | (Throw err, m4) =>
      Single.attempt createObjectURL st seg ctx m = (Throw err, m4)
      /\ untouched m m4 /\ logs (hooks m4) = logs (hooks m)
  end.
Proof.
  intros Hd Hmc Hv Halive.
  assert (Hred : forall k : AudioBuffer -> M unit,
            bind (fun m0 : Machine =>
                    (ModelRouter.selectModel
                       (ModelRouter.mkTask "audio_synthesis" (AppState.quality st) None)
                       (AppState.apiKeys st), m0))
              (fun ttsDecision =>
                 bind match ModelRouter.model ttsDecision with
                      | Some mc0 => ret mc0
                      | None => throw (JS.Error
                          "Cannot read properties of undefined (reading 'provider')")
                      end
                   (fun model =>
                      bind match Voices.resolveVoice Constants.VOICES
                                   (ModelConfig.provider model)
                                   (AppState.speakerVoiceMap st)
                                   (PodcastSegment.speaker seg) with
                           | Some v0 => ret v0
                           | None => throw (JS.Error
                               "Cannot read properties of undefined (reading 'engine')")
                           end
                        (fun voice0 =>
                           bind (Studio.synthesize voice0 (PodcastSegment.text seg) ctx) k))) m
            = bind (Studio.synthesize voice (PodcastSegment.text seg) ctx) k m).
  { intros k. unfold bind at 1. rewrite Hd.
    unfold bind at 1. rewrite Hmc. unfold ret at 1.
    unfold bind at 1. rewrite Hv. reflexivity. }
  unfold Single.attempt. rewrite !Hred. clear Hred.
  pose proof (onlyWorld_synthesize voice (PodcastSegment.text seg) ctx m) as Hw.
  destruct (Studio.synthesize voice (PodcastSegment.text seg) ctx m) as [[buffer|err] m4] eqn:H4;
    cbn [snd] in Hw.
  - destruct (createObjectURL (audioBufferToWav buffer) (env (world m4))) as [url e5] eqn:Hurl.
    cbn [fst snd].
    set (m5 := {| world := {| env := e5; timers := timers (world m4) |};
                  heap := heap m4; hooks := hooks m4; reports := reports m4 |}).
    assert (H45 : untouched m4 m5) by (repeat split).
    pose proof (untouched_of_onlyWorld _ _ Hw) as H04.
    pose proof (untouched_trans _ _ _ H04 H45) as H05.
    destruct (updateSegment_rewrites (PodcastSegment.id seg)
                (Single.finished url (buffer_duration buffer)) m5
                (untouched_alive _ _ H05 Halive)) as (m6 & H6 & R6 & Hw6 & Hlogs6).
    eexists. split.
    { rewrite (bind_Normal _ _ _ _ _ H4).
      unfold bind at 1. unfold Studio.await at 1. rewrite Hurl.
      fold m5. rewrite (bind_Normal _ _ _ _ _ H6). reflexivity. }
    split.
    + apply (rewrites_after _ _ m m5); [exact H05|].
      destruct R6 as (Hp & Hh & Hr). split; [exact Hp|]. split; [exact Hh|exact Hr].
    + cbn [Studio.addLog Studio.setLogs Studio.withHooks snd hooks logs world].
      rewrite Hw6, Hlogs6. destruct Hw as (_ & Hhooks & _).
      cbn [m5 world env hooks]. rewrite Hhooks. split; reflexivity.
  - split; [exact (bind_Throw _ _ _ _ _ H4)|].
    split; [exact (untouched_of_onlyWorld _ _ Hw)|].
    destruct Hw as (_ & -> & _). reflexivity.
Qed.

(** X15: the synthesis of a single segment always settles, and its
    outcome is that of the synthesis.  On an idle studio whose audio
    context resumes, [synthesizeSegment] returns normally whatever the
    synthesis does.  The voice is the one resolved for the speaker of
    the clicked segment in the family of the routed model, and the
    synthesis is that of the text of the segment with this voice, run
    in the world the resumed context left.  When it yields a buffer,
    every segment of the clicked id is afterwards completed, with the
    object URL of the WAV encoding of this buffer and with its duration,
    and the newest log entry reports the completion; when it fails,
    every segment of the clicked id is marked as failed, keeping its
    audio URL and duration, and the newest log entry reads "Segment
    synthesis failed: " and the message of this failure.  Every other
    segment is as it was, the world is the one the synthesis (and the
    object URL) left, and no hook but segments and log changes. *)
Theorem X15_synthesizeSegment_settles :
  forall seg (m : Machine) ctx e1,
    audioContextRef (hooks m) = Some ctx ->
    AppState.isGenerating (state (hooks m)) = false ->
    segmentsAlive m ->
    ensureAudioContext ctx (env (world m)) = (Normal tt, e1) ->
    exists d model voice m',
      ModelRouter.selectModel
        (ModelRouter.mkTask "audio_synthesis" (AppState.quality (state (hooks m))) None)
        (AppState.apiKeys (state (hooks m))) = Normal d
      /\ ModelRouter.model d = Some model
      /\ Voices.resolveVoice Constants.VOICES (ModelConfig.provider model)
           (AppState.speakerVoiceMap (state (hooks m))) (PodcastSegment.speaker seg)
         = Some voice
      /\ Single.synthesizeSegment createObjectURL seg m = (Normal tt, m')
      /\ besidesCards (hooks m') = besidesCards (hooks m)
      /\ match Studio.synthesize voice (PodcastSegment.text seg) ctx (resumed e1 m) with
         | (Normal buffer, spoken) =>
             let '(url, e2) := createObjectURL (audioBufferToWav buffer)
                                 (env (world spoken)) in
             Studio.objects (heap m') (segments (hooks m'))
             = map (rewritten (PodcastSegment.id seg)
                      (Single.finished url (buffer_duration buffer)))
                 (Studio.objects (heap m) (segments (hooks m)))
             /\ head (logs (hooks m'))
                = Some (LogEntry.mk (Date_now e2) LogEntry.info
                          ("Segment synthesis complete for "
                           +:+ PodcastSegment.speaker seg +:+ "."))
             /\ world m' = {| env := e2; timers := timers (world spoken) |}
         | (Throw err, spoken) =>
             Studio.objects (heap m') (segments (hooks m'))
             = map (rewritten (PodcastSegment.id seg)
                      (Single.with_status PodcastSegment.error))
                 (Studio.objects (heap m) (segments (hooks m)))
             /\ head (logs (hooks m'))
                = Some (LogEntry.mk (Date_now (env (world spoken))) LogEntry.error
                          ("Segment synthesis failed: " +:+ JS.showMessage err))
             /\ world m' = world spoken
         end.
Proof.
  intros seg m ctx e1 Hctx Hidle Halive Hensure.
  set (m1 := resumed e1 m).
  assert (H1 : Studio.await (ensureAudioContext ctx) m = (Normal tt, m1)).
  { unfold Studio.await. rewrite Hensure. reflexivity. }
  assert (H01 : untouched m m1) by (repeat split).
  destruct (updateSegment_rewrites (PodcastSegment.id seg)
              (Single.with_status PodcastSegment.generating) m1
              (untouched_alive _ _ H01 Halive)) as (m2 & H2 & R2 & Hw2 & _).
  pose proof (rewrites_after _ _ _ _ _ H01 R2) as R02.
  set (note := "Synthesizing segment for " +:+ PodcastSegment.speaker seg +:+ "...").
  set (m3 := snd (Studio.addLog LogEntry.info note m2)).
  assert (H3 : Studio.addLog LogEntry.info note m2 = (Normal tt, m3)) by reflexivity.
  pose proof (untouched_addLog LogEntry.info note m2 : untouched m2 m3) as H23.
  pose proof (untouched_alive _ _ H23 (rewrites_alive _ _ _ _ R2)) as Halive3.
  assert (Hw3 : world m3 = world m1) by exact Hw2.
  assert (Hrun0 : Single.synthesizeSegment createObjectURL seg m
                  = tryCatchFinally
                      (Single.attempt createObjectURL (state (hooks m)) seg ctx)
                      (Single.synthesisFailed seg) (ret tt) m3).
  { unfold Single.synthesizeSegment. rewrite Hctx, Hidle.
    rewrite (bind_Normal _ _ _ _ _ H1), (bind_Normal _ _ _ _ _ H2).
    fold note. rewrite (bind_Normal _ _ _ _ _ H3). reflexivity. }
  destruct (selectModel_audio (AppState.quality (state (hooks m)))
              (AppState.apiKeys (state (hooks m)))) as (d & mc & Hd & Hmc & _).
  destruct (resolveVoice_shipped (ModelConfig.provider mc)
              (AppState.speakerVoiceMap (state (hooks m)))
              (PodcastSegment.speaker seg)) as [voice Hv].
  exists d, mc, voice.
  pose proof (attempt_outcome (state (hooks m)) seg ctx m3 d mc voice Hd Hmc Hv Halive3)
    as Hout.
  destruct (synthesize_world voice (PodcastSegment.text seg) ctx m3 m1 Hw3) as [Hfst Hsnd].
  destruct (Studio.synthesize voice (PodcastSegment.text seg) ctx m3) as [c3 m4].
  destruct (Studio.synthesize voice (PodcastSegment.text seg) ctx m1) as [c1 spoken].
  cbn [fst snd] in Hfst, Hsnd. subst c3.
  rewrite Hrun0. unfold tryCatchFinally.
  destruct c1 as [buffer|err].
  - destruct Hout as (m' & Hrun & R & Hlogs & Hworld). rewrite Hrun.
    rewrite Hsnd in Hlogs, Hworld, R.
    destruct (createObjectURL (audioBufferToWav buffer) (env (world spoken))) as [url e2].
    cbn [fst snd] in Hlogs, Hworld, R.
    exists m'. split; [exact Hd|]. split; [exact Hmc|]. split; [exact Hv|].
    split; [reflexivity|].
    pose proof (rewrites_compose _ (Single.with_status PodcastSegment.generating)
                  (Single.finished url (buffer_duration buffer)) _ _ _ _
                  (fun s => eq_refl) R02 H23 R) as (Hpass & Hhooks & _).
    split; [exact Hhooks|].
    split; [exact (pass_objects _ _ _ _ _ _ Hpass)|].
    split; [rewrite Hlogs; reflexivity|exact Hworld].
  - destruct Hout as (Hrun & H34 & Hlogs). rewrite Hrun.
    set (failure := "Segment synthesis failed: " +:+ JS.showMessage err).
    set (m5 := snd (Studio.addLog LogEntry.error failure m4)).
    assert (H5 : Studio.addLog LogEntry.error failure m4 = (Normal tt, m5)) by reflexivity.
    pose proof (untouched_addLog LogEntry.error failure m4 : untouched m4 m5) as H45.
    pose proof (untouched_trans _ _ _ (untouched_trans _ _ _ H23 H34) H45) as H25.
    destruct (updateSegment_rewrites (PodcastSegment.id seg)
                (Single.with_status PodcastSegment.error) m5
                (untouched_alive _ _ H25 (rewrites_alive _ _ _ _ R2)))
      as (m6 & H6 & R6 & Hw6 & Hlogs6).
    assert (Hfail : Single.synthesisFailed seg err m4 = (Normal tt, m6)).
    { unfold Single.synthesisFailed. fold failure.
      rewrite (bind_Normal _ _ _ _ _ H5). exact H6. }
    rewrite Hfail.
    exists m6. split; [exact Hd|]. split; [exact Hmc|]. split; [exact Hv|].
    split; [reflexivity|].
    pose proof (rewrites_compose _ (Single.with_status PodcastSegment.generating)
                  (Single.with_status PodcastSegment.error) _ _ _ _
                  (fun s => eq_refl) R02 H25 R6) as (Hpass & Hhooks & _).
    split; [exact Hhooks|].
    split; [exact (pass_objects _ _ _ _ _ _ Hpass)|].
    rewrite Hlogs6, Hw6. cbn [m5 Studio.addLog Studio.setLogs Studio.withHooks snd hooks
                               logs world].
    rewrite Hsnd. split; reflexivity.
Qed.

(** X16: the synthesis of a single segment copies on write.  Under the
    same conditions no segment object that existed before is changed:
    the heap only grows.  A position of the segment list whose segment
    has the clicked id refers to a new object afterwards, every other
    position keeps its object, and two positions that share an object
    afterwards share one that existed before - the copies are pairwise
    distinct objects. *)
Theorem X16_synthesizeSegment_copies_on_write :
  forall seg (m : Machine) ctx e1,
    audioContextRef (hooks m) = Some ctx ->
    AppState.isGenerating (state (hooks m)) = false ->
    segmentsAlive m ->
    ensureAudioContext ctx (env (world m)) = (Normal tt, e1) ->
    let m' := snd (Single.synthesizeSegment createObjectURL seg m) in
    (exists extra, heap m' = heap m ++ extra)
    /\ (forall k ref s,
          segments (hooks m) !! k = Some ref -> heap m !! ref = Some s ->
          if String.eqb (PodcastSegment.id s) (PodcastSegment.id seg)
          then exists ref', segments (hooks m') !! k = Some ref'
                            /\ (length (heap m) <= ref')%nat
          else segments (hooks m') !! k = Some ref)
    /\ (forall k k' a,
          k <> k' ->
          segments (hooks m') !! k = Some a -> segments (hooks m') !! k' = Some a ->
          (a < length (heap m))%nat).
Proof.
  intros seg m ctx e1 Hctx Hidle Halive Hensure.
  destruct (synthesizeSegment_rewrites seg m ctx e1 Hctx Hidle Halive Hensure)
    as (m' & outcome & Hrun & ((Hgrow & _ & Hpos & Hshare) & _) & _).
  rewrite Hrun. cbn [snd]. split; [exact Hgrow|]. split; [|exact Hshare].
  intros k ref s Hk Hs.
  destruct (Hpos k ref Hk) as (s0 & ref' & Hs0 & Hk' & Hcase).
  rewrite Hs in Hs0. injection Hs0 as <-.
  destruct (String.eqb (PodcastSegment.id s) (PodcastSegment.id seg)).
  - exists ref'. split; [exact Hk'|exact (proj2 Hcase)].
  - subst ref'. exact Hk'.
Qed.

End SingleSegment.

Lemma X15_synthesizeSegment_settles_witness :
  (exists m',
      Single.synthesizeSegment (AE := Bench.engine) SingleBench.createObjectURL
        SingleBench.hostCard Bench.defaultReady = (Normal tt, m'))
  /\ map (fun s => (PodcastSegment.status s, PodcastSegment.audioUrl s,
                    PodcastSegment.duration s))
       (Studio.objects
          (App.heap (snd (Single.synthesizeSegment (AE := Bench.engine)
                            SingleBench.createObjectURL SingleBench.hostCard
                            Bench.defaultReady)))
          (App.segments
             (App.hooks (snd (Single.synthesizeSegment (AE := Bench.engine)
                                SingleBench.createObjectURL SingleBench.hostCard
                                Bench.defaultReady)))))
     = [(PodcastSegment.completed, Some "blob:0", Some 33%float);
        (PodcastSegment.pending, None, None);
        (PodcastSegment.pending, None, None)].
Proof.
  split; [|vm_compute; reflexivity].
  destruct (X15_synthesizeSegment_settles (AE := Bench.engine) SingleBench.createObjectURL
              SingleBench.hostCard Bench.defaultReady tt Bench.reliable
              eq_refl eq_refl
              ltac:(vm_compute; repeat constructor)
              eq_refl) as (d & model & voice & m' & _ & _ & _ & Hrun & _).
  exists m'. exact Hrun.
Defined.

Lemma X16_synthesizeSegment_copies_on_write_witness :
  exists extra,
    App.heap (snd (Single.synthesizeSegment (AE := Bench.engine)
                     SingleBench.createObjectURL SingleBench.hostCard Bench.defaultReady))
    = App.heap Bench.defaultReady ++ extra.
Proof.
  exact (proj1 (X16_synthesizeSegment_copies_on_write (AE := Bench.engine)
                  SingleBench.createObjectURL
                  SingleBench.hostCard Bench.defaultReady tt Bench.reliable
                  eq_refl eq_refl
                  ltac:(vm_compute; repeat constructor)
                  eq_refl)).
Defined.

(** ** Script drafting: the Gemini service *)

Lemma withRetry_Normal_inv {Env T} (fn : Async Env T) retries :
  forall delay w v w',
    GeminiService.withRetry fn retries delay w = (Normal v, w') ->
    exists w0, fn w0 = (Normal v, w').
Proof.
  induction retries as [|retries IH]; intros delay w v w'; cbn [GeminiService.withRetry];
    destruct (fn w) as [[v0|error] w1] eqn:Hfn.
  - intros H. exists w. congruence.
  - destruct (GeminiService.isRateLimit error); discriminate.
  - intros H. exists w. congruence.
  - destruct (GeminiService.isRateLimit error) as [[|]|]; try discriminate.
    apply IH.
Qed.

Section ScriptService.
Context {Env : Type} (endpoint : GeminiScripts.ScriptEndpoint Env).

(** X17: [generateScriptFromTopic] never hands back an empty script.
    Whatever the endpoint does, a script that is returned is not empty:
    an answer without text is replaced, at once and without a retry, by
    the line "Host: I encountered an issue generating the script
    context.".  No request names an empty model or asks for a thinking
    budget of zero, and the call sleeps at most three times, for 2000,
    4000 and 8000 ms. *)
Theorem X17_generateScriptFromTopic_never_empty :
  (forall topic options w s w',
      GeminiScripts.generateScriptFromTopic endpoint topic options w = (Normal s, w') ->
      s <> "")
  /\ (forall topic options w text env1,
        endpoint (GeminiScripts.request topic options) (env w) = (Normal text, env1) ->
        JS.truthyString text = false ->
        GeminiScripts.generateScriptFromTopic endpoint topic options w
        = (Normal GeminiScripts.fallbackScript, {| env := env1; timers := timers w |}))
  /\ (forall topic options,
        GeminiScripts.r_model (GeminiScripts.request topic options) <> ""
        /\ GeminiScripts.r_thinkingBudget (GeminiScripts.request topic options) <> Some 0)
  /\ (forall topic options w,
        exists k, (k <= 3)%nat
                  /\ timers (snd (GeminiScripts.generateScriptFromTopic endpoint topic options w))
                     = timers w ++ RetrySpec.backoff 2000 k).
Proof.
  split; [|split; [|split]].
  - intros topic options w s w' H.
    apply withRetry_Normal_inv in H as [w0 H].
    destruct (endpoint _ (env w0)) as [[text|e] env1]; [|discriminate].
    injection H as <- _. destruct text as [[|c rest]|]; cbn; discriminate.
  - intros topic options w text env1 Hcall Hempty.
    unfold GeminiScripts.generateScriptFromTopic.
    apply withRetry_fulfilled. rewrite Hcall, Hempty. reflexivity.
  - intros topic options. unfold GeminiScripts.request. cbn. split.
    + destruct (GeminiScripts.model options) as [[|c rest]|]; cbn; discriminate.
    + destruct (JS.truthyBool _); [|discriminate].
      unfold GeminiScripts.budgetOrDefault.
      destruct (GeminiScripts.thinkingBudget options) as [b|]; [|discriminate].
      destruct (b =? 0)%Z eqn:Hb; [discriminate|].
      intros [= ->]. discriminate.
  - intros topic options w. unfold GeminiScripts.generateScriptFromTopic.
    apply withRetry_backoff_prefix. intros w0.
    destruct (endpoint _ (env w0)) as [[text|e] env1]; reflexivity.
Qed.

End ScriptService.

Lemma X17_generateScriptFromTopic_never_empty_witness :
  GeminiScripts.generateScriptFromTopic (@generateText _ DraftBench.backend)
    "Tides" (GeminiScripts.mkOptions None None None)
    (mkWorld (DraftBench.mkEnv [] [Normal None] 0 None 0) [])
  = (Normal GeminiScripts.fallbackScript, mkWorld (DraftBench.mkEnv [] [] 0 None 0) []).
Proof.
  apply (proj1 (proj2 (X17_generateScriptFromTopic_never_empty
                         (@generateText _ DraftBench.backend)))
           "Tides" (GeminiScripts.mkOptions None None None)
           (mkWorld (DraftBench.mkEnv [] [Normal None] 0 None 0) [])
           None (DraftBench.mkEnv [] [] 0 None 0));
    reflexivity.
Defined.

(** ** The URLs of the Pollinations service *)

Lemma all_append p a b : URI.all p (a +:+ b) = (URI.all p a && URI.all p b)%bool.
Proof.
  induction a as [|c a IH]; [reflexivity|].
  change (String c a +:+ b) with (String c (a +:+ b)). cbn [URI.all].
  rewrite IH, andb_assoc. reflexivity.
Qed.

Lemma escape_pathSafe c : URI.all URI.pathSafe (URI.escape c) = true.
Proof. destruct c as [[|] [|] [|] [|] [|] [|] [|] [|]]; vm_compute; reflexivity. Qed.

Lemma encodeURIComponent_pathSafe s :
  URI.all URI.pathSafe (URI.encodeURIComponent s) = true.
Proof.
  induction s as [|c s IH]; [reflexivity|].
  cbn [URI.encodeURIComponent]. rewrite all_append, IH, andb_true_r.
  destruct (URI.unreserved c) eqn:Hc; [|apply escape_pathSafe].
  cbn [URI.all]. unfold URI.pathSafe. rewrite Hc. reflexivity.
Qed.

(** X18: the topic stays inside the path of the URLs.  The cover art
    URL and the script URL consist of the fixed origin, one path segment
    and the query string; the path segment holds unreserved characters
    and percent escapes only - no question mark, ampersand, equals sign,
    hash, slash, space or quote - so that no topic can add to or change
    the query.  Of the topic, the cover art URL depends on the first 100
    code units only.  Topics are strings of code units below 256: on
    these [encodeURIComponent] does not throw, a code unit from 128 on
    being escaped as the two bytes of its UTF-8 encoding. *)
Theorem X18_topic_stays_in_the_path :
  (forall topic model style seed,
      exists path,
        PollinationsService.coverArtUrl topic model style seed
        = "https://image.pollinations.ai/prompt/" +:+ path +:+ "?model=" +:+ model
            +:+ "&seed=" +:+ JS.showZ seed +:+ "&width=1024&height=1024&nologo=true"
        /\ URI.all URI.pathSafe path = true)
  /\ (forall topic model type seed,
        exists path,
          PollinationsService.scriptUrl topic model type seed
          = "https://text.pollinations.ai/" +:+ path +:+ "?"
              +:+ PollinationsService.scriptParams model seed
          /\ URI.all URI.pathSafe path = true)
  /\ (forall c, URI.pathSafe c = true ->
                JS.hasChar c ("?&=#/ " +:+ URI.dquote) = false)
  /\ (forall topic topic' model style seed,
        String.substring 0 100 topic' = String.substring 0 100 topic ->
        PollinationsService.coverArtUrl topic' model style seed
        = PollinationsService.coverArtUrl topic model style seed).
Proof.
  split; [|split; [|split]].
  - intros topic model style seed. eexists. split; [reflexivity|].
    apply encodeURIComponent_pathSafe.
  - intros topic model type seed. eexists. split; [reflexivity|].
    apply encodeURIComponent_pathSafe.
  - intros c. destruct c as [[|] [|] [|] [|] [|] [|] [|] [|]]; vm_compute;
      intros H; (reflexivity || discriminate H).
  - intros topic topic' model style seed H. unfold PollinationsService.coverArtUrl.
    rewrite H. reflexivity.
Qed.

Lemma X18_topic_stays_in_the_path_witness :
  PollinationsService.coverArtUrl
    ("Tides?model=flux&x=" +:+ String.concat "" (repeat "ab" 50) +:+ " and more") "turbo" None 7
  = PollinationsService.coverArtUrl
      ("Tides?model=flux&x=" +:+ String.concat "" (repeat "ab" 50)) "turbo" None 7.
Proof.
  apply (proj2 (proj2 (proj2 X18_topic_stays_in_the_path))). vm_compute. reflexivity.
Defined.

(** ** Script drafting: the orchestrator *)

Lemma selectModel_script topic quality (keys : UserApiKeys.t) :
  exists d mc,
    ModelRouter.selectModel
      (ModelRouter.mkTask "script_generation" quality
         (Some (Nat.ltb 60 (String.length topic)))) keys = Normal d
    /\ ModelRouter.model d = Some mc
    /\ ModelRouter.modelId d
       = Wire.routedModelId topic quality (UserApiKeys.pollinationsKey keys)
    /\ ModelConfig.provider mc
       = (if Wire.viaGemini topic quality then Provider.gemini else Provider.pollinations)
    /\ ModelConfig.name mc = Wire.routedName topic quality (UserApiKeys.pollinationsKey keys)
    /\ ModelRouter.estimatedCost d
       = Wire.routedCost topic quality (UserApiKeys.pollinationsKey keys).
Proof.
  unfold ModelRouter.selectModel, Wire.routedModelId, Wire.routedName, Wire.routedCost,
    Wire.viaGemini, Wire.paidRoute.
  cbn [ModelRouter.type ModelRouter.quality ModelRouter.requiresReasoning JS.truthyBool].
  literal_eqb.
  destruct (quality =? "premium")%string, (Nat.ltb 60 (String.length topic)),
    (quality =? "balanced")%string, (JS.truthyString (UserApiKeys.pollinationsKey keys));
    eexists; eexists; (split; [reflexivity|]); repeat split; vm_compute; reflexivity.
Qed.

Section Orchestrator.
Context {Env : Type} {BE : Backend Env}.

(** The orchestrator in terms of the routing and the draft. *)
Lemma generateScript_outcome topic (st : AppState.t) scriptType (w : World Env) :
  let key := UserApiKeys.pollinationsKey (AppState.apiKeys st) in
  let quality := AppState.quality st in
  exists d,
    ModelRouter.modelId d = Wire.routedModelId topic quality key
    /\ ModelRouter.estimatedCost d = Wire.routedCost topic quality key
    /\ ApiOrchestrator.draft topic st scriptType d w
       = (if Wire.viaGemini topic quality
          then GeminiScripts.generateScriptFromTopic generateText topic
                 {| GeminiScripts.model := Some (ModelRouter.modelId d);
                    GeminiScripts.useDeepThink := Some (quality =? "premium")%string;
                    GeminiScripts.thinkingBudget := Some 15000 |} w
          else PollinationsService.generateScript topic
                 (if Wire.paidRoute quality key then "openai" else "mistral")
                 scriptType key w)
    /\ ApiOrchestrator.generateScript topic st scriptType w
       = match ApiOrchestrator.draft topic st scriptType d w with
         | (Throw e, w1) =>
             (Throw (JS.Error ("Orchestration failed via " +:+ Wire.routedName topic quality key
                               +:+ ": " +:+ JS.showMessage e)), w1)
         | (Normal scriptText, w1) =>
             let tokens := Nat.div (String.length topic + String.length scriptText + 3) 4 in
             (Normal {| ApiOrchestrator.script := scriptText;
                        ApiOrchestrator.modelUsed := Wire.routedName topic quality key;
                        ApiOrchestrator.costEstimate := Wire.routedCost topic quality key;
                        ApiOrchestrator.tokensUsed := tokens |},
              {| env := ApiOrchestrator.recordProductionMetadata d tokens (env w1);
                 timers := timers w1 |})
         end.
Proof.
  cbv zeta.
  destruct (selectModel_script topic (AppState.quality st) (AppState.apiKeys st))
    as (d & mc & Hd & Hmc & Hid & Hprov & Hname & Hcost).
  exists d. split; [exact Hid|]. split; [exact Hcost|]. split.
  - unfold ApiOrchestrator.draft. rewrite Hmc, Hprov, Hid.
    unfold Wire.routedModelId.
    destruct (Wire.viaGemini topic (AppState.quality st)); [reflexivity|].
    cbn [Provider.eqb].
    destruct (Wire.paidRoute _ _); reflexivity.
  - unfold ApiOrchestrator.generateScript. rewrite Hd, Hmc, Hname, Hcost.
    destruct (ApiOrchestrator.draft topic st scriptType d w) as [[s|e] w1]; reflexivity.
Qed.

End Orchestrator.

Lemma generateScriptFromTopic_backoff {Env} (endpoint : GeminiScripts.ScriptEndpoint Env)
    topic options (w : World Env) :
  exists k, (k <= 3)%nat
            /\ timers (snd (GeminiScripts.generateScriptFromTopic endpoint topic options w))
               = timers w ++ RetrySpec.backoff 2000 k.
Proof.
  unfold GeminiScripts.generateScriptFromTopic.
  apply withRetry_backoff_prefix. intros w0.
  destruct (endpoint _ (env w0)) as [[text|e] env1]; reflexivity.
Qed.

Lemma withRetry_calls {Env T} (fn : Async (Env * list Wire.Call) T) c :
  (forall w0, Wire.calls (snd (fn w0)) = Wire.calls w0 ++ [c]) ->
  forall retries delay w,
    exists k, (1 <= k <= S retries)%nat
              /\ Wire.calls (snd (GeminiService.withRetry fn retries delay w))
                 = Wire.calls w ++ repeat c k.
Proof.
  intros Hframe retries.
  induction retries as [|retries IH]; intros delay w; cbn [GeminiService.withRetry];
    pose proof (Hframe w) as Hw; destruct (fn w) as [[v|error] w1]; cbn [snd] in *.
  - exists 1%nat. split; [lia|exact Hw].
  - exists 1%nat. split; [lia|]. destruct (GeminiService.isRateLimit error); exact Hw.
  - exists 1%nat. split; [lia|exact Hw].
  - destruct (GeminiService.isRateLimit error) as [[|]|te].
    + destruct (IH (delay * 2) (sleep delay w1)) as (k & Hk & Hcalls).
      exists (S k). split; [lia|]. rewrite Hcalls.
      change (Wire.calls (sleep delay w1)) with (Wire.calls w1).
      rewrite Hw, <- app_assoc. reflexivity.
    + exists 1%nat. split; [lia|exact Hw].
    + exists 1%nat. split; [lia|exact Hw].
Qed.

Section Calls.
Context {Env : Type} (BE : Backend Env).

Lemma gemini_calls topic options (w : World (Env * list Wire.Call)) :
  exists k, (1 <= k <= 4)%nat
            /\ Wire.calls (snd (GeminiScripts.generateScriptFromTopic
                                  (@generateText _ (Wire.recording BE)) topic options w))
               = Wire.calls w ++ repeat (Wire.Generate (GeminiScripts.request topic options)) k.
Proof.
  unfold GeminiScripts.generateScriptFromTopic. apply withRetry_calls. intros w0.
  cbn [generateText Wire.recording].
  destruct (@generateText Env BE _ (fst (env w0))) as [[text|e] e1]; reflexivity.
Qed.

Lemma pollinations_calls topic model type key (w : World (Env * list Wire.Call)) :
  exists seed,
    Wire.calls (snd (PollinationsService.generateScript (BE := Wire.recording BE)
                       topic model type key w))
    = Wire.calls w ++ [Wire.Fetch (PollinationsService.scriptUrl topic model type seed)
                         (PollinationsService.scriptHeaders key)].
Proof.
  unfold PollinationsService.generateScript. cbn [randomSeed fetch Wire.recording].
  destruct (@randomSeed Env BE (fst (env w))) as [seed e1]. exists seed.
  cbn [fst snd].
  destruct (@fetch Env BE _ _ e1) as [[response|e] e2]; [|reflexivity].
  destruct (Response.ok response); [reflexivity|].
  destruct (Response.text response); reflexivity.
Qed.

Lemma metadata_keeps_calls d tokens (e : Env * list Wire.Call) :
  snd (ApiOrchestrator.recordProductionMetadata (BE := Wire.recording BE) d tokens e) = snd e.
Proof.
  unfold ApiOrchestrator.recordProductionMetadata.
  destruct (localStorage_getItem _ e); [|reflexivity].
  destruct (JSON_parse _); [|reflexivity].
  destruct (asArray _); [|reflexivity].
  destruct (ModelRouter.model d); [|reflexivity].
  destruct (JSON_stringify _); [|reflexivity].
  cbn [localStorage_setItem Wire.recording].
  destruct (@localStorage_setItem Env BE _ _ (fst e)); reflexivity.
Qed.

(** X19: which provider a draft contacts, and how often.  When the
    topic is longer than 60 code units ([topic.length > 60]) or the
    quality is premium, the orchestrator sends between one and four
    requests to Gemini, all for the model "gemini-3-pro-preview", with a
    thinking budget of 15000 at premium quality and none otherwise, and
    makes no [fetch].  In every
    other case it makes exactly one [fetch], to the text endpoint of
    Pollinations with the model "openai" when the quality is balanced
    and a key is set, and "mistral" otherwise; a failed [fetch] is not
    repeated and Gemini is not contacted. *)
Theorem X19_draft_contacts_one_provider :
  forall topic (st : AppState.t) scriptType (w : World (Env * list Wire.Call)),
    let quality := AppState.quality st in
    let key := UserApiKeys.pollinationsKey (AppState.apiKeys st) in
    let w' := snd (ApiOrchestrator.generateScript (BE := Wire.recording BE)
                     topic st scriptType w) in
    if Wire.viaGemini topic quality
    then exists k, (1 <= k <= 4)%nat
                   /\ Wire.calls w'
                      = Wire.calls w
                        ++ repeat (Wire.Generate (Wire.reasoningRequest topic quality)) k
    else exists seed,
           Wire.calls w'
           = Wire.calls w
             ++ [Wire.Fetch
                   (PollinationsService.scriptUrl topic
                      (if Wire.paidRoute quality key then "openai" else "mistral")
                      scriptType seed)
                   (PollinationsService.scriptHeaders key)].
Proof.
  intros topic st scriptType w. cbv zeta.
  destruct (generateScript_outcome (BE := Wire.recording BE) topic st scriptType w)
    as (d & Hid & _ & Hdraft & Hrun).
  assert (Hcalls : Wire.calls (snd (ApiOrchestrator.generateScript (BE := Wire.recording BE)
                                      topic st scriptType w))
                   = Wire.calls (snd (ApiOrchestrator.draft (BE := Wire.recording BE)
                                        topic st scriptType d w))).
  { rewrite Hrun.
    destruct (ApiOrchestrator.draft topic st scriptType d w) as [[s|e] w1]; [|reflexivity].
    unfold Wire.calls. cbn [snd env]. apply metadata_keeps_calls. }
  rewrite Hcalls, Hdraft. clear Hcalls Hdraft Hrun.
  unfold Wire.routedModelId in Hid.
  destruct (Wire.viaGemini topic (AppState.quality st)).
  - rewrite Hid.
    destruct (gemini_calls topic
                {| GeminiScripts.model := Some "gemini-3-pro-preview";
                   GeminiScripts.useDeepThink := Some (AppState.quality st =? "premium")%string;
                   GeminiScripts.thinkingBudget := Some 15000 |} w) as (k & Hk & Hcalls).
    exists k. split; [exact Hk|]. rewrite Hcalls. f_equal. f_equal. f_equal.
    unfold GeminiScripts.request, Wire.reasoningRequest. cbn.
    destruct (AppState.quality st =? "premium")%string; reflexivity.
  - apply pollinations_calls.
Qed.

(** X21: a blank key is billed but not sent.  With balanced quality, a
    topic of at most 60 characters and a Pollinations key that is not
    empty but consists of white space only, the router counts the key as
    present: the draft is reported as made by "Pollinations (Paid -
    GPT-4o)" at an estimated cost of 0.002 and the model "openai" is
    requested - while the one request that is made carries no
    [Authorization] header. *)
Theorem X21_blank_key_is_billed_but_not_sent :
  forall topic (st : AppState.t) scriptType (w : World (Env * list Wire.Call)) key,
    AppState.quality st = "balanced" ->
    (String.length topic <= 60)%nat ->
    UserApiKeys.pollinationsKey (AppState.apiKeys st) = Some key ->
    Wire.blankKey key ->
    (exists seed,
        Wire.calls (snd (ApiOrchestrator.generateScript (BE := Wire.recording BE)
                           topic st scriptType w))
        = Wire.calls w
          ++ [Wire.Fetch (PollinationsService.scriptUrl topic "openai" scriptType seed) []])
    /\ (forall r w',
          ApiOrchestrator.generateScript (BE := Wire.recording BE) topic st scriptType w
          = (Normal r, w') ->
          ApiOrchestrator.modelUsed r = "Pollinations (Paid - GPT-4o)"
          /\ ApiOrchestrator.costEstimate r = 0.002%float).
Proof.
  intros topic st scriptType w key Hquality Hshort Hkey [Hne Hblank].
  assert (Hgem : Wire.viaGemini topic (AppState.quality st) = false).
  { unfold Wire.viaGemini. rewrite Hquality.
    assert (Hlt : Nat.ltb 60 (String.length topic) = false) by (apply Nat.ltb_ge; exact Hshort).
    rewrite Hlt. reflexivity. }
  assert (Hpaid : Wire.paidRoute (AppState.quality st)
                    (UserApiKeys.pollinationsKey (AppState.apiKeys st)) = true).
  { unfold Wire.paidRoute. rewrite Hquality, Hkey.
    destruct key; [contradiction|reflexivity]. }
  assert (Hheaders : PollinationsService.scriptHeaders (Some key) = []).
  { unfold PollinationsService.scriptHeaders. rewrite Hblank.
    destruct (JS.truthyString (Some key)); reflexivity. }
  destruct (generateScript_outcome (BE := Wire.recording BE) topic st scriptType w)
    as (d & _ & _ & Hdraft & Hrun).
  rewrite Hgem, Hpaid, Hkey in Hdraft.
  unfold Wire.routedName, Wire.routedCost in Hrun. rewrite Hgem, Hpaid in Hrun.
  split.
  - destruct (pollinations_calls topic "openai" scriptType (Some key) w) as (seed & Hcalls).
    exists seed. rewrite Hheaders in Hcalls. rewrite <- Hcalls, <- Hdraft, Hrun.
    destruct (ApiOrchestrator.draft topic st scriptType d w) as [[s|e] w1]; [|reflexivity].
    unfold Wire.calls. cbn [snd env]. apply metadata_keeps_calls.
  - intros r w' H. rewrite Hrun in H.
    destruct (ApiOrchestrator.draft topic st scriptType d w) as [[s|e] w1]; [|discriminate].
    injection H as <- _. split; reflexivity.
Qed.

End Calls.

Section Results.
Context {Env : Type} {BE : Backend Env}.

Lemma pollinations_keeps_timers topic model type key (w : World Env) :
  timers (snd (PollinationsService.generateScript topic model type key w)) = timers w.
Proof.
  unfold PollinationsService.generateScript.
  destruct (randomSeed (env w)) as [seed e1].
  destruct (fetch _ _ e1) as [[response|e] e2]; [|reflexivity].
  destruct (Response.ok response); [reflexivity|].
  destruct (Response.text response); reflexivity.
Qed.

(** X20: what a draft reports.  The orchestrator fails exactly when
    the call of the provider in its [try] block fails, and then with the
    message "Orchestration failed via N: M", where N is the name of the
    routed model and M the message of that failure.  When the call
    returns a script, the orchestrator returns it with that name, the
    estimated cost of the route and a quarter of the length of topic
    and script in code units, rounded up, as tokens - whatever becomes
    of the bookkeeping in [recordProductionMetadata], which sets no
    timer; on the Gemini route the script is not empty.  Only the Gemini route
    waits: at most three times, for 2000, 4000 and 8000 ms; the
    Pollinations route sets no timer. *)
Theorem X20_draft_reports :
  forall topic (st : AppState.t) scriptType (w : World Env),
    let quality := AppState.quality st in
    let key := UserApiKeys.pollinationsKey (AppState.apiKeys st) in
    let name := Wire.routedName topic quality key in
    let run := ApiOrchestrator.generateScript topic st scriptType w in
    In name Wire.scriptModels
    /\ (exists d,
          ModelRouter.modelId d = Wire.routedModelId topic quality key
          /\ match ApiOrchestrator.draft topic st scriptType d w with
             | (Throw failure, w1) =>
                 run = (Throw (JS.Error ("Orchestration failed via " +:+ name +:+ ": "
                                         +:+ JS.showMessage failure)), w1)
             | (Normal scriptText, w1) =>
                 fst run
                 = Normal {| ApiOrchestrator.script := scriptText;
                             ApiOrchestrator.modelUsed := name;
                             ApiOrchestrator.costEstimate := Wire.routedCost topic quality key;
                             ApiOrchestrator.tokensUsed :=
                               Nat.div (String.length topic + String.length scriptText + 3) 4 |}
                 /\ timers (snd run) = timers w1
                 /\ (Wire.viaGemini topic quality = true -> scriptText <> "")
             end)
    /\ exists k, (k <= 3)%nat
                 /\ timers (snd run) = timers w ++ RetrySpec.backoff 2000 k
                 /\ (Wire.viaGemini topic quality = false -> k = 0%nat).
Proof.
  intros topic st scriptType w. cbv zeta.
  destruct (generateScript_outcome topic st scriptType w) as (d & Hid & _ & Hdraft & Hrun).
  split.
  { unfold Wire.routedName, Wire.scriptModels.
    destruct (Wire.viaGemini _ _); [left; reflexivity|].
    destruct (Wire.paidRoute _ _); [right; left; reflexivity|right; right; left; reflexivity]. }
  rewrite Hrun. clear Hrun. split.
  - exists d. split; [exact Hid|].
    destruct (ApiOrchestrator.draft topic st scriptType d w) as [[s|e] w1] eqn:Hd;
      [|reflexivity].
    cbn [fst snd timers]. split; [reflexivity|]. split; [reflexivity|].
    intros Hgem. rewrite Hgem in Hdraft. symmetry in Hdraft.
    apply withRetry_Normal_inv in Hdraft as [w0 Hd0].
    destruct (generateText _ (env w0)) as [[text|e] env1]; [|discriminate].
    injection Hd0 as <- _. destruct text as [[|c rest]|]; cbn; discriminate.
  - match goal with
    | |- context [timers (snd ?X)] =>
        assert (Ht : timers (snd X)
                     = timers (snd (ApiOrchestrator.draft topic st scriptType d w)))
          by (destruct (ApiOrchestrator.draft topic st scriptType d w) as [[s|e] w1];
              reflexivity)
    end.
    rewrite Ht, Hdraft. clear Ht.
    destruct (Wire.viaGemini topic (AppState.quality st)).
    + destruct (generateScriptFromTopic_backoff generateText topic
                  {| GeminiScripts.model := Some (ModelRouter.modelId d);
                     GeminiScripts.useDeepThink :=
                       Some (AppState.quality st =? "premium")%string;
                     GeminiScripts.thinkingBudget := Some 15000 |} w) as (k & Hk & Hk').
      exists k. split; [exact Hk|]. split; [exact Hk'|discriminate].
    + exists 0%nat. split; [lia|]. split; [|reflexivity].
      rewrite pollinations_keeps_timers. cbn. rewrite app_nil_r. reflexivity.
Qed.

End Results.

(** A topic of 31 accented letters has length 31 and is not routed to
    Gemini: one [fetch], for the free model, without a key. *)
Lemma X19_draft_contacts_one_provider_witness :
  exists seed,
    Wire.calls (snd (ApiOrchestrator.generateScript (BE := Wire.recording DraftBench.backend)
                       DraftBench.accented (DraftBench.state "balanced" None) "solo"
                       (mkWorld (DraftBench.fresh, []) [])))
    = Wire.calls (mkWorld (DraftBench.fresh, []) [])
      ++ [Wire.Fetch (PollinationsService.scriptUrl DraftBench.accented "mistral" "solo" seed)
            []].
Proof.
  pose proof (X19_draft_contacts_one_provider DraftBench.backend DraftBench.accented
                (DraftBench.state "balanced" None) "solo"
                (mkWorld (DraftBench.fresh, []) [])) as H.
  cbv zeta in H.
  assert (Hg : Wire.viaGemini DraftBench.accented
                 (AppState.quality (DraftBench.state "balanced" None)) = false)
    by (vm_compute; reflexivity).
  rewrite Hg in H. exact H.
Defined.

Lemma X20_draft_reports_witness :
  String.length DraftBench.accented = 31%nat
  /\ timers (snd (ApiOrchestrator.generateScript (BE := DraftBench.backend)
                    DraftBench.accented (DraftBench.state "balanced" None) "solo"
                    (mkWorld DraftBench.fresh [])))
     = []
  /\ option_map ApiOrchestrator.tokensUsed
       (match fst (ApiOrchestrator.generateScript (BE := DraftBench.backend)
                     DraftBench.accented (DraftBench.state "balanced" None) "solo"
                     (mkWorld DraftBench.fresh [])) with
        | Normal r => Some r
        | Throw _ => None
        end) = Some 16%nat.
Proof.
  split; [vm_compute; reflexivity|]. split; [|vm_compute; reflexivity].
  destruct (proj2 (proj2 (X20_draft_reports (BE := DraftBench.backend) DraftBench.accented
                            (DraftBench.state "balanced" None) "solo"
                            (mkWorld DraftBench.fresh []))))
    as (k & _ & Htimers & Hzero).
  rewrite Htimers, Hzero; [reflexivity|vm_compute; reflexivity].
Defined.

Lemma X21_blank_key_is_billed_but_not_sent_witness :
  exists seed,
    Wire.calls (snd (ApiOrchestrator.generateScript (BE := Wire.recording DraftBench.backend)
                       "Tides" (DraftBench.state "balanced" (Some "   ")) "exchange"
                       (mkWorld (DraftBench.fresh, []) [])))
    = Wire.calls (mkWorld (DraftBench.fresh, []) [])
      ++ [Wire.Fetch (PollinationsService.scriptUrl "Tides" "openai" "exchange" seed) []].
Proof.
  assert (H1 : AppState.quality (DraftBench.state "balanced" (Some "   ")) = "balanced")
    by reflexivity.
  assert (H2 : (String.length "Tides" <= 60)%nat) by (vm_compute; repeat constructor).
  assert (H3 : UserApiKeys.pollinationsKey
                 (AppState.apiKeys (DraftBench.state "balanced" (Some "   ")))
               = Some "   ") by reflexivity.
  assert (H4 : Wire.blankKey "   ") by (split; [discriminate|vm_compute; reflexivity]).
  exact (proj1 (X21_blank_key_is_billed_but_not_sent DraftBench.backend
                  "Tides" (DraftBench.state "balanced" (Some "   ")) "exchange"
                  (mkWorld (DraftBench.fresh, []) []) "   " H1 H2 H3 H4)).
Defined.

Section MetadataLog.
Context {Env : Type} {BE : Backend Env}.

Lemma lastN_suffix {A} n (l : list A) :
  (length (ApiOrchestrator.lastN n l) <= n)%nat
  /\ take (length l - n) l ++ ApiOrchestrator.lastN n l = l.
Proof.
  unfold ApiOrchestrator.lastN. split; [rewrite length_drop; lia|apply take_drop].
Qed.

(** X22: the metadata log is bounded.  [recordProductionMetadata]
    never throws.  It reads the item "studio-master-history" - or "[]"
    when the item is missing or empty - and parses it; when the parsed
    value is an array [history] and the decision carries a model, the
    values it goes on with are [history] followed by the entry of this
    draft - the time, the id, name and provider of the routed model, the
    estimated cost and the token count - with the oldest values dropped
    from the front so that 200 are left at most; their serialization is
    written back under the same key, and if they cannot be serialized the
    storage stays as it is.  The storage also stays as it is when the
    item cannot be read or parsed, when the parsed value is no array, and
    when the decision carries no model. *)
Theorem X22_metadata_log_is_bounded :
  (forall (d : ModelRouter.RoutingDecision) tokens (e : Env) stored parsed history mc,
      localStorage_getItem "studio-master-history" e = Normal stored ->
      JSON_parse (match stored with
                  | Some (String c rest) => String c rest
                  | _ => "[]"
                  end) = Normal parsed ->
      asArray parsed = Some history ->
      ModelRouter.model d = Some mc ->
      let entry := Metadata.mk (now e) (ModelRouter.modelId d) (ModelConfig.name mc)
                     (ModelConfig.provider mc) (ModelRouter.estimatedCost d) tokens in
      exists dropped kept,
        dropped ++ kept = history ++ [metadataJson entry]
        /\ length kept = Nat.min 200 (S (length history))
        /\ last kept = Some (metadataJson entry)
        /\ match JSON_stringify kept with
           | Normal text =>
               ApiOrchestrator.recordProductionMetadata d tokens e
               = snd (localStorage_setItem "studio-master-history" text e)
           | Throw _ => ApiOrchestrator.recordProductionMetadata d tokens e = e
           end)
  /\ (forall (d : ModelRouter.RoutingDecision) tokens (e : Env),
        (forall failure,
            localStorage_getItem "studio-master-history" e = Throw failure ->
            ApiOrchestrator.recordProductionMetadata d tokens e = e)
        /\ (forall stored failure,
              localStorage_getItem "studio-master-history" e = Normal stored ->
              JSON_parse (match stored with
                          | Some (String c rest) => String c rest
                          | _ => "[]"
                          end) = Throw failure ->
              ApiOrchestrator.recordProductionMetadata d tokens e = e)
        /\ (forall stored parsed,
              localStorage_getItem "studio-master-history" e = Normal stored ->
              JSON_parse (match stored with
                          | Some (String c rest) => String c rest
                          | _ => "[]"
                          end) = Normal parsed ->
              asArray parsed = None ->
              ApiOrchestrator.recordProductionMetadata d tokens e = e)
        /\ (ModelRouter.model d = None ->
            ApiOrchestrator.recordProductionMetadata d tokens e = e)).
Proof.
  assert (Hitem : forall stored : option string,
             (if JS.truthyString stored then default "" stored else "[]")
             = match stored with
               | Some (String c rest) => String c rest
               | _ => "[]"
               end).
  { intros [[|c rest]|]; reflexivity. }
  split.
  - intros d tokens e stored parsed history mc Hget Hparse Harray Hmodel. cbv zeta.
    unfold ApiOrchestrator.recordProductionMetadata.
    rewrite Hget. cbv zeta. rewrite Hitem, Hparse, Harray, Hmodel.
    set (entry := Metadata.mk (now e) (ModelRouter.modelId d) (ModelConfig.name mc)
                    (ModelConfig.provider mc) (ModelRouter.estimatedCost d) tokens).
    destruct (lastN_suffix 200 (history ++ [metadataJson entry])) as [_ Hsplit].
    exists (take (length (history ++ [metadataJson entry]) - 200)
              (history ++ [metadataJson entry])),
      (ApiOrchestrator.lastN 200 (history ++ [metadataJson entry])).
    split; [exact Hsplit|]. split; [|split].
    + unfold ApiOrchestrator.lastN. rewrite length_drop, length_app. cbn [length]. lia.
    + unfold ApiOrchestrator.lastN. rewrite length_app. cbn [length].
      rewrite drop_app_le by lia. apply last_snoc.
    + destruct (JSON_stringify _); reflexivity.
  - intros d tokens e. unfold ApiOrchestrator.recordProductionMetadata.
    split; [intros failure ->; reflexivity|].
    split; [intros stored failure -> Hparse; cbv zeta; rewrite Hitem, Hparse; reflexivity|].
    split.
    + intros stored parsed -> Hparse Harray. cbv zeta.
      rewrite Hitem, Hparse, Harray. reflexivity.
    + intros Hmodel. destruct (localStorage_getItem _ e) as [stored|]; [|reflexivity].
      cbv zeta. destruct (JSON_parse _) as [parsed|]; [|reflexivity].
      rewrite Hmodel. destruct (asArray parsed); reflexivity.
Qed.

End MetadataLog.

(** A log of 200 values: the new entry goes to the end and the oldest
    value is dropped. *)
Lemma X22_metadata_log_is_bounded_witness :
  exists dropped kept : list (list string),
    dropped ++ kept
    = map (fun line => [line]) (repeat "old" 200) ++ [["pollinations-script-free"]]
    /\ length kept = 200%nat
    /\ last kept = Some ["pollinations-script-free"].
Proof.
  assert (H1 : localStorage_getItem (Backend := DraftBench.backend)
                 "studio-master-history" DraftBench.full
               = Normal (Some (String.concat Bench.nl (repeat "old" 200)))) by reflexivity.
  assert (H2 : JSON_parse (Backend := DraftBench.backend)
                 (match Some (String.concat Bench.nl (repeat "old" 200)) with
                  | Some (String c rest) => String c rest
                  | _ => "[]"
                  end) = Normal (repeat "old" 200)) by (vm_compute; reflexivity).
  assert (H3 : asArray (Backend := DraftBench.backend) (repeat "old" 200)
               = Some (map (fun line => [line]) (repeat "old" 200))) by reflexivity.
  assert (H4 : ModelRouter.model (ModelRouter.decide_on "pollinations-script-free" "" 0%float)
               = Some (ModelConfig.mk "pollinations-script-free" Provider.pollinations
                         "Pollinations (Free)" [cap_text] None (Some 0%float) 30 true
                         auth_none)).
  { vm_compute. reflexivity. }
  destruct (proj1 (X22_metadata_log_is_bounded (BE := DraftBench.backend))
              (ModelRouter.decide_on "pollinations-script-free" "" 0%float) 12%nat
              DraftBench.full _ _ _ _ H1 H2 H3 H4)
    as (dropped & kept & Hsplit & Hlen & Hlast & _).
  exists dropped, kept. split; [exact Hsplit|]. split; [|exact Hlast].
  refine (eq_trans Hlen _). vm_compute. reflexivity.
Defined.

(** ** Keys, cover art and script drafting in the component *)

Lemma selectModel_image (st : AppState.t) :
  exists d,
    ModelRouter.selectModel
      (ModelRouter.mkTask "image_generation" (AppState.quality st) None)
      (AppState.apiKeys st) = Normal d
    /\ (if JS.includes (ModelRouter.modelId d) "flux" then "flux" else "turbo")
       = DeskSpec.artTag st.
Proof.
  unfold ModelRouter.selectModel, DeskSpec.artTag.
  cbn [ModelRouter.type ModelRouter.quality].
  literal_eqb.
  destruct (AppState.quality st =? "premium")%string,
    (JS.truthyString (UserApiKeys.pollinationsKey (AppState.apiKeys st)));
    eexists; (split; [reflexivity|]); vm_compute; reflexivity.
Qed.

Section DeskHandlers.
Context {AE : AudioEngine} {BE : Backend Env}.
Import App PipelineSpec RunSpec SyncSpec DeskSpec.

(** The cover art step draws one seed and touches nothing but the
    environment. *)
Lemma coverArt_effect (h : Hooks) artStyle (m : Machine) :
  exists seed e1,
    randomSeed (env (world m)) = (seed, e1)
    /\ Desk.coverArt h artStyle m
       = (Normal (PollinationsService.coverArtUrl (topic h) (artTag (state h)) artStyle seed),
          {| world := {| env := e1; timers := timers (world m) |};
             heap := heap m; hooks := hooks m; reports := reports m |}).
Proof.
  destruct (selectModel_image (state h)) as (d & Hd & Htag).
  destruct (randomSeed (env (world m))) as [seed e1] eqn:Hseed.
  exists seed, e1. split; [reflexivity|].
  unfold Desk.coverArt, bind. rewrite Hd. unfold Studio.await.
  unfold PollinationsService.getCoverArtUrl. rewrite Hseed, Htag. reflexivity.
Qed.

(** X24: refreshing the cover art.  Without a topic
    [handleRegenerateArt] does nothing.  With a topic it returns
    normally, draws one seed and sets the cover art to the URL for the
    topic, the style and that seed, asking for the model "flux" at
    premium quality with a Pollinations key and for "turbo" otherwise;
    it puts one entry on the log and leaves the other hooks, the
    segments and the timers alone.  (A topic is a string of code units
    below 256, for which [encodeURIComponent] is total.) *)
Theorem X24_handleRegenerateArt :
  forall artStyle (m : Machine),
    (topic (hooks m) = "" -> Desk.handleRegenerateArt artStyle m = (Normal tt, m))
    /\ (topic (hooks m) <> "" ->
        exists seed e1 m',
          randomSeed (env (world m)) = (seed, e1)
          /\ Desk.handleRegenerateArt artStyle m = (Normal tt, m')
          /\ coverArtUrl (hooks m')
             = Some (PollinationsService.coverArtUrl (topic (hooks m))
                       (artTag (state (hooks m))) artStyle seed)
          /\ logs (hooks m')
             = take 100 (logged LogEntry.info "Refreshing episode visuals..." m
                         :: logs (hooks m))
          /\ (state (hooks m'), script (hooks m'), topic (hooks m'), segments (hooks m'),
              fullAudioUrl (hooks m'), srtUrl (hooks m'), progress (hooks m'),
              history (hooks m'))
             = (state (hooks m), script (hooks m), topic (hooks m), segments (hooks m),
                fullAudioUrl (hooks m), srtUrl (hooks m), progress (hooks m),
                history (hooks m))
          /\ heap m' = heap m /\ world m' = {| env := e1; timers := timers (world m) |}).
Proof.
  intros artStyle m. unfold Desk.handleRegenerateArt. cbv zeta. split.
  - intros ->. reflexivity.
  - intros Htopic.
    assert (Hne : (topic (hooks m) =? "")%string = false).
    { apply String.eqb_neq. exact Htopic. }
    rewrite Hne.
    set (m1 := snd (Studio.addLog LogEntry.info "Refreshing episode visuals..." m)).
    assert (H1 : Studio.addLog LogEntry.info "Refreshing episode visuals..." m
                 = (Normal tt, m1)) by reflexivity.
    destruct (coverArt_effect (hooks m) artStyle m1) as (seed & e1 & Hseed & Hart).
    exists seed, e1. eexists. split; [exact Hseed|]. split.
    { rewrite (bind_Normal _ _ _ _ _ H1), (bind_Normal _ _ _ _ _ Hart). reflexivity. }
    cbn. repeat split.
Qed.

(** [setScript(text)] and the effect it triggers. *)
Lemma editScript_effect text (m : Machine) :
  exists refs new,
    Studio.editScript text m
    = (Normal tt,
       {| world := world m; heap := heap m ++ new;
          hooks := mkHooks (state (hooks m)) text (topic (hooks m)) refs
                     (fullAudioUrl (hooks m)) (srtUrl (hooks m)) (coverArtUrl (hooks m))
                     (progress (hooks m)) (logs (hooks m)) (history (hooks m))
                     (audioContextRef (hooks m));
          reports := reports m |})
    /\ (if (AppState.isGenerating (state (hooks m))
            || (text =? script (hooks m))%string)%bool
        then refs = segments (hooks m) /\ new = []
        else Forall2 (parsedAs (heap m ++ new)) (nonblankLines text) refs).
Proof.
  unfold Studio.editScript.
  destruct (text =? script (hooks m))%string eqn:Hsame.
  { apply String.eqb_eq in Hsame. subst text.
    exists (segments (hooks m)), []. rewrite app_nil_r, orb_true_r.
    split; [|split; reflexivity].
    destruct m as [w hp [] r]. reflexivity. }
  rewrite orb_false_r.
  unfold bind, Studio.withHooks, Studio.syncSegments. cbn.
  destruct (AppState.isGenerating (state (hooks m))).
  - exists (segments (hooks m)), []. rewrite app_nil_r. split; [reflexivity|]. split; reflexivity.
  - match goal with
    | |- context [bind _ _ ?m0] =>
        destruct (mapLines_spec (segments (hooks m)) (nonblankLines text) 0 m0)
          as (refs & new & m1 & Hrun & Hheap & Hw & Hh & Hr & Hall & _)
    end.
    exists refs, new. unfold bind. fold (nonblankLines text). rewrite Hrun.
    unfold Studio.setSegments, Studio.withHooks.
    cbn in Hheap, Hw, Hh, Hr. rewrite Hheap in Hall.
    destruct m1 as [w1 h1 hk1 r1]. cbn in *. subst. split; [reflexivity|exact Hall].
Qed.

(** X25: drafting a script.  Started with a topic on a desk that is not
    drafting, [handleScriptGeneration] returns normally and leaves the
    desk not drafting, whatever the services do.  When the draft fails,
    script, segments and cover art stay as they were, the progress
    reads "Engine Stalled" and the log opens with "Script drafting
    failed:" and the message of the failure.  When it succeeds, the
    script is the drafted one, the cover art is the URL for the topic,
    the progress reads "Creative Engine Ready", and 800 ms were waited
    for; the segments then say the non-blank lines of the new script -
    unless a production is generating or the draft is the script that
    was there already: the effect does not run then, and the segments
    and their objects stay as they were.  (A topic is a string of code
    units below 256, for which [encodeURIComponent] is total.) *)
Theorem X25_handleScriptGeneration :
  forall artStyle scriptType (d : Desk.Drafting),
    topic (hooks (Desk.machine d)) <> "" ->
    Desk.isAgentThinking d = false ->
    let m := Desk.machine d in
    exists d',
      Desk.handleScriptGeneration artStyle scriptType d = (Normal tt, d')
      /\ Desk.isAgentThinking d' = false
      /\ besidesDraft (hooks (Desk.machine d')) = besidesDraft (hooks m)
      /\ match ApiOrchestrator.generateScript (topic (hooks m)) (state (hooks m)) scriptType
                 (world m) with
         | (Throw e, w1) =>
             script (hooks (Desk.machine d')) = script (hooks m)
             /\ segments (hooks (Desk.machine d')) = segments (hooks m)
             /\ coverArtUrl (hooks (Desk.machine d')) = coverArtUrl (hooks m)
             /\ heap (Desk.machine d') = heap m
             /\ progress (hooks (Desk.machine d')) = Desk.engineStalled
             /\ exists entry, head (logs (hooks (Desk.machine d'))) = Some entry
                  /\ LogEntry.level entry = LogEntry.error
                  /\ LogEntry.message entry
                     = "Script drafting failed: " +:+ JS.showMessage e
         | (Normal r, w1) =>
             script (hooks (Desk.machine d')) = ApiOrchestrator.script r
             /\ (exists seed,
                   coverArtUrl (hooks (Desk.machine d'))
                   = Some (PollinationsService.coverArtUrl (topic (hooks m))
                             (artTag (state (hooks m))) artStyle seed))
             /\ progress (hooks (Desk.machine d'))
                = Progress.mk 100%float "Creative Engine Ready" "Production Unlocked"
             /\ timers (world (Desk.machine d')) = timers w1 ++ [800]
             /\ (if (AppState.isGenerating (state (hooks m))
                     || (ApiOrchestrator.script r =? script (hooks m))%string)%bool
                 then segments (hooks (Desk.machine d')) = segments (hooks m)
                      /\ heap (Desk.machine d') = heap m
                 else map spoken (Studio.objects (heap (Desk.machine d'))
                                    (segments (hooks (Desk.machine d'))))
                      = map Studio.parseLine (nonblankLines (ApiOrchestrator.script r)))
         end.
Proof.
  intros artStyle scriptType [m thinking] Htopic Hidle. cbn in Htopic, Hidle. subst thinking.
  cbv zeta. cbn [Desk.machine].
  unfold Desk.handleScriptGeneration. cbn [Desk.machine Desk.isAgentThinking].
  assert (Hne : (topic (hooks m) =? "")%string = false).
  { apply String.eqb_neq. exact Htopic. }
  rewrite Hne. cbn [orb].
  set (p10 := Progress.mk 10%float "Brainstorming Narrative..." "Stage 1/2: Script Drafting").
  set (note := "Engaging neural engine for: " +:+ topic (hooks m)).
  set (m1 := snd (Studio.setProgress p10 m)).
  set (m2 := snd (Studio.addLog LogEntry.info note m1)).
  assert (H1 : Studio.setProgress p10 m = (Normal tt, m1)) by reflexivity.
  assert (H2 : Studio.addLog LogEntry.info note m1 = (Normal tt, m2)) by reflexivity.
  rewrite (bind_Normal _ _ _ _ _ H1), (bind_Normal _ _ _ _ _ H2).
  unfold tryCatchFinally, Desk.drafted.
  change (world m) with (world m2).
  destruct (ApiOrchestrator.generateScript (topic (hooks m)) (state (hooks m)) scriptType
              (world m2)) as [[r|e] w1] eqn:Hdraft.
  - set (m3 := {| world := w1; heap := heap m2; hooks := hooks m2; reports := reports m2 |}).
    assert (H3 : Studio.awaitService
                   (ApiOrchestrator.generateScript (topic (hooks m)) (state (hooks m))
                      scriptType) m2 = (Normal r, m3)).
    { unfold Studio.awaitService. rewrite Hdraft. reflexivity. }
    rewrite (bind_Normal _ _ _ _ _ H3).
    destruct (editScript_effect (ApiOrchestrator.script r) m3) as (refs & new & H4 & Hsync).
    rewrite (bind_Normal _ _ _ _ _ H4).
    match type of H4 with _ = (_, ?x) => set (m4 := x) in * end.
    set (p60 := Progress.mk 60%float "Conceptualizing Visuals..." "Stage 2/2: Art Direction").
    set (m5 := snd (Studio.setProgress p60 m4)).
    assert (H5 : Studio.setProgress p60 m4 = (Normal tt, m5)) by reflexivity.
    rewrite (bind_Normal _ _ _ _ _ H5).
    destruct (coverArt_effect (hooks m) artStyle m5) as (seed & e6 & _ & H6).
    rewrite (bind_Normal _ _ _ _ _ H6).
    eexists. split; [reflexivity|]. cbn [Desk.machine Desk.isAgentThinking].
    split; [reflexivity|]. split; [reflexivity|].
    split; [reflexivity|]. split; [exists seed; reflexivity|].
    split; [reflexivity|]. split; [reflexivity|].
    change (state (hooks m3)) with (state (hooks m)) in Hsync.
    change (script (hooks m3)) with (script (hooks m)) in Hsync.
    change (heap m3) with (heap m) in Hsync. cbn.
    destruct (AppState.isGenerating (state (hooks m))
              || (ApiOrchestrator.script r =? script (hooks m))%string)%bool.
    + destruct Hsync as [-> ->]. rewrite app_nil_r. split; reflexivity.
    + apply objects_of_parsed. exact Hsync.
  - assert (H3 : Studio.awaitService
                   (ApiOrchestrator.generateScript (topic (hooks m)) (state (hooks m))
                      scriptType) m2
                 = (Throw e, {| world := w1; heap := heap m2; hooks := hooks m2;
                                reports := reports m2 |})).
    { unfold Studio.awaitService. rewrite Hdraft. reflexivity. }
    rewrite (bind_Throw _ _ _ _ _ H3).
    eexists. split; [reflexivity|]. cbn [Desk.machine Desk.isAgentThinking].
    split; [reflexivity|]. split; [reflexivity|]. cbn.
    repeat split. eexists. split; [reflexivity|]. split; reflexivity.
Qed.

(** X23: only the Pollinations key routes.  Saving a key stores it as
    typed under its provider and touches nothing else of the state.  No
    routing decision depends on the OpenAI or the Mistral key, or on
    more of the Pollinations key than whether it is empty: saving the
    empty string for Pollinations turns the paid routes off. *)
Theorem X23_only_the_pollinations_key_routes :
  (forall provider key (m : Machine),
      exists m',
        Desk.handleApiKeySave provider key m = (Normal tt, m')
        /\ state (hooks m')
           = Desk.set_apiKeys (Desk.withKey provider key (AppState.apiKeys (state (hooks m))))
               (state (hooks m))
        /\ AppState.isGenerating (state (hooks m')) = AppState.isGenerating (state (hooks m))
        /\ segments (hooks m') = segments (hooks m) /\ heap m' = heap m)
  /\ (forall provider key task keys,
        provider <> "pollinationsKey" ->
        ModelRouter.selectModel task (Desk.withKey provider key keys)
        = ModelRouter.selectModel task keys)
  /\ (forall key key' task keys keys',
        (key = "" <-> key' = "") ->
        ModelRouter.selectModel task (Desk.withKey "pollinationsKey" key keys)
        = ModelRouter.selectModel task (Desk.withKey "pollinationsKey" key' keys'))
  /\ (forall task keys,
        ModelRouter.selectModel task (Desk.withKey "pollinationsKey" "" keys)
        = ModelRouter.selectModel task (UserApiKeys.mk None None None)).
Proof.
  split; [|split; [|split]].
  - intros provider key m. eexists. split; [reflexivity|]. cbn. repeat split.
  - intros provider key task keys Hne. unfold Desk.withKey.
    apply String.eqb_neq in Hne. rewrite Hne.
    unfold ModelRouter.selectModel.
    destruct (provider =? "openaiKey")%string; [reflexivity|].
    destruct (provider =? "mistralKey")%string; reflexivity.
  - intros key key' task keys keys' Hiff. unfold Desk.withKey. literal_eqb.
    unfold ModelRouter.selectModel. cbn [UserApiKeys.pollinationsKey].
    assert (Htruthy : JS.truthyString (Some key) = JS.truthyString (Some key')).
    { destruct key, key'; try reflexivity.
      - discriminate (proj1 Hiff eq_refl).
      - discriminate (proj2 Hiff eq_refl). }
    rewrite Htruthy. reflexivity.
  - intros task keys. unfold Desk.withKey. literal_eqb. reflexivity.
Qed.

End DeskHandlers.

Lemma X23_only_the_pollinations_key_routes_witness :
  ModelRouter.selectModel (RouterSpec.scriptTask "balanced" None)
    (Desk.withKey "openaiKey" "sk-test" RouterSpec.noKeys)
  = ModelRouter.selectModel (RouterSpec.scriptTask "balanced" None) RouterSpec.noKeys.
Proof.
  apply (proj1 (proj2 (X23_only_the_pollinations_key_routes (AE := Bench.engine)))).
  discriminate.
Defined.

Lemma X24_handleRegenerateArt_witness :
  exists seed e1 m',
    randomSeed (Backend := DeskBench.backend DeskBench.twoLines)
      (env (App.world (DeskBench.titled "Tides" Bench.defaultReady))) = (seed, e1)
    /\ Desk.handleRegenerateArt (AE := Bench.engine)
         (BE := DeskBench.backend DeskBench.twoLines) None
         (DeskBench.titled "Tides" Bench.defaultReady) = (Normal tt, m')
    /\ App.coverArtUrl (App.hooks m')
       = Some (PollinationsService.coverArtUrl "Tides" "turbo" None seed).
Proof.
  assert (Htopic : App.topic (App.hooks (DeskBench.titled "Tides" Bench.defaultReady)) <> "")
    by (cbn; discriminate).
  destruct (proj2 (X24_handleRegenerateArt (AE := Bench.engine)
                     (BE := DeskBench.backend DeskBench.twoLines) None
                     (DeskBench.titled "Tides" Bench.defaultReady)) Htopic)
    as (seed & e1 & m' & Hseed & Hrun & Hurl & _).
  exists seed, e1, m'. split; [exact Hseed|]. split; [exact Hrun|exact Hurl].
Defined.

(** The desk when the service is unavailable, and when it answers with
    a script of two lines. *)
Lemma X25_handleScriptGeneration_witness :
  (exists d',
      Desk.handleScriptGeneration (AE := Bench.engine)
        (BE := DeskBench.backend DeskBench.unavailable) None "exchange" DeskBench.desk
      = (Normal tt, d')
      /\ Desk.isAgentThinking d' = false)
  /\ (exists d',
        Desk.handleScriptGeneration (AE := Bench.engine)
          (BE := DeskBench.backend DeskBench.twoLines) None "exchange" DeskBench.desk
        = (Normal tt, d')
        /\ map SyncSpec.spoken
             (Studio.objects (App.heap (Desk.machine d'))
                (App.segments (App.hooks (Desk.machine d'))))
           = [("Host", "Welcome back."); ("Guest", "Glad to be here.")]).
Proof.
  assert (Htopic : App.topic (App.hooks (Desk.machine DeskBench.desk)) <> "")
    by (cbn; discriminate).
  assert (Hidle : Desk.isAgentThinking DeskBench.desk = false) by reflexivity.
  split.
  - destruct (X25_handleScriptGeneration (AE := Bench.engine)
                (BE := DeskBench.backend DeskBench.unavailable) None "exchange"
                DeskBench.desk Htopic Hidle) as (d' & Hrun & Hdone & _).
    exists d'. split; [exact Hrun|exact Hdone].
  - destruct (X25_handleScriptGeneration (AE := Bench.engine)
                (BE := DeskBench.backend DeskBench.twoLines) None "exchange"
                DeskBench.desk Htopic Hidle) as (d' & Hrun & _).
    exists d'. split; [exact Hrun|].
    replace d' with (snd (Desk.handleScriptGeneration (AE := Bench.engine)
                            (BE := DeskBench.backend DeskBench.twoLines) None "exchange"
                            DeskBench.desk)) by (rewrite Hrun; reflexivity).
    vm_compute. reflexivity.
Defined.

(** ** Importing a script file *)

Lemma prefix_txt_across c r :
  String.prefix ".txt" (String c r) = false ->
  String.prefix ".txt" (String c (r +:+ ".txt")) = false.
Proof.
  cbn [String.prefix]. destruct (ascii_dec "."%char c) as [_|]; [|reflexivity].
  destruct r as [|c2 r2]; [intros _; reflexivity|].
  change (String c2 r2 +:+ ".txt") with (String c2 (r2 +:+ ".txt")). cbn [String.prefix].
  destruct (ascii_dec "t"%char c2) as [_|]; [|reflexivity].
  destruct r2 as [|c3 r3]; [intros _; reflexivity|].
  change (String c3 r3 +:+ ".txt") with (String c3 (r3 +:+ ".txt")). cbn [String.prefix].
  destruct (ascii_dec "x"%char c3) as [_|]; [|reflexivity].
  destruct r3 as [|c4 r4]; [intros _; reflexivity|].
  change (String c4 r4 +:+ ".txt") with (String c4 (r4 +:+ ".txt")). cbn [String.prefix].
  destruct (ascii_dec "t"%char c4) as [_|]; [|reflexivity].
  intros H. destruct r4; discriminate H.
Qed.

Lemma replace_txt_suffix stem :
  JS.includes stem ".txt" = false ->
  Text.replace ".txt" "" (stem +:+ ".txt") = stem.
Proof.
  induction stem as [|c r IH]; [reflexivity|].
  cbn [JS.includes]. intros H. apply orb_false_iff in H as [Hhead Htail].
  change (String c r +:+ ".txt") with (String c (r +:+ ".txt")).
  cbn [Text.replace]. rewrite (prefix_txt_across c r Hhead), (IH Htail). reflexivity.
Qed.

Lemma endsWith_suffix stem suffix : Text.endsWith (stem +:+ suffix) suffix = true.
Proof.
  induction stem as [|c r IH].
  - change ("" +:+ suffix) with suffix.
    destruct suffix; cbn [Text.endsWith]; rewrite String.eqb_refl; reflexivity.
  - change (String c r +:+ suffix) with (String c (r +:+ suffix)). cbn [Text.endsWith].
    rewrite IH. apply orb_true_r.
Qed.

Section FileImport.
Context {AE : AudioEngine}.
Import App PipelineSpec RunSpec SyncSpec.

(** X26: importing a script file.  A drop without a file, or of a file
    that neither has the media type "text/plain" nor a name ending in
    ".txt", is ignored.  An accepted file that can be read becomes the
    script, its name with the first ".txt" removed becomes the topic -
    for a name [stem.txt] whose stem holds no ".txt" that is the stem -
    the import is logged, and the segments say the non-blank lines of
    the file - unless a production is generating or the file holds the
    script that was there already: the effect does not run then, and
    the segments and their objects stay as they were.  When the file
    cannot be read the handler rejects and nothing has changed. *)
Theorem X26_handleDrop_imports_text_files :
  (forall m : Machine, Importer.handleDrop None m = (Normal tt, m))
  /\ (forall file (m : Machine),
        Importer.type file <> "text/plain" ->
        Text.endsWith (Importer.name file) ".txt" = false ->
        Importer.handleDrop (Some file) m = (Normal tt, m))
  /\ (forall file (m : Machine) e,
        Importer.accepted file = true ->
        Importer.text file = Throw e ->
        Importer.handleDrop (Some file) m = (Throw e, m))
  /\ (forall file (m : Machine) content,
        Importer.accepted file = true ->
        Importer.text file = Normal content ->
        exists m',
          Importer.handleDrop (Some file) m = (Normal tt, m')
          /\ script (hooks m') = content
          /\ topic (hooks m') = Text.replace ".txt" "" (Importer.name file)
          /\ logs (hooks m')
             = take 100 (logged LogEntry.info
                           ("Imported script from file: " +:+ Importer.name file) m
                         :: logs (hooks m))
          /\ (if (AppState.isGenerating (state (hooks m))
                  || (content =? script (hooks m))%string)%bool
              then segments (hooks m') = segments (hooks m) /\ heap m' = heap m
              else map spoken (Studio.objects (heap m') (segments (hooks m')))
                   = map Studio.parseLine (nonblankLines content)))
  /\ (forall stem type content,
        JS.includes stem ".txt" = false ->
        Importer.accepted (Importer.mkFile (stem +:+ ".txt") type content) = true
        /\ Text.replace ".txt" "" (stem +:+ ".txt") = stem).
Proof.
  split; [|split; [|split; [|split]]].
  - reflexivity.
  - intros file m Htype Hname. unfold Importer.handleDrop, Importer.accepted.
    apply String.eqb_neq in Htype. rewrite Htype, Hname. reflexivity.
  - intros file m e Hok Hread. unfold Importer.handleDrop. rewrite Hok.
    unfold bind. rewrite Hread. reflexivity.
  - intros file m content Hok Hread. unfold Importer.handleDrop. rewrite Hok.
    unfold bind at 1. rewrite Hread.
    destruct (editScript_effect content m) as (refs & new & Hedit & Hsync).
    rewrite (bind_Normal _ _ _ _ _ Hedit).
    eexists. split; [reflexivity|]. cbn.
    split; [reflexivity|]. split; [reflexivity|]. split; [reflexivity|].
    destruct (AppState.isGenerating (state (hooks m))
              || (content =? script (hooks m))%string)%bool.
    + destruct Hsync as [-> ->]. rewrite app_nil_r. split; reflexivity.
    + apply objects_of_parsed. exact Hsync.
  - intros stem type content Hstem. split; [|apply replace_txt_suffix; exact Hstem].
    unfold Importer.accepted. cbn [Importer.name Importer.type].
    rewrite endsWith_suffix. apply orb_true_r.
Qed.

End FileImport.

(** A file [episode.12.txt] dropped on the default session: it is
    accepted, its one line becomes the one segment, and the topic is the
    stem of its name. *)
Lemma X26_handleDrop_imports_text_files_witness :
  (Importer.accepted (Importer.mkFile ("episode.12" +:+ ".txt") "" (Normal "Host: Hi.")) = true
   /\ Text.replace ".txt" "" ("episode.12" +:+ ".txt") = "episode.12")
  /\ (exists m',
        Importer.handleDrop (AE := Bench.engine)
          (Some (Importer.mkFile ("episode.12" +:+ ".txt") "" (Normal "Host: Hi.")))
          Bench.defaultReady = (Normal tt, m')
        /\ App.topic (App.hooks m') = "episode.12"
        /\ map SyncSpec.spoken (Studio.objects (App.heap m') (App.segments (App.hooks m')))
           = [("Host", "Hi.")]).
Proof.
  split.
  - apply (proj2 (proj2 (proj2 (proj2 (X26_handleDrop_imports_text_files
                                         (AE := Bench.engine)))))).
    vm_compute. reflexivity.
  - assert (Hok : Importer.accepted
                    (Importer.mkFile ("episode.12" +:+ ".txt") "" (Normal "Host: Hi."))
                  = true) by (vm_compute; reflexivity).
    destruct (proj1 (proj2 (proj2 (proj2 (X26_handleDrop_imports_text_files
                                            (AE := Bench.engine)))))
                (Importer.mkFile ("episode.12" +:+ ".txt") "" (Normal "Host: Hi."))
                Bench.defaultReady "Host: Hi." Hok eq_refl)
      as (m' & Hrun & _).
    exists m'. split; [exact Hrun|].
    replace m' with (snd (Importer.handleDrop (AE := Bench.engine)
                            (Some (Importer.mkFile ("episode.12" +:+ ".txt") ""
                                     (Normal "Host: Hi.")))
                            Bench.defaultReady)) by (rewrite Hrun; reflexivity).
    vm_compute. split; reflexivity.
Defined.

(** ** What a production leaves of the segments *)

Section Stamps.
Context {AE : AudioEngine}.
Import App PipelineSpec RunSpec StampSpec.

Lemma sameCard_refl seg : sameCard seg seg.
Proof. repeat split. Qed.

Lemma stampsOnly_same (m m' : Machine) :
  heap m' = heap m ->
  (segments (hooks m'), script (hooks m'), topic (hooks m'), coverArtUrl (hooks m'))
  = (segments (hooks m), script (hooks m), topic (hooks m), coverArtUrl (hooks m)) ->
  stampsOnly m m'.
Proof.
  intros Hheap Hhooks. split; [exact Hhooks|].
  intros ref seg Hseg. exists seg. rewrite Hheap. split; [exact Hseg|apply sameCard_refl].
Qed.

Lemma stampsOnly_refl (m : Machine) : stampsOnly m m.
Proof. apply stampsOnly_same; reflexivity. Qed.

Lemma stampsOnly_trans (m1 m2 m3 : Machine) :
  stampsOnly m1 m2 -> stampsOnly m2 m3 -> stampsOnly m1 m3.
Proof.
  intros [Hh1 Ho1] [Hh2 Ho2]. split; [congruence|].
  intros ref seg Hseg. destruct (Ho1 ref seg Hseg) as (seg1 & Hseg1 & Hc1).
  destruct (Ho2 ref seg1 Hseg1) as (seg2 & Hseg2 & Hc2).
  exists seg2. split; [exact Hseg2|].
  destruct Hc1 as (? & ? & ? & ? & ?), Hc2 as (? & ? & ? & ? & ?).
  repeat split; congruence.
Qed.

Lemma stamps_keeps {A} (c : M A) :
  stable keepsHooks c -> (forall m, heap (snd (c m)) = heap m) -> stable stampsOnly c.
Proof.
  intros Hk Hheap m. apply stampsOnly_same; [apply Hheap|].
  specialize (Hk m). unfold keepsHooks, besidesProgress in Hk.
  injection Hk. intros. congruence.
Qed.

Lemma stamps_await {A} (op : Env -> Completion A * Env) : stable stampsOnly (Studio.await op).
Proof.
  apply stamps_keeps; [apply keepsHooks_await|].
  intros m. unfold Studio.await. destruct (op _). reflexivity.
Qed.

Lemma stamps_setProgress p : stable stampsOnly (Studio.setProgress p).
Proof. intros m. apply stampsOnly_same; reflexivity. Qed.

Lemma stamps_addLog level message : stable stampsOnly (Studio.addLog level message).
Proof. intros m. apply stampsOnly_same; reflexivity. Qed.

Lemma stamps_setState f : stable stampsOnly (Studio.setState f).
Proof. intros m. apply stampsOnly_same; reflexivity. Qed.

Lemma stamps_deref ref : stable stampsOnly (Studio.deref ref).
Proof.
  intros m. unfold Studio.deref. destruct (heap m !! ref); apply stampsOnly_refl.
Qed.

Lemma stamps_alloc seg : stable stampsOnly (Studio.alloc seg).
Proof.
  intros m. split; [reflexivity|]. intros ref old Hold. exists old.
  split; [apply lookup_app_l_Some; exact Hold|apply sameCard_refl].
Qed.

Lemma stamps_assign ref f :
  (forall seg, sameCard seg (f seg)) -> stable stampsOnly (Studio.assign ref f).
Proof.
  intros Hf m. split; [reflexivity|]. intros r old Hold. cbn.
  destruct (heap m !! ref) as [seg|] eqn:Href.
  - destruct (decide (r = ref)) as [->|Hne].
    + exists (f seg). rewrite list_lookup_insert_eq by (eapply lookup_lt_Some; exact Href).
      split; [reflexivity|]. rewrite Href in Hold. injection Hold as <-. apply Hf.
    + exists old. rewrite list_lookup_insert_ne by congruence.
      split; [exact Hold|apply sameCard_refl].
  - exists old. split; [exact Hold|apply sameCard_refl].
Qed.

Lemma stamps_synthesize voice text ctx : stable stampsOnly (Studio.synthesize voice text ctx).
Proof.
  apply stamps_keeps; [apply keepsHooks_synthesize|].
  intros m. exact (proj1 (onlyWorld_synthesize voice text ctx m)).
Qed.

Lemma stamps_iteration vmap provider ctx total i ref acc :
  stable stampsOnly (Studio.iteration vmap provider ctx total i ref acc).
Proof.
  unfold Studio.iteration.
  apply stable_bind; [exact stampsOnly_trans|apply stamps_deref|]. intros seg.
  apply stable_bind; [exact stampsOnly_trans|apply stamps_setProgress|]. intros _.
  apply stable_bind; [exact stampsOnly_trans| |].
  { destruct (Voices.resolveVoice _ _ _ _);
      [apply stable_ret|apply stable_throw]; exact stampsOnly_refl. }
  intros voice.
  apply stable_bind; [exact stampsOnly_trans|apply stamps_synthesize|]. intros buffer.
  apply stable_bind; [exact stampsOnly_trans| |].
  { apply stamps_assign. intros s. repeat split. }
  intros _. apply stable_ret; exact stampsOnly_refl.
Qed.

Lemma stamps_loop vmap provider ctx total refs :
  forall i acc, stable stampsOnly (Studio.loop vmap provider ctx total i refs acc).
Proof.
  induction refs as [|ref rest IH]; intros i acc; cbn [Studio.loop].
  - apply stable_ret; exact stampsOnly_refl.
  - apply stable_bind; [exact stampsOnly_trans|apply stamps_iteration|].
    intros acc'. apply IH.
Qed.

Lemma stable_tryCatchFinally {A} R (body : M A) handler finalizer :
  (forall m1 m2 m3 : Machine, R m1 m2 -> R m2 m3 -> R m1 m3) ->
  stable R body -> (forall e, stable R (handler e)) -> stable R finalizer ->
  stable R (tryCatchFinally body handler finalizer).
Proof.
  intros Htrans Hb Hh Hf m. unfold tryCatchFinally. specialize (Hb m).
  destruct (body m) as [[v|e] m1]; cbn [snd] in Hb.
  - specialize (Hf m1). destruct (finalizer m1) as [[u|e] m2]; cbn [snd] in *;
      eapply Htrans; eassumption.
  - specialize (Hh e m1). destruct (handler e m1) as [c m2]. cbn [snd] in Hh.
    specialize (Hf m2). destruct (finalizer m2) as [[u|e'] m3]; cbn [snd] in *;
      (eapply Htrans; [exact Hb|]); eapply Htrans; eassumption.
Qed.

Lemma stamps_produce h model ctx : stable stampsOnly (Studio.produce h model ctx).
Proof.
  unfold Studio.produce, Studio.synthesizeAll, Studio.introduce.
  apply stable_bind; [exact stampsOnly_trans| |].
  { apply stable_bind; [exact stampsOnly_trans| |].
    - apply stable_bind; [exact stampsOnly_trans|apply stamps_alloc|]. intros intro.
      apply stable_bind; [exact stampsOnly_trans|apply stamps_alloc|]. intros outro.
      apply stable_ret; exact stampsOnly_refl.
    - intros allSegments.
      apply stable_bind; [exact stampsOnly_trans|apply stamps_loop|]. intros acc.
      apply stable_ret; exact stampsOnly_refl. }
  intros run. apply stable_bind; [exact stampsOnly_trans|apply stamps_setProgress|].
  intros _. apply stable_bind; [exact stampsOnly_trans| |].
  { destruct (AppState.tier (state h)); cbn [Studio.appendWatermark];
      try (apply stable_ret; exact stampsOnly_refl).
    apply stable_bind; [exact stampsOnly_trans|apply stamps_await|].
    intros wm. apply stable_ret; exact stampsOnly_refl. }
  intros buffers m.
  destruct (deliver_effect h model ctx (fst run) buffers m) as (m' & Hd & _ & _ & Hheap & _).
  pose proof (deliver_publishes _ _ _ _ _ _ _ Hd) as Hpub.
  rewrite Hd. cbn [snd]. apply stampsOnly_same; [exact Hheap|].
  revert Hd. unfold Studio.deliver, bind, ret, Studio.setFullAudioUrl, Studio.setSrtUrl,
    Studio.setProgress, Studio.addLog, Studio.setLogs, Studio.setHistory,
    Studio.withHooks, Studio.await.
  cbn [hooks world heap reports env timers state script topic segments fullAudioUrl
       srtUrl coverArtUrl progress logs history audioContextRef fst snd].
  destruct (crypto_randomUUID (env (world m))) as [uuid e1].
  intros [= <-]. reflexivity.
Qed.

(** X27: a production only stamps times.  Whatever a run of
    [handlePodcastProduction] does, it leaves the segment list, the
    script, the topic and the cover art as they were, and every segment
    object keeps its id, speaker, text, status and audio URL: the run
    writes start times and durations and nothing else, so that a
    produced segment is not marked as completed. *)
Theorem X27_production_only_stamps_times :
  forall m : Machine,
    let m' := snd (Studio.handlePodcastProduction m) in
    segments (hooks m') = segments (hooks m)
    /\ script (hooks m') = script (hooks m)
    /\ topic (hooks m') = topic (hooks m)
    /\ coverArtUrl (hooks m') = coverArtUrl (hooks m)
    /\ forall ref seg,
         heap m !! ref = Some seg ->
         exists seg',
           heap m' !! ref = Some seg'
           /\ PodcastSegment.id seg' = PodcastSegment.id seg
           /\ PodcastSegment.speaker seg' = PodcastSegment.speaker seg
           /\ PodcastSegment.text seg' = PodcastSegment.text seg
           /\ PodcastSegment.status seg' = PodcastSegment.status seg
           /\ PodcastSegment.audioUrl seg' = PodcastSegment.audioUrl seg.
Proof.
  intros m. cbv zeta.
  assert (Hrun : stampsOnly m (snd (Studio.handlePodcastProduction m))).
  { unfold Studio.handlePodcastProduction. cbv zeta.
    destruct (_ || _)%bool; [apply stampsOnly_refl|].
    destruct (audioContextRef (hooks m)) as [ctx|]; [|apply stampsOnly_refl].
    unfold Studio.run. apply stable_bind; [exact stampsOnly_trans| |].
    - unfold Studio.preamble.
      apply stable_bind; [exact stampsOnly_trans|apply stamps_await|].
      intros _. apply stable_bind; [exact stampsOnly_trans|apply stamps_setState|].
      intros _. apply stable_bind; [exact stampsOnly_trans| |].
      { intros m0. apply stampsOnly_same; reflexivity. }
      intros _. apply stable_bind; [exact stampsOnly_trans| |].
      { intros m0. apply stampsOnly_same; reflexivity. }
      intros _. apply stable_bind; [exact stampsOnly_trans| |].
      { intros m0. apply stampsOnly_refl. }
      intros d. apply stable_bind; [exact stampsOnly_trans| |].
      { destruct (ModelRouter.model d); [apply stable_ret|apply stable_throw];
          exact stampsOnly_refl. }
      intros model. apply stable_bind; [exact stampsOnly_trans|apply stamps_addLog|].
      intros _. apply stable_ret. exact stampsOnly_refl.
    - intros model. apply stable_tryCatchFinally.
      + exact stampsOnly_trans.
      + apply stamps_produce.
      + intros e. unfold Studio.productionFailed.
        apply stable_bind; [exact stampsOnly_trans|apply stamps_addLog|].
        intros _. apply stamps_setProgress.
      + apply stamps_setState. }
  destruct Hrun as [Hhooks Hobjects]. injection Hhooks as Hsegs Hscript Htopic Hcover.
  split; [exact Hsegs|]. split; [exact Hscript|]. split; [exact Htopic|].
  split; [exact Hcover|]. exact Hobjects.
Qed.

End Stamps.

(** ** Previewing a voice *)

Section VoicePreview.
Context {AE : AudioEngine}.
Import App PipelineSpec RunSpec.
Variable stopPlayback : Env -> Env.
Variable startSource : AudioBuffer -> AudioContext -> Env -> Completion unit * Env.

Lemma onlyWorld_audition voice ctx :
  stable onlyWorld (Preview.audition startSource voice ctx).
Proof.
  unfold Preview.audition.
  apply stable_bind; [exact onlyWorld_trans|apply onlyWorld_await|]. intros _.
  apply stable_bind; [exact onlyWorld_trans| |].
  { destruct (VoiceProfile.engine voice); [apply onlyWorld_await|].
    apply stable_bind; [exact onlyWorld_trans|apply onlyWorld_awaitService|].
    intros base64. apply onlyWorld_await. }
  intros buffer. apply onlyWorld_await.
Qed.

(** X28: a voice preview never rejects.  With an audio context,
    [playVoiceSample] returns normally whatever the audio context, the
    synthesis, the decoder or the playback do.  It stops the playback
    and logs "Previewing voice: N"; then, when the [try] block - resume
    the context, synthesize the sample, start the source - completes,
    the voice is the active preview and nothing more is logged; when
    the block throws [e], no preview is active and the log opens with
    "Voice preview failed: " and the message of this very [e].  A
    failure of [ensureAudioContext] is such a failure of the block.
    Neither way are the segments, the heap or another hook than the log
    touched.  Without an audio context nothing happens. *)
Theorem X28_playVoiceSample_never_rejects :
  forall voice (b : Preview.Booth),
    let m := Preview.machine b in
    let previewing :=
      LogEntry.mk (Date_now (stopPlayback (env (world m)))) LogEntry.info
        ("Previewing voice: " +:+ VoiceProfile.name voice) in
    let frame := fun h : Hooks =>
      (state h, script h, topic h, segments h, fullAudioUrl h, srtUrl h,
       coverArtUrl h, progress h, history h) in
    match audioContextRef (hooks m) with
    | None => Preview.playVoiceSample stopPlayback startSource voice b = (Normal tt, b)
    | Some ctx =>
        exists b',
          let m' := Preview.machine b' in
          Preview.playVoiceSample stopPlayback startSource voice b = (Normal tt, b')
          /\ heap m' = heap m
          /\ frame (hooks m') = frame (hooks m)
          /\ match Preview.audition startSource voice ctx
                     (Preview.opened stopPlayback voice m) with
             | (Normal _, m2) =>
                 Preview.activePreviewId b' = Some (VoiceProfile.id voice)
                 /\ logs (hooks m') = take 100 (previewing :: logs (hooks m))
                 /\ world m' = world m2
             | (Throw e, m2) =>
                 Preview.activePreviewId b' = None
                 /\ logs (hooks m')
                    = take 100
                        (LogEntry.mk (Date_now (env (world m2))) LogEntry.error
                           ("Voice preview failed: " +:+ JS.showMessage e)
                         :: take 100 (previewing :: logs (hooks m)))
                 /\ world m' = world m2
             end
          /\ (forall e e1,
                ensureAudioContext ctx (stopPlayback (env (world m))) = (Throw e, e1) ->
                fst (Preview.audition startSource voice ctx
                       (Preview.opened stopPlayback voice m)) = Throw e
                /\ Preview.activePreviewId b' = None
                /\ exists entry,
                     head (logs (hooks m')) = Some entry
                     /\ LogEntry.level entry = LogEntry.error
                     /\ LogEntry.message entry
                        = "Voice preview failed: " +:+ JS.showMessage e)
    end.
Proof.
  intros voice [m active]. cbv zeta. cbn [Preview.machine].
  unfold Preview.playVoiceSample, Preview.opened. cbn [Preview.machine].
  destruct (audioContextRef (hooks m)) as [ctx|]; [|reflexivity].
  cbv zeta.
  set (m0 := {| world := {| env := stopPlayback (env (world m)); timers := timers (world m) |};
                heap := heap m; hooks := hooks m; reports := reports m |}).
  set (note := "Previewing voice: " +:+ VoiceProfile.name voice).
  set (m1 := snd (Studio.addLog LogEntry.info note m0)).
  pose proof (onlyWorld_audition voice ctx m1) as (Hheap & Hhooks & Hreports).
  assert (Hfirst : forall e e1,
            ensureAudioContext ctx (stopPlayback (env (world m))) = (Throw e, e1) ->
            exists m2, Preview.audition startSource voice ctx m1 = (Throw e, m2)).
  { intros e e1 Hctx. unfold Preview.audition, bind. unfold Studio.await at 1.
    change (env (world m1)) with (stopPlayback (env (world m))). rewrite Hctx.
    eexists. reflexivity. }
  destruct (Preview.audition startSource voice ctx m1) as [[[]|e] m2] eqn:Hrun;
    cbn [snd] in Hheap, Hhooks, Hreports.
  - eexists. split; [reflexivity|]. cbn [Preview.machine Preview.activePreviewId].
    rewrite Hheap, Hhooks. split; [reflexivity|]. split; [reflexivity|]. split.
    + split; [reflexivity|]. split; reflexivity.
    + intros e e1 Hctx. destruct (Hfirst e e1 Hctx) as [m2' Hthrow]. discriminate Hthrow.
  - eexists. split; [reflexivity|]. cbn [Preview.machine Preview.activePreviewId].
    cbn -[take]. rewrite Hheap, Hhooks. split; [reflexivity|]. split; [reflexivity|]. split.
    + split; [reflexivity|]. split; reflexivity.
    + intros e0 e1 Hctx. destruct (Hfirst e0 e1 Hctx) as [m2' Hthrow].
      injection Hthrow as -> _. split; [reflexivity|]. split; [reflexivity|].
      eexists. split; [reflexivity|]. split; reflexivity.
Qed.

End VoicePreview.

(** A preview on a browser whose speech synthesis fails: the handler
    returns, no preview is active, and the log opens with the failure. *)
Lemma X28_playVoiceSample_never_rejects_witness :
  exists b',
    Preview.playVoiceSample (AE := Bench.engine) (fun e => e)
      (fun _ _ e => (Normal tt, e))
      (VoiceProfile.mk "free-2" "Emma" "en-US-EmmaNeural" VoiceProfile.Female "Edge Female"
         BROWSER (Some "Let's talk about the world today."))
      (Preview.mkBooth
         (Bench.defaultSession (Bench.appState FREE "balanced" MP3)
            (Bench.mkEnv (Some 0%nat) [] 1700000000000 0))
         None)
    = (Normal tt, b')
    /\ Preview.activePreviewId b' = None
    /\ map LogEntry.message (App.logs (App.hooks (Preview.machine b')))
       = ["Voice preview failed: synthesis-failed"; "Previewing voice: Emma"].
Proof.
  destruct (X28_playVoiceSample_never_rejects (AE := Bench.engine) (fun e => e)
              (fun _ _ e => (Normal tt, e))
              (VoiceProfile.mk "free-2" "Emma" "en-US-EmmaNeural" VoiceProfile.Female
                 "Edge Female" BROWSER (Some "Let's talk about the world today."))
              (Preview.mkBooth
                 (Bench.defaultSession (Bench.appState FREE "balanced" MP3)
                    (Bench.mkEnv (Some 0%nat) [] 1700000000000 0))
                 None))
    as (b' & Hrun & _).
  exists b'. split; [exact Hrun|].
  replace b' with
    (snd (Preview.playVoiceSample (AE := Bench.engine) (fun e => e)
            (fun _ _ e => (Normal tt, e))
            (VoiceProfile.mk "free-2" "Emma" "en-US-EmmaNeural" VoiceProfile.Female
               "Edge Female" BROWSER (Some "Let's talk about the world today."))
            (Preview.mkBooth
               (Bench.defaultSession (Bench.appState FREE "balanced" MP3)
                  (Bench.mkEnv (Some 0%nat) [] 1700000000000 0))
               None)))
    by (rewrite Hrun; reflexivity).
  vm_compute. split; reflexivity.
Defined.
